(** * Duplicate finder: a shallow embedding of [duplicate_finder.py]

    The development follows the Python module function by function:
    [_calculate_hash], [find_duplicates], [delete_duplicates] and
    [find_and_delete_duplicates] of class [DuplicateFinder], and the
    [duplicates] command of [main.py].  The filesystem, the logger and
    the builtins the module calls ([hashlib.md5], [pathlib], [min],
    [max]) are modelled explicitly. *)

From Stdlib Require Import ZArith Lia List.
From Stdlib.Strings Require Import Ascii String Byte.
From stdpp Require Import base option list gmap strings pretty.
From Equations.Prop Require Import Equations Logic.

Local Open Scope Z_scope.

(** ** [hashlib.md5]

    RFC 1321 on 32-bit words held in [Z], the wrap-around written out. *)
Module MD5.

Definition w32 (x : Z) : Z := Z.land x 0xffffffff.

Definition rotl32 (x c : Z) : Z :=
  w32 (Z.lor (Z.shiftl x c) (Z.shiftr (w32 x) (32 - c))).

Definition not32 (x : Z) : Z := Z.lxor (w32 x) 0xffffffff.

Definition S_table : list Z :=
  [7; 12; 17; 22; 7; 12; 17; 22; 7; 12; 17; 22; 7; 12; 17; 22;
   5; 9; 14; 20; 5; 9; 14; 20; 5; 9; 14; 20; 5; 9; 14; 20;
   4; 11; 16; 23; 4; 11; 16; 23; 4; 11; 16; 23; 4; 11; 16; 23;
   6; 10; 15; 21; 6; 10; 15; 21; 6; 10; 15; 21; 6; 10; 15; 21].

Definition K_table : list Z :=
  [0xd76aa478; 0xe8c7b756; 0x242070db; 0xc1bdceee;
   0xf57c0faf; 0x4787c62a; 0xa8304613; 0xfd469501;
   0x698098d8; 0x8b44f7af; 0xffff5bb1; 0x895cd7be;
   0x6b901122; 0xfd987193; 0xa679438e; 0x49b40821;
   0xf61e2562; 0xc040b340; 0x265e5a51; 0xe9b6c7aa;
   0xd62f105d; 0x02441453; 0xd8a1e681; 0xe7d3fbc8;
   0x21e1cde6; 0xc33707d6; 0xf4d50d87; 0x455a14ed;
   0xa9e3e905; 0xfcefa3f8; 0x676f02d9; 0x8d2a4c8a;
   0xfffa3942; 0x8771f681; 0x6d9d6122; 0xfde5380c;
   0xa4beea44; 0x4bdecfa9; 0xf6bb4b60; 0xbebfbc70;
   0x289b7ec6; 0xeaa127fa; 0xd4ef3085; 0x04881d05;
   0xd9d4d039; 0xe6db99e5; 0x1fa27cf8; 0xc4ac5665;
   0xf4292244; 0x432aff97; 0xab9423a7; 0xfc93a039;
   0x655b59c3; 0x8f0ccc92; 0xffeff47d; 0x85845dd1;
   0x6fa87e4f; 0xfe2ce6e0; 0xa3014314; 0x4e0811a1;
   0xf7537e82; 0xbd3af235; 0x2ad7d2bb; 0xeb86d391].

(** The four chaining registers A, B, C, D. *)
Record regs := Regs { rA : Z; rB : Z; rC : Z; rD : Z }.

Definition init_regs : regs :=
  Regs 0x67452301 0xefcdab89 0x98badcfe 0x10325476.

(** Little-endian packing of four bytes into a word, and back. *)
Definition le_word (bs : list Z) : Z :=
  fold_right (fun b acc => b + 256 * acc) 0 bs.

Fixpoint le_bytes (n : nat) (x : Z) : list Z :=
  match n with
  | O => []
  | S n' => Z.land x 0xff :: le_bytes n' (Z.shiftr x 8)
  end.

Fixpoint words (n : nat) (bs : list Z) : list Z :=
  match n with
  | O => []
  | S n' => le_word (take 4 bs) :: words n' (drop 4 bs)
  end.

Definition round (M : list Z) (r : regs) (i : Z) : regs :=
  let '(Regs a b c d) := r in
  let '(f, g) :=
    if i <? 16 then (Z.lor (Z.land b c) (Z.land (not32 b) d), i)
    else if i <? 32 then
      (Z.lor (Z.land d b) (Z.land (not32 d) c), (5 * i + 1) mod 16)
    else if i <? 48 then (Z.lxor (Z.lxor b c) d, (3 * i + 5) mod 16)
    else (Z.lxor c (Z.lor b (not32 d)), (7 * i) mod 16) in
  let f' := w32 (f + a + nth (Z.to_nat i) K_table 0 + nth (Z.to_nat g) M 0) in
  Regs d (w32 (b + rotl32 f' (nth (Z.to_nat i) S_table 0))) b c.

Definition compress (r : regs) (block : list Z) : regs :=
  let M := words 16 block in
  let r' := fold_left (round M) (map Z.of_nat (seq 0 64)) r in
  Regs (w32 (rA r + rA r')) (w32 (rB r + rB r'))
       (w32 (rC r + rC r')) (w32 (rD r + rD r')).

Definition pad (msg : list Z) : list Z :=
  let len := Z.of_nat (length msg) in
  let zeros := Z.to_nat ((55 - len) mod 64) in
  msg ++ 0x80 :: repeat 0 zeros ++ le_bytes 8 ((8 * len) mod 2 ^ 64).

Fixpoint absorb (n : nat) (r : regs) (bs : list Z) : regs :=
  match n with
  | O => r
  | S n' => absorb n' (compress r (take 64 bs)) (drop 64 bs)
  end.

Definition digest (msg : list Z) : list Z :=
  let p := pad msg in
  let r := absorb (length p / 64)%nat init_regs p in
  le_bytes 4 (rA r) ++ le_bytes 4 (rB r) ++ le_bytes 4 (rC r)
    ++ le_bytes 4 (rD r).

Definition hex_digit (x : Z) : ascii :=
  if x <? 10 then ascii_of_nat (Z.to_nat (48 + x))
  else ascii_of_nat (Z.to_nat (87 + x)).

Fixpoint hex (bs : list Z) : string :=
  match bs with
  | [] => EmptyString
  | b :: bs' =>
      String (hex_digit (Z.shiftr b 4))
        (String (hex_digit (Z.land b 0xf)) (hex bs'))
  end.

Definition byte_val (b : byte) : Z := Z.of_N (Byte.to_N b).

(** [hashlib.md5(data).hexdigest()]. *)
Definition hexdigest_of (data : list byte) : string :=
  hex (digest (map byte_val data)).

End MD5.

Definition bytes_of (s : string) : list byte := list_byte_of_string s.

(** ** The environment: filesystem, logger, exceptions *)

Local Open Scope string_scope.
Local Open Scope Z_scope.
Local Open Scope list_scope.

(** A path is the tuple of its components ([pathlib]'s [parts]); [str]
    joins them with the separator. *)
Abbreviation path := (list string).

Definition str (p : path) : string := String.concat "/" p.

(** The exceptions that can reach the module; all derive from
    [Exception], so [except Exception] catches every one of them. *)
Inductive exn :=
| FileNotFoundError
| PermissionError
| IsADirectoryError
| OSError
| ValueError
| IndexError.

(** What a directory entry is.  A regular file carries its bytes and the
    two ways reading can fail: [open_error] makes [open] raise,
    [read_error_at = Some k] makes the read call number [k] (from 0)
    raise.  A tree holds directories, regular files and special files;
    it has no symbolic links. *)
Inductive kind :=
| Regular (data : list byte) (open_error : option exn)
          (read_error_at : option nat)
| Directory
| Special.

(** [st_mtime] is a float in Python; only its order is used, so an
    integer timestamp stands for it.  [unlink_error] makes [unlink]
    raise (for instance lost write permission on the parent). *)
Record node := Node {
  node_kind : kind;
  st_mtime : Z;
  unlink_error : option exn
}.

Abbreviation filesystem := (gmap (list string) node).

Inductive level := DEBUG | INFO | WARNING | ERROR.

(** One constructor per logger call of the module. *)
Inductive message :=
| HashError (file_path : path) (e : exn)
| Scanning (n : nat)
| Found (n : nat)
| UnknownStrategy (keep_strategy : string)
| Keeping (file_path : path)
| WouldDelete (file_path : path)
| Deleted (file_path : path)
| DeleteError (file_path : path) (e : exn).

(** The world the program runs in.  The log is the sequence of logger
    calls; it is kept apart from the scanned tree. *)
Record world := World {
  fs : gmap (list string) node;
  log : list (level * message)
}.

(** ** State and exceptions

    Python statements run in [M]: they may change the world and may
    raise; the world reached so far survives a raise. *)
Inductive outcome (A : Type) :=
| Ok (a : A)
| Raise (e : exn).
Arguments Ok {A} a.
Arguments Raise {A} e.

Definition M (A : Type) : Type := world -> outcome A * world.

#[global] Instance M_ret : MRet M := fun A a w => (Ok a, w).

#[global] Instance M_bind : MBind M := fun A B k m w =>
  match m w with
  | (Ok a, w') => k a w'
  | (Raise e, w') => (Raise e, w')
  end.

Definition raise {A} (e : exn) : M A := fun w => (Raise e, w).

(** [try: body except Exception as e: handler]. *)
Definition try_except {A} (body : M A) (handler : exn -> M A) : M A :=
  fun w =>
    match body w with
    | (Ok a, w') => (Ok a, w')
    | (Raise e, w') => handler e w'
    end.

Definition lift {A} (o : outcome A) : M A := fun w => (o, w).

Definition get_fs : M (gmap (list string) node) := fun w => (Ok (fs w), w).

Definition logger (l : level) (m : message) : M unit :=
  fun w => (Ok tt, World (fs w) (log w ++ [(l, m)])).

(** ** [pathlib] *)

(** [p.is_file()] and [p.is_dir()] in a tree whose directories can all
    be searched, where the two calls do not raise. *)
Definition is_file (t : gmap (list string) node) (p : path) : bool :=
  match t !! p with
  | Some (Node (Regular _ _ _) _ _) => true
  | _ => false
  end.

Definition is_dir (t : gmap (list string) node) (p : path) : bool :=
  match t !! p with
  | Some (Node Directory _ _) => true
  | _ => false
  end.

(** The entries of the tree, in the order the system lists them. *)
Definition entries (t : gmap (list string) node) : list path :=
  (map_to_list t).*1.

Definition child_of (d p : path) : Prop :=
  take (length d) p = d /\ length p = S (length d).

Definition below (d p : path) : Prop :=
  take (length d) p = d /\ (length d < length p)%nat.

#[global] Instance child_of_dec d p : Decision (child_of d p).
Proof. unfold child_of. apply _. Defined.

#[global] Instance below_dec d p : Decision (below d p).
Proof. unfold below. apply _. Defined.

(** [directory.glob('*')] and [directory.rglob('*')]: the children, or
    all the descendants; nothing, and no exception, when [directory] is
    missing or is not a directory. *)
Definition glob (t : gmap (list string) node) (directory : path) : list path :=
  if is_dir t directory then filter (child_of directory) (entries t) else [].

Definition rglob (t : gmap (list string) node) (directory : path) : list path :=
  if is_dir t directory then filter (below directory) (entries t) else [].

(** [p.stat().st_mtime].  A missing path is the one failure of [stat]
    a tree can express. *)
Definition stat_mtime (p : path) : M Z := fun w =>
  match fs w !! p with
  | Some n => (Ok (st_mtime n), w)
  | None => (Raise FileNotFoundError, w)
  end.

(** [p.unlink()] *)
Definition unlink (p : path) : M unit := fun w =>
  match fs w !! p with
  | None => (Raise FileNotFoundError, w)
  | Some (Node Directory _ _) => (Raise IsADirectoryError, w)
  | Some (Node _ _ (Some e)) => (Raise e, w)
  | Some (Node _ _ None) => (Ok tt, World (delete p (fs w)) (log w))
  end.

(** [open(p, 'rb')]: the handle is the file's bytes and its read fault. *)
Definition open_rb (p : path) : M (list byte * option nat) := fun w =>
  match fs w !! p with
  | None => (Raise FileNotFoundError, w)
  | Some (Node (Regular data None err) _ _) => (Ok (data, err), w)
  | Some (Node (Regular _ (Some e) _) _ _) => (Raise e, w)
  | Some (Node Directory _ _) => (Raise IsADirectoryError, w)
  | Some (Node Special _ _) => (Raise OSError, w)
  end.

(** [f.read(n)]: the chunk returned and what is left of the file.  A
    negative size reads to the end, size 0 reads nothing.  The reader
    itself takes no size below -1 and none it cannot allocate a buffer
    for: it raises, and [_calculate_hash] answers with the empty
    string.  The model has no such failure, so the statements that
    promise a digest for a file that opens and reads are made for
    [usual_chunk_size]. *)
Definition read (n : Z) (rest : list byte) : list byte * list byte :=
  if n <? 0 then (rest, [])
  else (take (Z.to_nat n) rest, drop (Z.to_nat n) rest).

(** ** Builtins [min] and [max] with a key

    Both keep the first item and replace it only by a strictly better
    one, so among equal keys the earliest item wins. *)
Fixpoint extremum {A} (better : Z -> Z -> bool) (key : A -> M Z)
    (best : A) (best_key : Z) (l : list A) : M A :=
  match l with
  | [] => mret best
  | x :: l' =>
      v ← key x;
      if better v best_key then extremum better key x v l'
      else extremum better key best best_key l'
  end.

Definition py_min {A} (l : list A) (key : A -> M Z) : M A :=
  match l with
  | [] => raise ValueError
  | x :: l' => v ← key x; extremum Z.ltb key x v l'
  end.

Definition py_max {A} (l : list A) (key : A -> M Z) : M A :=
  match l with
  | [] => raise ValueError
  | x :: l' => v ← key x; extremum Z.gtb key x v l'
  end.

(** ** [DuplicateFinder._calculate_hash] *)

(** A [hashlib] object is the bytes fed to it so far: feeding chunks one
    after the other is feeding their concatenation. *)
Definition md5_new : list byte := [].
Definition md5_update (h chunk : list byte) : list byte := h ++ chunk.
Definition md5_hexdigest (h : list byte) : string := MD5.hexdigest_of h.

(** [while chunk := f.read(self.chunk_size): hash_md5.update(chunk)];
    [k] counts the read calls made on the handle. *)
Equations? read_loop (chunk_size : Z) (err : option nat) (k : nat)
    (rest : list byte) (hash_md5 : list byte) : outcome (list byte)
    by wf (length rest) lt :=
  read_loop chunk_size err k rest hash_md5 with decide (err = Some k) := {
    | left _ => Raise OSError
    | right _ with inspect (read chunk_size rest) := {
      | exist _ ([], _) _ => Ok hash_md5
      | exist _ (b :: chunk, rest') _ =>
          read_loop chunk_size err (S k) rest' (md5_update hash_md5 (b :: chunk))
      }
    }.
Proof.
  unfold read in *. destruct (chunk_size <? 0)%Z.
  - inversion e. simpl. lia.
  - inversion e as [[H1 H2]].
    assert (Hn : (0 < Z.to_nat chunk_size)%nat).
    { destruct (Z.to_nat chunk_size); [by rewrite take_0 in H1 | lia]. }
    destruct rest as [|x rest]; [by rewrite take_nil in H1|].
    rewrite length_drop. simpl. lia.
Qed.

(** Lines 39-42, the body of the [try]. *)
Definition hash_body (chunk_size : Z) (file_path : path) : M string :=
  let hash_md5 := md5_new in
  f ← open_rb file_path;
  hash_md5 ← lift (read_loop chunk_size f.2 0 f.1 hash_md5);
  mret (md5_hexdigest hash_md5).

Definition _calculate_hash (chunk_size : Z) (file_path : path) : M string :=
  try_except (hash_body chunk_size file_path)
    (fun e =>
       _ ← logger ERROR (HashError file_path e);
       mret EmptyString).

(** ** [DuplicateFinder.find_duplicates] *)

(** [hash_to_files]: a Python dict keeps its keys in insertion order. *)
Abbreviation dict := (list (string * list (list string))).

Definition dict_has (h : string) (d : dict) : bool :=
  bool_decide (h ∈ d.*1).

(** [d[h] = []] for a key that is not there yet. *)
Definition dict_new (h : string) (d : dict) : dict := d ++ [(h, [])].

(** [d[h].append(p)] *)
Definition dict_append (h : string) (p : path) (d : dict) : dict :=
  (fun e : string * list path =>
     if decide (e.1 = h) then (e.1, e.2 ++ [p]) else e) <$> d.

Fixpoint scan (chunk_size : Z) (files : list path) (hash_to_files : dict)
    : M dict :=
  match files with
  | [] => mret hash_to_files
  | file_path :: files' =>
      file_hash ← _calculate_hash chunk_size file_path;
      if decide (file_hash = EmptyString) then scan chunk_size files' hash_to_files
      else
        let hash_to_files :=
          if dict_has file_hash hash_to_files then hash_to_files
          else dict_new file_hash hash_to_files in
        scan chunk_size files' (dict_append file_hash file_path hash_to_files)
  end.

(** The files the scan visits, in order. *)
Definition candidates (t : gmap (list string) node) (directory : path)
    (recursive : bool) : list path :=
  let files := if recursive then rglob t directory else glob t directory in
  filter (fun f => is_file t f = true) files.

Definition find_duplicates (chunk_size : Z) (directory : path)
    (recursive : bool) : M dict :=
  let hash_to_files : dict := [] in
  t ← get_fs;
  let files := candidates t directory recursive in
  _ ← logger INFO (Scanning (length files));
  hash_to_files ← scan chunk_size files hash_to_files;
  let duplicates :=
    filter (fun e : string * list path => (1 < length e.2)%nat) hash_to_files in
  _ ← logger INFO (Found (length duplicates));
  mret duplicates.

(** ** [DuplicateFinder.delete_duplicates] *)

(** Lines 112-122: which file of the set is kept. *)
Definition choose_keep (keep_strategy : string) (file_paths : list path)
    : M path :=
  if decide (keep_strategy = "keep_oldest") then
    py_min file_paths stat_mtime
  else if decide (keep_strategy = "keep_newest") then
    py_max file_paths stat_mtime
  else if decide (keep_strategy = "keep_shortest_path") then
    py_min file_paths (fun p => mret (Z.of_nat (String.length (str p))))
  else if decide (keep_strategy = "keep_first") then
    match file_paths with
    | p :: _ => mret p
    | [] => raise IndexError
    end
  else
    match file_paths with
    | p :: _ =>
        _ ← logger WARNING (UnknownStrategy keep_strategy);
        mret p
    | [] => raise IndexError
    end.

(** Lines 125-138: the loop over the members of one set. *)
Fixpoint delete_others (dry_run : bool) (keep_file : path)
    (file_paths : list path) (deleted_files : list path) : M (list path) :=
  match file_paths with
  | [] => mret deleted_files
  | file_path :: rest =>
      if decide (file_path = keep_file) then
        _ ← logger DEBUG (Keeping file_path);
        delete_others dry_run keep_file rest deleted_files
      else if dry_run then
        _ ← logger INFO (WouldDelete file_path);
        delete_others dry_run keep_file rest deleted_files
      else
        deleted_files ←
          try_except
            (_ ← unlink file_path;
             _ ← logger INFO (Deleted file_path);
             mret (deleted_files ++ [file_path]))
            (fun e =>
               _ ← logger ERROR (DeleteError file_path e);
               mret deleted_files);
        delete_others dry_run keep_file rest deleted_files
  end.

(** Lines 107-138: the loop over [duplicates.items()]. *)
Fixpoint resolve (keep_strategy : string) (dry_run : bool)
    (items : dict) (deleted_files : list path) : M (list path) :=
  match items with
  | [] => mret deleted_files
  | (file_hash, file_paths) :: items' =>
      if (length file_paths <=? 1)%nat then
        resolve keep_strategy dry_run items' deleted_files
      else
        keep_file ← choose_keep keep_strategy file_paths;
        deleted_files ←
          delete_others dry_run keep_file file_paths deleted_files;
        resolve keep_strategy dry_run items' deleted_files
  end.

Definition delete_duplicates (duplicates : dict) (keep_strategy : string)
    (dry_run : bool) : M (list path) :=
  let deleted_files := [] in
  resolve keep_strategy dry_run duplicates deleted_files.

(** ** [DuplicateFinder.find_and_delete_duplicates] *)

Record summary := Summary {
  duplicate_sets : nat;
  total_duplicate_files : nat;
  deleted_files : nat;
  deleted_paths : list path
}.

Definition find_and_delete_duplicates (chunk_size : Z) (directory : path)
    (recursive : bool) (keep_strategy : string) (dry_run : bool)
    : M summary :=
  duplicates ← find_duplicates chunk_size directory recursive;
  deleted ← delete_duplicates duplicates keep_strategy dry_run;
  mret (Summary (length duplicates)
          (sum_list ((fun files : list path => (length files - 1)%nat)
                       <$> duplicates.*2))
          (length deleted) deleted).

(** ** [main.py]: the [duplicates] command *)





(** ** What the runs compute, as functions of the filesystem

    These are the values the theorems below compare the program with. *)

(** The result of the [try] body of [_calculate_hash] on [p]. *)
Definition fingerprint (chunk_size : Z) (t : gmap (list string) node)
    (p : path) : outcome string :=
  (hash_body chunk_size p (World t [])).1.

(** The string [_calculate_hash] hands to its caller. *)
Definition hash_value (chunk_size : Z) (t : gmap (list string) node)
    (p : path) : string :=
  match fingerprint chunk_size t p with
  | Ok s => s
  | Raise _ => EmptyString
  end.

(** The files of [files] with hash [h], in the order of [files]. *)
Definition members (hv : path -> string) (files : list path) (h : string)
    : list path :=
  filter (fun p => hv p = h) files.

(** One turn of the scanning loop, and the whole loop. *)
Definition add_file (hv : path -> string) (d : dict) (p : path) : dict :=
  if decide (hv p = EmptyString) then d
  else dict_append (hv p) p
         (if dict_has (hv p) d then d else dict_new (hv p) d).

Definition group (hv : path -> string) (files : list path) (d : dict) : dict :=
  foldl (add_file hv) d files.

(** The dictionary after the files [seen]: one entry per non-empty hash
    met, holding the files with that hash in the order met. *)
Definition grouped (hv : path -> string) (seen : list path) (d : dict)
    : Prop :=
  NoDup d.*1 /\
  forall h l, (h, l) ∈ d <-> h <> EmptyString /\ l = members hv seen h /\ l <> [].

Definition duplicates_of (chunk_size : Z) (t : gmap (list string) node)
    (directory : path) (recursive : bool) : dict :=
  filter (fun e : string * list path => (1 < length e.2)%nat)
    (group (hash_value chunk_size t) (candidates t directory recursive) []).

(** The survivor [choose_keep] picks on filesystem [t]. *)
Definition keep_of (t : gmap (list string) node) (keep_strategy : string)
    (file_paths : list path) : outcome path :=
  (choose_keep keep_strategy file_paths (World t [])).1.

Definition mtime_of (t : gmap (list string) node) (p : path) : Z :=
  from_option st_mtime 0 (t !! p).

Definition path_length (p : path) : Z := Z.of_nat (String.length (str p)).

(** [k] is the first element of [l] whose key is least ([s = 1]) or
    greatest ([s = -1]): every earlier element is strictly worse, no
    later one is better. *)
Definition first_best {A} (s : Z) (f : A -> Z) (l : list A) (k : A) : Prop :=
  exists l1 l2,
    l = l1 ++ k :: l2 /\
    (forall x, x ∈ l1 -> s * f k < s * f x) /\
    (forall x, x ∈ l2 -> s * f k <= s * f x).

(** The policies that read modification times. *)
Definition uses_mtime (keep_strategy : string) : Prop :=
  keep_strategy = "keep_oldest" \/ keep_strategy = "keep_newest".

(** What each policy promises about the survivor [k] of [file_paths]. *)
Definition policy_ok (t : gmap (list string) node) (keep_strategy : string)
    (file_paths : list path) (k : path) : Prop :=
  if decide (keep_strategy = "keep_oldest") then
    first_best 1 (mtime_of t) file_paths k
  else if decide (keep_strategy = "keep_newest") then
    first_best (-1) (mtime_of t) file_paths k
  else if decide (keep_strategy = "keep_shortest_path") then
    first_best 1 path_length file_paths k
  else head file_paths = Some k.

(** [p.unlink()] succeeds on [t]. *)
Definition can_unlink (t : gmap (list string) node) (p : path) : bool :=
  match t !! p with
  | Some (Node Directory _ _) => false
  | Some (Node _ _ None) => true
  | _ => false
  end.

(** The members of one set that a live run removes: every member but
    the survivor whose [unlink] succeeds. *)
Definition removed_of (t : gmap (list string) node) (keep_strategy : string)
    (file_paths : list path) : list path :=
  if (length file_paths <=? 1)%nat then []
  else
    match keep_of t keep_strategy file_paths with
    | Ok k => filter (fun p => p <> k /\ can_unlink t p = true) file_paths
    | Raise _ => []
    end.

Definition removed_by (t : gmap (list string) node) (keep_strategy : string)
    (items : dict) : list path :=
  mjoin (removed_of t keep_strategy <$> items.*2).

(** No file belongs to two sets, none is listed twice in a set, and every
    listed file is there: what [find_duplicates] hands over. *)
Definition well_formed (t : gmap (list string) node) (items : dict) : Prop :=
  NoDup (mjoin items.*2) /\
  Forall (fun p => is_Some (t !! p)) (mjoin items.*2).

#[global] Instance well_formed_dec t items : Decision (well_formed t items).
Proof. unfold well_formed. apply _. Defined.

(** ** Example worlds *)

Definition plain (content : string) (mtime : Z) : node :=
  Node (Regular (bytes_of content) None None) mtime None.

(** Directory [r] with files A and B (content x), C (content y), D that
    cannot be opened, E whose second read fails, and a subdirectory. *)
Definition tree1 : gmap (list string) node :=
  list_to_map
    [(["r"], Node Directory 0 None);
     (["r"; "A"], plain "x" 1);
     (["r"; "B"], plain "x" 2);
     (["r"; "C"], plain "y" 3);
     (["r"; "D"], Node (Regular (bytes_of "x") (Some PermissionError) None) 0 None);
     (["r"; "E"], Node (Regular (bytes_of "xx") None (Some 1%nat)) 0 None);
     (["r"; "s"], Node Directory 0 None);
     (["r"; "s"; "F"], plain "y" 0)].

Definition world1 : world := World tree1 [].

(** Directory [d]: a, b and c share their content, and so do e and f;
    b cannot be unlinked. *)
Definition locked (content : string) (mtime : Z) : node :=
  Node (Regular (bytes_of content) None None) mtime (Some PermissionError).

Definition tree2 : gmap (list string) node :=
  list_to_map
    [(["d"], Node Directory 0 None);
     (["d"; "a"], plain "x" 5);
     (["d"; "b"], locked "x" 6);
     (["d"; "c"], plain "x" 7);
     (["d"; "e"], plain "y" 1);
     (["d"; "f"], plain "y" 2)].

Definition world2 : world := World tree2 [].

Definition sets2 : dict :=
  [("9dd4e461268c8034f5c8564e155c67a6", [["d"; "a"]; ["d"; "b"]; ["d"; "c"]]);
   ("415290769594460e2e485922904f345d", [["d"; "e"]; ["d"; "f"]])].

(** The same sets, the first with a file z that is not in the tree. *)
Definition sets3 : dict :=
  [("9dd4e461268c8034f5c8564e155c67a6",
    [["d"; "a"]; ["d"; "z"]; ["d"; "b"]; ["d"; "c"]]);
   ("415290769594460e2e485922904f345d", [["d"; "e"]; ["d"; "f"]])].

(** The four policy names [delete_duplicates] knows. *)
Definition known_strategy (keep_strategy : string) : Prop :=
  keep_strategy ∈
    ["keep_oldest"; "keep_newest"; "keep_shortest_path"; "keep_first"].

#[global] Instance known_strategy_dec s : Decision (known_strategy s).
Proof. unfold known_strategy. apply _. Defined.

(** The paths a log announces as deletions of a dry run, and the number
    of warnings in it. *)
Definition would_delete (lg : list (level * message)) : list path :=
  omap (fun r : level * message =>
          match r.2 with WouldDelete p => Some p | _ => None end) lg.

Definition is_warning (r : level * message) : bool :=
  match r with
  | (WARNING, UnknownStrategy _) => true
  | _ => false
  end.

Definition warnings (lg : list (level * message)) : nat :=
  length (filter (fun r => is_warning r = true) lg).

(** The members of one set a dry run announces: all but the survivor. *)
Definition announced_of (t : gmap (list string) node) (keep_strategy : string)
    (file_paths : list path) : list path :=
  if (length file_paths <=? 1)%nat then []
  else
    match keep_of t keep_strategy file_paths with
    | Ok k => filter (fun p => p <> k) file_paths
    | Raise _ => []
    end.

Definition announced_by (t : gmap (list string) node) (keep_strategy : string)
    (items : dict) : list path :=
  mjoin (announced_of t keep_strategy <$> items.*2).

(** The chunk sizes the statements on file content are made for, from
    one byte to one mebibyte. *)
Definition usual_chunk_size (n : Z) : Prop := 0 < n <= 2 ^ 20.

(** The bytes of a regular file. *)
Definition content (t : gmap (list string) node) (p : path)
    : option (list byte) :=
  match t !! p with
  | Some (Node (Regular data _ _) _ _) => Some data
  | _ => None
  end.

(** No regular file of the tree has a read that raises. *)
Definition no_read_fault (t : gmap (list string) node) : Prop :=
  map_Forall (fun _ n => match node_kind n with
                         | Regular _ _ (Some _) => False
                         | _ => True
                         end) t.

#[global] Instance no_read_fault_dec t : Decision (no_read_fault t).
Proof.
  unfold no_read_fault. apply map_Forall_dec.
  intros _ [[d o [k|]| |] m u]; simpl; apply _.
Defined.

(** * File organizer: a shallow embedding of [file_organizer.py]

    The organizer is modelled as [main.py] builds it,
    [FileOrganizer(args.directory)]: [organize_config] is the empty
    dictionary, so the loop of [_get_file_category] over the custom
    mappings has no turn. *)
Module Organizer.

(** The class attribute [FILE_TYPES], in the order it is written, which
    is the order a Python dictionary is iterated in. *)
Definition FILE_TYPES : list (string * list string) :=
  [("PDFs", [".pdf"]);
   ("Images", [".jpg"; ".jpeg"; ".png"; ".gif"; ".bmp"; ".tiff"; ".svg";
               ".webp"; ".ico"]);
   ("CSVs", [".csv"]);
   ("Reports", [".csv"; ".xlsx"; ".xls"; ".xlsm"]);
   ("Documents", [".doc"; ".docx"; ".txt"; ".rtf"; ".odt"]);
   ("Spreadsheets", [".xlsx"; ".xls"; ".xlsm"; ".ods"]);
   ("Presentations", [".ppt"; ".pptx"; ".odp"]);
   ("Archives", [".zip"; ".rar"; ".7z"; ".tar"; ".gz"]);
   ("Videos", [".mp4"; ".avi"; ".mov"; ".wmv"; ".flv"; ".mkv"; ".webm"]);
   ("Audio", [".mp3"; ".wav"; ".flac"; ".aac"; ".ogg"; ".m4a"]);
   ("Code", [".py"; ".js"; ".html"; ".css"; ".java"; ".cpp"; ".c"; ".php";
             ".rb"]);
   ("Other", [])].

(** ** The environment *)

(** The exceptions met here: those of the operating system the
    duplicate finder already has, two more [OSError]s of [mkdir], the
    [KeyError] of a dictionary and the [Error] of [shutil]. *)
Inductive error :=
| Errno (e : exn)
| FileExistsError
| NotADirectoryError
| KeyError
| ShutilError.

Definition is_OSError (e : error) : bool :=
  match e with
  | Errno _ | FileExistsError | NotADirectoryError => true
  | KeyError | ShutilError => false
  end.

(** One constructor per logger call of the module. *)
Inductive message :=
| EnsuredDirectory (folder_path : path)
| WouldMove (name category target_name : string)
| Moved (name category target_name : string)
| MoveError (name : string) (e : error).

(** The tree, the log of the module, and the time stamp a directory
    gets when it is made. *)
Record world := World {
  fs : gmap (list string) node;
  log : list (level * message);
  clock : Z
}.

Inductive outcome (A : Type) :=
| Ok (a : A)
| Raise (e : error).
Arguments Ok {A} a.
Arguments Raise {A} e.

Definition M (A : Type) : Type := world -> outcome A * world.

#[global] Instance M_ret : MRet M := fun A a w => (Ok a, w).

#[global] Instance M_bind : MBind M := fun A B k m w =>
  match m w with
  | (Ok a, w') => k a w'
  | (Raise e, w') => (Raise e, w')
  end.

Definition raise {A} (e : error) : M A := fun w => (Raise e, w).

(** [try: body except Exception as e: handler]. *)
Definition try_except {A} (body : M A) (handler : error -> M A) : M A :=
  fun w =>
    match body w with
    | (Ok a, w') => (Ok a, w')
    | (Raise e, w') => handler e w'
    end.

Definition get_fs : M (gmap (list string) node) := fun w => (Ok (fs w), w).

Definition logger (l : level) (m : message) : M unit :=
  fun w => (Ok tt, World (fs w) (log w ++ [(l, m)]) (clock w)).

(** ** [str] and [pathlib] *)

(** [str.lower] on ASCII letters; file names are taken to be ASCII. *)
Definition lower_char (c : ascii) : ascii :=
  let n := nat_of_ascii c in
  if ((65 <=? n) && (n <=? 90))%nat then ascii_of_nat (n + 32) else c.

Fixpoint lower (s : string) : string :=
  match s with
  | EmptyString => EmptyString
  | String c s' => String (lower_char c) (lower s')
  end.

(** [s.rfind(c)], with [None] for -1. *)
Fixpoint rfind (c : ascii) (s : string) : option nat :=
  match s with
  | EmptyString => None
  | String a s' =>
      match rfind c s' with
      | Some i => Some (S i)
      | None => if decide (a = c) then Some 0%nat else None
      end
  end.

(** [p.name] and [p.parent]; the parent of a single name is the empty
    path, whose name is the empty string. *)
Definition name (p : path) : string := default EmptyString (last p).

Definition parent (p : path) : path := removelast p.

(** [p.suffix] and [p.stem], as [pathlib] has them before Python 3.14:
    the name is split at its last dot, unless that dot is the first or
    the last character. *)
Definition suffix (p : path) : string :=
  let name := name p in
  match rfind "." name with
  | Some i =>
      if ((0 <? i) && (i <? String.length name - 1))%nat
      then substring i (String.length name - i) name
      else EmptyString
  | None => EmptyString
  end.

Definition stem (p : path) : string :=
  let name := name p in
  match rfind "." name with
  | Some i =>
      if ((0 <? i) && (i <? String.length name - 1))%nat
      then substring 0 i name
      else name
  | None => name
  end.

(** [p.exists()] *)
Definition exists_ (t : gmap (list string) node) (p : path) : bool :=
  bool_decide (is_Some (t !! p)).

(** [os.mkdir(p)] *)
Definition os_mkdir (p : path) : M unit := fun w =>
  match fs w !! p with
  | Some _ => (Raise FileExistsError, w)
  | None =>
      match fs w !! parent p with
      | None => (Raise (Errno FileNotFoundError), w)
      | Some (Node Directory _ _) =>
          (Ok tt,
           World (<[p := Node Directory (clock w) None]> (fs w)) (log w)
             (clock w))
      | Some _ => (Raise NotADirectoryError, w)
      end
  end.

(** [p.mkdir(parents=parents, exist_ok=True)], as [pathlib] writes it: a
    missing parent is made first, any other [OSError] is passed over
    when [p] is a directory all the same.  [fuel] bounds the climb to
    the parents; the length of [p] is enough. *)
Fixpoint mkdir_go (fuel : nat) (parents : bool) (p : path) : M unit :=
  try_except (os_mkdir p)
    (fun e =>
       match e with
       | Errno FileNotFoundError =>
           if negb parents || bool_decide (parent p = p) then raise e
           else
             match fuel with
             | O => raise e
             | S fuel' =>
                 _ ← mkdir_go fuel' true (parent p);
                 mkdir_go fuel' false p
             end
       | _ =>
           if is_OSError e then
             t ← get_fs;
             if is_dir t p then mret tt else raise e
           else raise e
       end).

Definition mkdir (p : path) : M unit := mkdir_go (length p) true p.

(** ** [FileOrganizer._setup_directories]

    [set(folders)] is iterated in an order Python does not fix; [order]
    is that order, some arrangement of the keys of [FILE_TYPES]. *)
Fixpoint ensure_directories (base_path : path) (order : list string)
    : M unit :=
  match order with
  | [] => mret tt
  | folder :: rest =>
      let folder_path := base_path ++ [folder] in
      _ ← mkdir folder_path;
      _ ← logger INFO (EnsuredDirectory folder_path);
      ensure_directories base_path rest
  end.

Definition _setup_directories (base_path : path) (order : list string)
    : M unit :=
  ensure_directories base_path order.

(** ** [FileOrganizer._get_file_category] *)

(** Lines 77-79: the first category whose list holds the extension. *)
Fixpoint first_category (table : list (string * list string))
    (extension : string) : option string :=
  match table with
  | [] => None
  | (category, extensions) :: rest =>
      if bool_decide (extension ∈ extensions) then Some category
      else first_category rest extension
  end.

Definition category_of (extension : string) : string :=
  default "Other" (first_category FILE_TYPES extension).

Definition _get_file_category (file_path : path) : string :=
  let extension := lower (suffix file_path) in
  category_of extension.

(** ** [FileOrganizer.organize_files] *)

(** The value returned: category to the list of moved files. *)
Abbreviation result_dict := (list (string * list (list string))).

(** [d[key] = value] *)
Definition set_item (d : result_dict) (key : string) (value : list path)
    : result_dict :=
  if bool_decide (key ∈ d.*1)
  then (fun e : string * list path =>
          if decide (e.1 = key) then (e.1, value) else e) <$> d
  else d ++ [(key, value)].

(** [d[key].append(x)] *)
Definition append_item (d : result_dict) (key : string) (x : path) : M result_dict :=
  if bool_decide (key ∈ d.*1)
  then mret ((fun e : string * list path =>
                if decide (e.1 = key) then (e.1, e.2 ++ [x]) else e) <$> d)
  else raise KeyError.

(** [target_folder / f"{stem}_{counter}{suffix}"] *)
Definition numbered (target_folder : path) (stem suffix : string)
    (counter : nat) : path :=
  target_folder ++ [stem +:+ "_" +:+ pretty counter +:+ suffix].

(** Lines 118-120, the loop [while target_path.exists()].  Every turn
    uses one unit of [fuel]; [None] is fuel run out. *)
Fixpoint while_exists (t : gmap (list string) node) (target_folder : path)
    (stem suffix : string) (target_path : path) (counter fuel : nat)
    : option path :=
  if exists_ t target_path then
    match fuel with
    | O => None
    | S fuel' =>
        while_exists t target_folder stem suffix
          (numbered target_folder stem suffix counter) (S counter) fuel'
    end
  else Some target_path.

(** Lines 115-120.  The loop is run with more fuel than the tree has
    entries, which it cannot use up. *)
Definition resolve_conflict (t : gmap (list string) node)
    (target_folder file_path target_path : path) : path :=
  if exists_ t target_path && bool_decide (target_path <> file_path) then
    let counter := 1%nat in
    let stem := stem file_path in
    default target_path
      (while_exists t target_folder stem (suffix file_path) target_path
         counter (S (size t)))
  else target_path.

Section with_shutil.

(** [shutil.move(src, dst)], taken from outside; see [move_ok] for what
    is assumed of it. *)
Variable move : path -> path -> M unit.

(** Lines 106-130: one turn of the loop over the files. *)
Definition organize_file (base_path : path) (dry_run : bool)
    (results : result_dict) (file_path : path) : M result_dict :=
  if bool_decide (name (parent file_path) ∈ FILE_TYPES.*1) then
    mret results
  else
    let category := _get_file_category file_path in
    let target_folder := base_path ++ [category] in
    let target_path := target_folder ++ [name file_path] in
    t ← get_fs;
    let target_path :=
      resolve_conflict t target_folder file_path target_path in
    if dry_run then
      _ ← logger INFO
            (WouldMove (name file_path) category (name target_path));
      mret results
    else
      try_except
        (_ ← move file_path target_path;
         _ ← logger INFO (Moved (name file_path) category (name target_path));
         append_item results category target_path)
        (fun e =>
           _ ← logger ERROR (MoveError (name file_path) e);
           mret results).

Fixpoint organize_loop (base_path : path) (dry_run : bool)
    (results : result_dict) (files : list path) : M result_dict :=
  match files with
  | [] => mret results
  | file_path :: rest =>
      results ← organize_file base_path dry_run results file_path;
      organize_loop base_path dry_run results rest
  end.

Definition organize_files (base_path : path) (recursive dry_run : bool)
    : M result_dict :=
  let results := (fun category => (category, [])) <$> FILE_TYPES.*1 in
  let results := set_item results "Other" [] in
  t ← get_fs;
  let files := candidates t base_path recursive in
  organize_loop base_path dry_run results files.

(** ** [main.py]: the [organize] command without [--downloads]

    [organize_files(args)]: the organizer is built, which sets up the
    directories, then run; what is printed is left out. *)
Definition organize_command (order : list string) (directory : path)
    (recursive dry_run : bool) : M result_dict :=
  _ ← _setup_directories directory order;
  organize_files directory recursive dry_run.

End with_shutil.

(** What is assumed of [shutil.move] when the destination is free: it
    touches no path but the two, logs nothing, leaves the source alone
    when it fails, and when it returns the source is gone and the
    destination holds what the source held, with its time stamp. *)
Definition move_ok (move : path -> path -> M unit) : Prop :=
  forall src dst w n,
    fs w !! src = Some n -> fs w !! dst = None ->
    log (move src dst w).2 = log w /\
    clock (move src dst w).2 = clock w /\
    (forall q, q <> src -> q <> dst ->
               fs (move src dst w).2 !! q = fs w !! q) /\
    match (move src dst w).1 with
    | Ok _ =>
        fs (move src dst w).2 !! src = None /\
        exists n', fs (move src dst w).2 !! dst = Some n' /\
                   node_kind n' = node_kind n /\ st_mtime n' = st_mtime n
    | Raise _ => fs (move src dst w).2 !! src = Some n
    end.

(** A [move] on one file system: [os.rename], which needs the right to
    take the source out of its directory and a directory to put it in. *)
Definition rename (src dst : path) : M unit := fun w =>
  match fs w !! src with
  | None => (Raise (Errno FileNotFoundError), w)
  | Some n =>
      match unlink_error n with
      | Some e => (Raise (Errno e), w)
      | None =>
          if is_dir (fs w) (parent dst)
          then (Ok tt, World (<[dst := n]> (delete src (fs w))) (log w)
                         (clock w))
          else (Raise (Errno FileNotFoundError), w)
      end
  end.

(** ** What a run has done, for the statements below

    A run is described by its moves, source and destination, in the
    order they were made. *)
Definition moved_to (moves : list (path * path)) (category : string)
    : list path :=
  (filter (fun m : path * path => _get_file_category m.1 = category) moves).*2.

Definition add_moves (moves : list (path * path)) (results : result_dict)
    : result_dict :=
  (fun e : string * list path => (e.1, e.2 ++ moved_to moves e.1)) <$> results.

Definition no_results : result_dict :=
  (fun category => (category, [])) <$> FILE_TYPES.*1.

(** A file [organize_files] passes over: its directory is named like a
    category. *)
Definition skipped (file_path : path) : Prop :=
  name (parent file_path) ∈ FILE_TYPES.*1.

#[global] Instance skipped_dec file_path : Decision (skipped file_path).
Proof. unfold skipped. apply _. Defined.

(** ** Example worlds *)

(** A download folder: two PDF files, one of them with a name that is
    taken in [PDFs], a text file, an image in a subdirectory. *)
Definition downloads : gmap (list string) node :=
  list_to_map
    [(["dl"], Node Directory 0 None);
     (["dl"; "a.pdf"], plain "x" 1);
     (["dl"; "b.PDF"], plain "y" 2);
     (["dl"; "notes.txt"], plain "z" 3);
     (["dl"; "PDFs"], Node Directory 0 None);
     (["dl"; "PDFs"; "a.pdf"], plain "old" 0);
     (["dl"; "sub"], Node Directory 0 None);
     (["dl"; "sub"; "c.png"], plain "p" 5)].

Definition downloads_world : world := World downloads [] 100.

(** The same folder once the organizer is built. *)
Definition downloads_ready : world :=
  (_setup_directories ["dl"] FILE_TYPES.*1 downloads_world).2.

(** A directory that is called like a category. *)
Definition documents : gmap (list string) node :=
  list_to_map
    [(["home"], Node Directory 0 None);
     (["home"; "Documents"], Node Directory 0 None);
     (["home"; "Documents"; "cv.pdf"], plain "x" 1);
     (["home"; "Documents"; "photo.jpg"], plain "y" 2)].

Definition documents_world : world := World documents [] 100.

(** A directory with a regular file called [Code]. *)
Definition blocked : gmap (list string) node :=
  list_to_map
    [(["w"], Node Directory 0 None);
     (["w"; "Code"], plain "x" 1);
     (["w"; "a.pdf"], plain "y" 2)].

Definition blocked_world : world := World blocked [] 100.

End Organizer.

(** * Proofs *)

(** ** MD5 output format *)

Lemma le_bytes_length n x : length (MD5.le_bytes n x) = n.
Proof.
  revert x; induction n as [|n IH]; intros x; simpl; [done|]. by rewrite IH.
Qed.

Lemma hex_length bs : String.length (MD5.hex bs) = (2 * length bs)%nat.
Proof. induction bs as [|b bs IH]; simpl; [done|]. rewrite IH. lia. Qed.

Lemma hexdigest_of_length data :
  String.length (MD5.hexdigest_of data) = 32%nat.
Proof.
  unfold MD5.hexdigest_of, MD5.digest. rewrite hex_length.
  rewrite !length_app, !le_bytes_length. done.
Qed.

Lemma hexdigest_of_nonempty data : MD5.hexdigest_of data <> EmptyString.
Proof.
  intros H. pose proof (hexdigest_of_length data) as L.
  rewrite H in L. discriminate L.
Qed.

Example md5_empty :
  MD5.hexdigest_of [] = "d41d8cd98f00b204e9800998ecf8427e".
Proof. vm_compute. reflexivity. Qed.

Example md5_abc :
  MD5.hexdigest_of (bytes_of "abc") = "900150983cd24fb0d6963f7d28e17f72".
Proof. vm_compute. reflexivity. Qed.

Example md5_two_blocks :
  MD5.hexdigest_of (repeat "x"%byte 70) = "7d56c0f83fd1e320d60ea2f13dfdeedd".
Proof. vm_compute. reflexivity. Qed.

(** ** [_calculate_hash] *)

Ltac run := unfold mbind, M_bind, mret, M_ret, raise, lift, try_except,
  logger, get_fs; simpl.

Lemma hash_body_run cs p w :
  hash_body cs p w = (fingerprint cs (fs w) p, w).
Proof.
  unfold fingerprint, hash_body, open_rb. run.
  destruct (fs w !! p) as [[[d [e|] r| |] m u]|]; simpl; try done.
  destruct (read_loop cs r 0 d md5_new); done.
Qed.

Lemma calculate_hash_run cs p w :
  _calculate_hash cs p w =
    match fingerprint cs (fs w) p with
    | Ok s => (Ok s, w)
    | Raise e => (Ok EmptyString, World (fs w) (log w ++ [(ERROR, HashError p e)]))
    end.
Proof.
  unfold _calculate_hash, try_except. rewrite hash_body_run.
  destruct (fingerprint cs (fs w) p); done.
Qed.

Lemma calculate_hash_value cs p w :
  (_calculate_hash cs p w).1 = Ok (hash_value cs (fs w) p).
Proof.
  rewrite calculate_hash_run. unfold hash_value.
  destruct (fingerprint cs (fs w) p); done.
Qed.

Lemma calculate_hash_fs cs p w : fs (_calculate_hash cs p w).2 = fs w.
Proof.
  rewrite calculate_hash_run. destruct (fingerprint cs (fs w) p); done.
Qed.

Lemma read_split n rest chunk rest' :
  read n rest = (chunk, rest') -> rest = chunk ++ rest'.
Proof.
  unfold read. destruct (n <? 0); intros [= <- <-].
  - by rewrite app_nil_r.
  - by rewrite take_drop.
Qed.

Lemma read_nothing n rest rest' :
  n <> 0 -> read n rest = ([], rest') -> rest = [].
Proof.
  unfold read. destruct (n <? 0) eqn:E; intros Hn [= H1 H2]; [done|].
  destruct rest as [|x rest]; [done|].
  destruct (Z.to_nat n) eqn:En; [lia | done].
Qed.

(** The loop feeds the whole file, unless the chunk size is 0 (then the
    first read is empty and the loop stops at once). *)
Lemma read_loop_full cs err k rest h h' :
  cs <> 0 -> read_loop cs err k rest h = Ok h' -> h' = h ++ rest.
Proof.
  intros Hcs. funelim (read_loop cs err k rest h).
  all: try rewrite <- Heqcall.
  - done.
  - intros [= <-]. rewrite (read_nothing _ _ _ Hcs e). by rewrite app_nil_r.
  - intros Hr. apply H in Hr; [|done]. rewrite Hr. unfold md5_update.
    rewrite (read_split _ _ _ _ e), <- app_assoc. done.
Qed.

Lemma read_loop_no_fault cs k rest h :
  exists h', read_loop cs None k rest h = Ok h'.
Proof.
  funelim (read_loop cs None k rest h); try rewrite <- Heqcall; eauto.
  done.
Qed.

Lemma fingerprint_cases cs t p :
  fingerprint cs t p =
    match t !! p with
    | None => Raise FileNotFoundError
    | Some (Node (Regular data None err) _ _) =>
        match read_loop cs err 0 data md5_new with
        | Ok h => Ok (md5_hexdigest h)
        | Raise e => Raise e
        end
    | Some (Node (Regular _ (Some e) _) _ _) => Raise e
    | Some (Node Directory _ _) => Raise IsADirectoryError
    | Some (Node Special _ _) => Raise OSError
    end.
Proof.
  unfold fingerprint, hash_body, open_rb. run.
  destruct (t !! p) as [[[d [e|] r| |] m u]|]; simpl; try done.
  destruct (read_loop cs r 0 d md5_new); done.
Qed.

Lemma fingerprint_nonempty cs t p s : fingerprint cs t p = Ok s -> s <> EmptyString.
Proof.
  rewrite fingerprint_cases.
  destruct (t !! p) as [[[d [e|] r| |] m u]|]; try done.
  destruct (read_loop cs r 0 d md5_new); [|done].
  intros [= <-]. apply hexdigest_of_nonempty.
Qed.

Lemma fingerprint_whole_file cs t p s :
  cs <> 0 -> fingerprint cs t p = Ok s ->
  exists data err m u,
    t !! p = Some (Node (Regular data None err) m u) /\
    s = MD5.hexdigest_of data.
Proof.
  intros Hcs. rewrite fingerprint_cases.
  destruct (t !! p) as [[[d [e|] r| |] m u]|]; try done.
  destruct (read_loop cs r 0 d md5_new) as [h|] eqn:E; [|done].
  intros [= <-]. apply read_loop_full in E; [|done]. subst h.
  exists d, r, m, u. done.
Qed.

Lemma hash_value_ok cs t p h :
  h <> EmptyString -> hash_value cs t p = h <-> fingerprint cs t p = Ok h.
Proof.
  intros Hh. unfold hash_value. split.
  - destruct (fingerprint cs t p); [by intros ->|]. by intros <-.
  - by intros ->.
Qed.

(** ** The scanning loop *)

Lemma scan_run cs files d w :
  exists lg,
    scan cs files d w =
      (Ok (group (hash_value cs (fs w)) files d), World (fs w) lg).
Proof.
  revert d w. induction files as [|p files IH]; intros d w.
  { exists (log w). by destruct w. }
  cbn [scan]. unfold mbind, M_bind.
  pose proof (calculate_hash_run cs p w) as R.
  change (group ?hv (p :: files) d) with (group hv files (add_file hv d p)).
  unfold add_file.
  destruct (fingerprint cs (fs w) p) as [s|e] eqn:E; rewrite R.
  - assert (hash_value cs (fs w) p = s) as -> by (unfold hash_value; by rewrite E).
    destruct (decide (s = EmptyString)); apply IH.
  - assert (hash_value cs (fs w) p = EmptyString) as -> by (unfold hash_value; by rewrite E).
    destruct (decide (EmptyString = EmptyString)); [|done].
    apply (IH d (World (fs w) (log w ++ [(ERROR, HashError p e)]))).
Qed.

Section grouping.
Context (hv : path -> string).

Lemma members_snoc seen p h :
  members hv (seen ++ [p]) h =
    members hv seen h ++ (if decide (hv p = h) then [p] else []).
Proof.
  unfold members. rewrite filter_app. f_equal.
Qed.

Lemma dict_append_keys h p (d : dict) : (dict_append h p d).*1 = d.*1.
Proof.
  unfold dict_append. rewrite <- list_fmap_compose.
  apply list_fmap_ext. intros i [k l] _. simpl. by destruct (decide (k = h)).
Qed.

Lemma elem_of_dict_append h0 p (d : dict) h l :
  (h, l) ∈ dict_append h0 p d <->
  (h <> h0 /\ (h, l) ∈ d) \/
  (h = h0 /\ exists l0, (h0, l0) ∈ d /\ l = l0 ++ [p]).
Proof.
  unfold dict_append. rewrite list_elem_of_fmap. split.
  - intros [[k l0] [Heq Hin]]. simpl in Heq.
    destruct (decide (k = h0)) as [->|Hne]; inversion Heq; subst; eauto.
  - intros [[Hne Hin]|[-> [l0 [Hin ->]]]].
    + exists (h, l). simpl. by destruct (decide (h = h0)).
    + exists (h0, l0). simpl. by destruct (decide (h0 = h0)).
Qed.

Lemma grouped_nil : grouped hv [] [].
Proof.
  split; [constructor|]. intros h l. split.
  - by intros ?%elem_of_nil.
  - by intros (_ & -> & ?).
Qed.

Lemma grouped_step seen d p :
  grouped hv seen d -> grouped hv (seen ++ [p]) (add_file hv d p).
Proof.
  intros [Hnd Hd]. unfold add_file.
  destruct (decide (hv p = EmptyString)) as [He|Hne].
  - split; [done|]. intros h l. rewrite Hd, members_snoc.
    destruct (decide (hv p = h)); [|by rewrite app_nil_r].
    split; intros (? & _); congruence.
  - split.
    + rewrite dict_append_keys. unfold dict_has, dict_new.
      case_bool_decide as Hk; [done|].
      rewrite fmap_app. apply NoDup_app. split_and!; [done| |].
      * intros x Hx ->%list_elem_of_singleton. done.
      * apply NoDup_singleton.
    + intros h l. rewrite elem_of_dict_append, members_snoc.
      unfold dict_has, dict_new. case_bool_decide as Hk.
      * apply list_elem_of_fmap in Hk as [[k l0] [Hk Hin]]. simpl in Hk. subst k.
        pose proof (proj1 (Hd _ _) Hin) as (_ & Hl0 & _).
        split.
        -- intros [[Hh Hhl]|[-> [l1 [Hin1 ->]]]].
           ++ apply Hd in Hhl as (? & -> & ?).
              destruct (decide (hv p = h)); [congruence|].
              by rewrite app_nil_r.
           ++ apply Hd in Hin1 as (? & -> & ?).
              destruct (decide (hv p = hv p)); [|done].
              split_and!; [done..|]. by intros [_ ?]%app_nil.
        -- intros (Hh & -> & Hnil).
           destruct (decide (hv p = h)) as [<-|Hph].
           ++ right. split; [done|]. exists l0. split; [done|]. by rewrite Hl0.
           ++ left. rewrite app_nil_r in *. split; [congruence|].
              apply Hd. done.
      * assert (Hempty : members hv seen (hv p) = []).
        { destruct (members hv seen (hv p)) as [|q l0] eqn:E; [done|].
          exfalso. apply Hk. apply list_elem_of_fmap.
          exists (hv p, q :: l0). split; [done|]. apply Hd. by rewrite E. }
        split.
        -- intros [[Hh Hhl]|[-> [l1 [Hin1 ->]]]].
           ++ apply elem_of_app in Hhl as [Hhl|Hhl%list_elem_of_singleton];
                [|congruence].
              apply Hd in Hhl as (? & -> & ?).
              destruct (decide (hv p = h)); [congruence|].
              by rewrite app_nil_r.
           ++ apply elem_of_app in Hin1 as [Hin1|Hin1%list_elem_of_singleton].
              ** exfalso. apply Hk. apply list_elem_of_fmap. by exists (hv p, l1).
              ** inversion Hin1; subst l1. rewrite Hempty.
                 destruct (decide (hv p = hv p)); done.
        -- intros (Hh & -> & Hnil).
           destruct (decide (hv p = h)) as [<-|Hph].
           ++ right. split; [done|]. exists []. rewrite Hempty.
              split; [|done]. apply elem_of_app. right. by apply list_elem_of_singleton.
           ++ left. rewrite app_nil_r in *. split; [congruence|].
              apply elem_of_app. left. apply Hd. done.
Qed.

Lemma group_grouped files seen d :
  grouped hv seen d -> grouped hv (seen ++ files) (group hv files d).
Proof.
  revert seen d. induction files as [|p files IH]; intros seen d H.
  - by rewrite app_nil_r.
  - rewrite (assoc_L _ seen [p] files : seen ++ p :: files = (seen ++ [p]) ++ files).
    apply IH, grouped_step, H.
Qed.

End grouping.

(** ** [find_duplicates] *)

Lemma find_duplicates_run cs dir rec w :
  exists lg,
    find_duplicates cs dir rec w =
      (Ok (duplicates_of cs (fs w) dir rec), World (fs w) lg).
Proof.
  unfold find_duplicates, duplicates_of. run.
  set (files := candidates (fs w) dir rec).
  set (w1 := World (fs w) (log w ++ [(INFO, Scanning (length files))])).
  destruct (scan_run cs files [] w1) as [lg ->]. simpl. eauto.
Qed.

Lemma duplicates_of_spec cs t dir rec h l :
  (h, l) ∈ duplicates_of cs t dir rec <->
  h <> EmptyString /\
  l = members (hash_value cs t) (candidates t dir rec) h /\
  (1 < length l)%nat.
Proof.
  unfold duplicates_of. rewrite list_elem_of_filter. simpl.
  pose proof (group_grouped (hash_value cs t) (candidates t dir rec) [] []
    (grouped_nil _)) as [_ H].
  rewrite app_nil_l in H. rewrite H. split.
  - intros (? & ? & ? & ?). done.
  - intros (? & -> & ?). split_and!; try done. intros E. rewrite E in *. simpl in *. lia.
Qed.

Lemma NoDup_keys_filter (P : string * list path -> Prop)
    `{forall e, Decision (P e)} (d : dict) :
  NoDup d.*1 -> NoDup (filter P d).*1.
Proof.
  intros Hd. apply (sublist_NoDup _ d.*1);
    first [exact Hd | apply fmap_sublist, sublist_filter].
Qed.

Lemma duplicates_of_keys cs t dir rec : NoDup (duplicates_of cs t dir rec).*1.
Proof.
  unfold duplicates_of. apply NoDup_keys_filter.
  pose proof (group_grouped (hash_value cs t) (candidates t dir rec) [] []
    (grouped_nil _)) as [H _]. done.
Qed.

Lemma candidates_NoDup t dir rec : NoDup (candidates t dir rec).
Proof.
  unfold candidates, rglob, glob, entries.
  apply NoDup_filter.
  destruct rec; destruct (is_dir t dir); try apply NoDup_nil_2;
    apply NoDup_filter, NoDup_fst_map_to_list.
Qed.

Lemma candidates_is_file t dir rec p :
  p ∈ candidates t dir rec -> is_file t p = true.
Proof. unfold candidates. by intros [? _]%list_elem_of_filter. Qed.


Lemma is_file_Some t p : is_file t p = true -> is_Some (t !! p).
Proof. unfold is_file. destruct (t !! p); [eauto|done]. Qed.

Lemma members_NoDup hv files h : NoDup files -> NoDup (members hv files h).
Proof. apply NoDup_filter. Qed.

Lemma NoDup_join_members hv files (d : dict) :
  NoDup files -> NoDup d.*1 ->
  (forall h l, (h, l) ∈ d -> l = members hv files h) ->
  NoDup (mjoin d.*2).
Proof.
  intros Hf. induction d as [|[h l] d IH]; intros Hk Hd; simpl.
  { constructor. }
  inversion Hk as [|? ? Hh Hk']; subst. apply NoDup_app. split_and!.
  - rewrite (Hd h l); [by apply members_NoDup | by left].
  - intros x Hx Hx'. apply list_elem_of_join in Hx' as [l' [Hx' Hl']].
    apply list_elem_of_fmap in Hl' as [[h' l''] [-> Hin]]. simpl in Hx'.
    rewrite (Hd h l) in Hx; [|by left].
    rewrite (Hd h' l'') in Hx'; [|by right].
    apply list_elem_of_filter in Hx as [Hx _].
    apply list_elem_of_filter in Hx' as [Hx' _].
    apply Hh. apply list_elem_of_fmap. exists (h', l''). split; [|done].
    simpl. congruence.
  - apply IH; [done|]. intros h' l' Hin. apply Hd. by right.
Qed.

Lemma duplicates_well_formed cs t dir rec :
  well_formed t (duplicates_of cs t dir rec).
Proof.
  split.
  - apply (NoDup_join_members (hash_value cs t) (candidates t dir rec)).
    + apply candidates_NoDup.
    + apply duplicates_of_keys.
    + intros h l Hin. by apply duplicates_of_spec in Hin as (_ & -> & _).
  - apply Forall_forall. intros p Hp.
    apply list_elem_of_join in Hp as [l [Hp Hl]].
    apply list_elem_of_fmap in Hl as [[h l'] [-> Hin]]. simpl in Hp.
    apply duplicates_of_spec in Hin as (_ & -> & _).
    apply list_elem_of_filter in Hp as [_ Hp].
    by eapply is_file_Some, candidates_is_file.
Qed.

(** ** [min], [max] and the choice of the survivor *)

Section extremum_facts.
Context {A : Type} (better : Z -> Z -> bool) (s : Z).
Context (key : A -> M Z) (f : A -> Z).
Hypothesis Hbetter : forall a b, better a b = true <-> s * a < s * b.

Lemma first_best_keep seen best x :
  first_best s f seen best -> better (f x) (f best) = false ->
  first_best s f (seen ++ [x]) best.
Proof.
  intros (l1 & l2 & -> & H1 & H2) Hx.
  exists l1, (l2 ++ [x]). split_and!; [by rewrite <- app_assoc | done |].
  intros y [Hy| ->%list_elem_of_singleton]%elem_of_app; [by apply H2|].
  destruct (Z_lt_dec (s * f x) (s * f best)) as [Hlt|]; [|lia].
  apply Hbetter in Hlt. congruence.
Qed.

Lemma first_best_replace seen best x :
  first_best s f seen best -> better (f x) (f best) = true ->
  first_best s f (seen ++ [x]) x.
Proof.
  intros (l1 & l2 & -> & H1 & H2) Hx%Hbetter.
  exists (l1 ++ best :: l2), []. split_and!; [done| |by intros ? ?%elem_of_nil].
  intros y [Hy|[->|Hy]%elem_of_cons]%elem_of_app.
  - specialize (H1 y Hy). lia.
  - done.
  - specialize (H2 y Hy). lia.
Qed.

(** Where every key evaluates, the loop returns the first best
    element, and returns the same one in any world with the same keys. *)
Lemma extremum_agree w w' l seen best :
  (forall x, x ∈ l -> key x w = (Ok (f x), w)) ->
  (forall x, x ∈ l -> key x w' = (Ok (f x), w')) ->
  first_best s f seen best ->
  exists k,
    extremum better key best (f best) l w = (Ok k, w) /\
    extremum better key best (f best) l w' = (Ok k, w') /\
    first_best s f (seen ++ l) k.
Proof.
  revert seen best. induction l as [|x l IH]; intros seen best Hw Hw' Hb.
  { exists best. by rewrite app_nil_r. }
  cbn [extremum]. unfold mbind, M_bind.
  rewrite (Hw x), (Hw' x) by by left.
  rewrite (assoc_L _ seen [x] l : seen ++ x :: l = (seen ++ [x]) ++ l).
  destruct (better (f x) (f best)) eqn:E.
  - apply (IH (seen ++ [x]) x);
      [intros; apply Hw; by right | intros; apply Hw'; by right |].
    by apply (first_best_replace seen best).
  - apply (IH (seen ++ [x]) best);
      [intros; apply Hw; by right | intros; apply Hw'; by right |].
    by apply first_best_keep.
Qed.

Lemma first_best_one x : first_best s f [x] x.
Proof.
  exists [], []. split_and!; [done|by intros ? ?%elem_of_nil..].
Qed.

End extremum_facts.

Lemma first_best_elem {A} s (f : A -> Z) l k : first_best s f l k -> k ∈ l.
Proof.
  intros (l1 & l2 & -> & _). apply elem_of_app. right. by left.
Qed.

Lemma py_min_agree {A} (key : A -> M Z) (f : A -> Z) w w' l :
  l <> [] ->
  (forall x, x ∈ l -> key x w = (Ok (f x), w)) ->
  (forall x, x ∈ l -> key x w' = (Ok (f x), w')) ->
  exists k,
    py_min l key w = (Ok k, w) /\ py_min l key w' = (Ok k, w') /\
    first_best 1 f l k.
Proof.
  intros Hl Hw Hw'. destruct l as [|x l]; [done|].
  unfold py_min, mbind, M_bind. rewrite (Hw x), (Hw' x) by by left.
  apply (extremum_agree Z.ltb 1 key f) with (seen := [x]).
  - intros a b. rewrite Z.ltb_lt. lia.
  - intros; apply Hw; by right.
  - intros; apply Hw'; by right.
  - apply first_best_one.
Qed.

Lemma py_max_agree {A} (key : A -> M Z) (f : A -> Z) w w' l :
  l <> [] ->
  (forall x, x ∈ l -> key x w = (Ok (f x), w)) ->
  (forall x, x ∈ l -> key x w' = (Ok (f x), w')) ->
  exists k,
    py_max l key w = (Ok k, w) /\ py_max l key w' = (Ok k, w') /\
    first_best (-1) f l k.
Proof.
  intros Hl Hw Hw'. destruct l as [|x l]; [done|].
  unfold py_max, mbind, M_bind. rewrite (Hw x), (Hw' x) by by left.
  apply (extremum_agree Z.gtb (-1) key f) with (seen := [x]).
  - intros a b. rewrite Z.gtb_gt. lia.
  - intros; apply Hw; by right.
  - intros; apply Hw'; by right.
  - apply first_best_one.
Qed.

Lemma stat_mtime_run p w :
  is_Some (fs w !! p) -> stat_mtime p w = (Ok (mtime_of (fs w) p), w).
Proof.
  intros [n Hn]. unfold stat_mtime, mtime_of. by rewrite Hn.
Qed.

Lemma extremum_stat_exists better best bv l w k :
  (extremum better stat_mtime best bv l w).1 = Ok k ->
  forall x, x ∈ l -> is_Some (fs w !! x).
Proof.
  revert best bv. induction l as [|y l IH]; intros best bv H x Hx.
  { by apply elem_of_nil in Hx. }
  cbn [extremum] in H. unfold mbind, M_bind, stat_mtime in H.
  destruct (fs w !! y) as [n|] eqn:E; [|done].
  apply elem_of_cons in Hx as [->|Hx]; [by rewrite E|].
  destruct (better (st_mtime n) bv); eapply IH; eauto.
Qed.

Lemma extremum_world {A} better (key : A -> M Z) best bv l w :
  (forall x w, (key x w).2 = w) ->
  (extremum better key best bv l w).2 = w.
Proof.
  intros Hkey. revert best bv. induction l as [|x l IH]; intros best bv; [done|].
  cbn [extremum]. unfold mbind, M_bind.
  pose proof (Hkey x w) as Hx. destruct (key x w) as [[v|e] w1]; simpl in Hx; subst w1.
  - destruct (better v bv); apply IH.
  - done.
Qed.

Lemma stat_mtime_world p w : (stat_mtime p w).2 = w.
Proof. unfold stat_mtime. by destruct (fs w !! p). Qed.

Lemma choose_keep_world s paths w :
  fs (choose_keep s paths w).2 = fs w.
Proof.
  unfold choose_keep. repeat case_decide.
  - destruct paths as [|x l]; [done|]. unfold py_min, mbind, M_bind.
    pose proof (stat_mtime_world x w) as Hx.
    destruct (stat_mtime x w) as [[v|e] w1]; simpl in Hx; subst w1; [|done].
    by rewrite extremum_world by apply stat_mtime_world.
  - destruct paths as [|x l]; [done|]. unfold py_max, mbind, M_bind.
    pose proof (stat_mtime_world x w) as Hx.
    destruct (stat_mtime x w) as [[v|e] w1]; simpl in Hx; subst w1; [|done].
    by rewrite extremum_world by apply stat_mtime_world.
  - destruct paths as [|x l]; [done|]. unfold py_min. run.
    by rewrite extremum_world.
  - by destruct paths.
  - by destruct paths.
Qed.

Lemma choose_keep_agree s paths w w' :
  paths <> [] ->
  (uses_mtime s -> forall p, p ∈ paths ->
     is_Some (fs w !! p) /\ fs w' !! p = fs w !! p) ->
  exists k,
    (choose_keep s paths w).1 = Ok k /\
    (choose_keep s paths w').1 = Ok k /\
    policy_ok (fs w) s paths k /\ k ∈ paths.
Proof.
  intros Hne Hex. unfold choose_keep, policy_ok, uses_mtime in *.
  repeat case_decide.
  - destruct (py_min_agree stat_mtime (mtime_of (fs w)) w w' paths)
      as (k & -> & -> & Hk); [done| | |].
    + intros x Hx. apply stat_mtime_run, Hex; auto.
    + intros x Hx. destruct (Hex (or_introl H) x Hx) as [Hs He].
      rewrite stat_mtime_run by (by rewrite He).
      unfold mtime_of. by rewrite He.
    + exists k. split_and!; try done. by eapply first_best_elem.
  - destruct (py_max_agree stat_mtime (mtime_of (fs w)) w w' paths)
      as (k & -> & -> & Hk); [done| | |].
    + intros x Hx. apply stat_mtime_run, Hex; auto.
    + intros x Hx. destruct (Hex (or_intror H0) x Hx) as [Hs He].
      rewrite stat_mtime_run by (by rewrite He).
      unfold mtime_of. by rewrite He.
    + exists k. split_and!; try done. by eapply first_best_elem.
  - destruct (py_min_agree (fun p => mret (path_length p)) path_length
                w w' paths) as (k & Hk1 & Hk2 & Hk); [done..|].
    exists k. unfold path_length in *. rewrite Hk1, Hk2.
    split_and!; try done. by eapply first_best_elem.
  - destruct paths as [|x l]; [done|]. exists x. split_and!; try done. by left.
  - destruct paths as [|x l]; [done|]. exists x. split_and!; try done. by left.
Qed.

Lemma choose_keep_ok_nonempty s w k : (choose_keep s [] w).1 <> Ok k.
Proof. unfold choose_keep. by repeat case_decide. Qed.

Lemma choose_keep_ok_exists s paths w k :
  uses_mtime s -> (choose_keep s paths w).1 = Ok k ->
  forall p, p ∈ paths -> is_Some (fs w !! p).
Proof.
  intros Hs H. unfold choose_keep, uses_mtime in *.
  assert (forall better,
    (match paths with
     | [] => raise ValueError
     | x :: l' => v ← stat_mtime x; extremum better stat_mtime x v l'
     end w).1 = Ok k -> forall p, p ∈ paths -> is_Some (fs w !! p)) as Hgen.
  { intros better Hb p Hp. destruct paths as [|x l]; [done|].
    unfold mbind, M_bind, stat_mtime in Hb.
    destruct (fs w !! x) as [n|] eqn:E; [|done].
    apply elem_of_cons in Hp as [->|Hp]; [by rewrite E|].
    eapply extremum_stat_exists; eauto. }
  repeat case_decide; try (destruct Hs; congruence).
  - by apply (Hgen Z.ltb).
  - by apply (Hgen Z.gtb).
Qed.

(** A survivor chosen on a part of the tree is the survivor chosen on
    the whole tree. *)
Lemma choose_keep_mono s paths w t' k :
  fs w ⊆ t' -> (choose_keep s paths w).1 = Ok k ->
  keep_of t' s paths = Ok k /\ policy_ok t' s paths k /\ k ∈ paths.
Proof.
  intros Hsub Hk. unfold keep_of.
  assert (paths <> []) as Hne.
  { intros ->. by apply choose_keep_ok_nonempty in Hk. }
  destruct (choose_keep_agree s paths (World t' []) w Hne)
    as (k' & Hk1 & Hk2 & Hp & Hin).
  - intros Hs p Hp. simpl.
    destruct (choose_keep_ok_exists s paths w k Hs Hk p Hp) as [n Hn].
    rewrite Hn, (lookup_weaken _ _ _ _ Hn Hsub). eauto.
  - rewrite Hk in Hk2. inversion Hk2; subst k'. done.
Qed.

(** ** The deletion loops *)

Lemma unlink_ok p w :
  can_unlink (fs w) p = true ->
  unlink p w = (Ok tt, World (delete p (fs w)) (log w)).
Proof.
  unfold can_unlink, unlink.
  destruct (fs w !! p) as [[[] m []]|]; done.
Qed.

Lemma unlink_fails p w :
  can_unlink (fs w) p = false -> exists e, unlink p w = (Raise e, w).
Proof.
  unfold can_unlink, unlink.
  destruct (fs w !! p) as [[[] m []]|]; try done; eauto.
Qed.

(** In any world the loop over one set returns; it adds only members
    other than the kept file, and only removes entries. *)
Lemma delete_others_any dry keep paths acc w :
  exists new w',
    delete_others dry keep paths acc w = (Ok (acc ++ new), w') /\
    (forall p, p ∈ new -> p ∈ paths /\ p <> keep) /\
    fs w' ⊆ fs w /\
    (dry = true -> new = [] /\ fs w' = fs w).
Proof.
  revert acc w. induction paths as [|p paths IH]; intros acc w.
  { exists [], w. rewrite app_nil_r. split_and!; try done.
    by intros ? ?%elem_of_nil. }
  cbn [delete_others]. destruct (decide (p = keep)) as [->|Hne].
  - run. destruct (IH acc (World (fs w) (log w ++ [(DEBUG, Keeping keep)])))
      as (new & w' & -> & Hnew & Hsub & Hdry).
    exists new, w'. split_and!; try done.
    intros q Hq. destruct (Hnew q Hq). split; [by right|done].
  - destruct dry.
    + run. destruct (IH acc (World (fs w) (log w ++ [(INFO, WouldDelete p)])))
        as (new & w' & -> & Hnew & Hsub & Hdry).
      exists new, w'. split_and!; try done.
      intros q Hq. destruct (Hnew q Hq). split; [by right|done].
    + unfold mbind at 1, M_bind at 1, try_except.
      unfold mbind at 1, M_bind at 1.
      destruct (can_unlink (fs w) p) eqn:Hc.
      * rewrite unlink_ok by done. run.
        destruct (IH (acc ++ [p])
                    (World (delete p (fs w)) (log w ++ [(INFO, Deleted p)])))
          as (new & w' & -> & Hnew & Hsub & Hdry).
        exists (p :: new), w'. rewrite <- app_assoc. split_and!; try done.
        -- intros q [->|Hq]%elem_of_cons; [split; [by left|done]|].
           destruct (Hnew q Hq). split; [by right|done].
        -- etrans; [exact Hsub|]. apply delete_subseteq.
      * destruct (unlink_fails p w Hc) as [e ->]. run.
        destruct (IH acc (World (fs w) (log w ++ [(ERROR, DeleteError p e)])))
          as (new & w' & -> & Hnew & Hsub & Hdry).
        exists new, w'. split_and!; try done.
        intros q Hq. destruct (Hnew q Hq). split; [by right|done].
Qed.

(** A set without repetition, untouched so far: a live run removes
    exactly the members other than the kept file whose [unlink]
    succeeds, and touches nothing else. *)
Lemma delete_others_live t0 keep paths acc w :
  NoDup paths ->
  (forall p, p ∈ paths -> fs w !! p = t0 !! p) ->
  let gone := filter (fun p => p <> keep /\ can_unlink t0 p = true) paths in
  exists w',
    delete_others false keep paths acc w = (Ok (acc ++ gone), w') /\
    forall q, fs w' !! q = if decide (q ∈ gone) then None else fs w !! q.
Proof.
  revert acc w. induction paths as [|p paths IH]; intros acc w Hnd Hag; simpl.
  { exists w. rewrite app_nil_r. split; [done|]. intros q.
    by destruct (decide (q ∈ [])) as [?%elem_of_nil|]. }
  inversion Hnd as [|? ? Hp Hnd']; subst.
  rewrite filter_cons. destruct (decide (p = keep)) as [->|Hne].
  - run. destruct (decide (keep <> keep /\ can_unlink t0 keep = true)) as [[? _]|_];
      [done|].
    destruct (IH acc (World (fs w) (log w ++ [(DEBUG, Keeping keep)])) Hnd')
      as (w' & -> & Hfs); [intros; apply Hag; by right|]. eauto.
  - unfold mbind at 1, M_bind at 1, try_except.
    unfold mbind at 1, M_bind at 1.
    assert (can_unlink (fs w) p = can_unlink t0 p) as Hcan.
    { unfold can_unlink. rewrite Hag; [done|by left]. }
    destruct (can_unlink t0 p) eqn:Hc.
    + rewrite unlink_ok by done. run.
      destruct (decide (p <> keep /\ true = true)) as [_|[]]; [|done].
      destruct (IH (acc ++ [p])
                  (World (delete p (fs w)) (log w ++ [(INFO, Deleted p)])) Hnd')
        as (w' & -> & Hfs).
      { intros q Hq. simpl. rewrite lookup_delete_ne; [apply Hag; by right|].
        intros ->. done. }
      exists w'. rewrite <- app_assoc. split; [done|]. intros q.
      rewrite Hfs. simpl.
      destruct (decide (q = p)) as [->|Hqp].
      * rewrite lookup_delete_eq.
        destruct (decide (p ∈ p :: _)) as [|Hn]; [by case_decide|].
        exfalso. apply Hn. by left.
      * rewrite lookup_delete_ne by done.
        repeat case_decide; try done.
        -- exfalso. apply H0. by right.
        -- apply elem_of_cons in H0 as [|]; done.
    + destruct (unlink_fails p w) as [e ->]; [congruence|]. run.
      destruct (decide (p <> keep /\ false = true)) as [[_ ?]|_]; [done|].
      destruct (IH acc (World (fs w) (log w ++ [(ERROR, DeleteError p e)])) Hnd')
        as (w' & -> & Hfs); [intros; apply Hag; by right|]. eauto.
Qed.

Lemma length_gt_1_nonempty {A} (l : list A) : (1 < length l)%nat -> l <> [].
Proof. by destruct l; simpl; [lia|]. Qed.

(** Whatever the sets are, a run that returns has deleted only members
    that are not the survivor of their set, and every set had one. *)
Lemma resolve_any s dry items acc w t0 dl w' :
  fs w ⊆ t0 -> resolve s dry items acc w = (Ok dl, w') ->
  fs w' ⊆ fs w /\
  exists new, dl = acc ++ new /\
    (forall p, p ∈ new -> exists h paths k,
        (h, paths) ∈ items /\ (1 < length paths)%nat /\
        keep_of t0 s paths = Ok k /\ p ∈ paths /\ p <> k) /\
    (forall h paths, (h, paths) ∈ items -> (1 < length paths)%nat ->
        exists k, keep_of t0 s paths = Ok k /\
                  policy_ok t0 s paths k /\ k ∈ paths) /\
    (dry = true -> new = [] /\ fs w' = fs w).
Proof.
  revert acc w. induction items as [|[h paths] items IH]; intros acc w Hsub H.
  { inversion H; subst. split; [done|]. exists []. rewrite app_nil_r.
    split_and!; try done; intros;
      match goal with Hin : _ ∈ [] |- _ => by apply elem_of_nil in Hin end. }
  cbn [resolve] in H. destruct (length paths <=? 1)%nat eqn:E.
  - apply Nat.leb_le in E.
    destruct (IH _ _ Hsub H) as (Hs & new & -> & Hnew & Hkeep & Hdry).
    split; [done|]. exists new. split_and!; try done.
    + intros p Hp. destruct (Hnew p Hp) as (h' & l' & k & ? & ?).
      exists h', l', k. split; [by right|done].
    + intros h' l' [[= -> ->]|Hin]%elem_of_cons Hlen; [lia|]. eauto.
  - apply Nat.leb_gt in E. unfold mbind at 1, M_bind at 1 in H.
    pose proof (choose_keep_world s paths w) as Hw1.
    destruct (choose_keep s paths w) as [[k|e] w1] eqn:Ek; [|done].
    simpl in Hw1.
    destruct (choose_keep_mono s paths w t0 k Hsub) as (Hk & Hpol & Hkin);
      [by rewrite Ek|].
    unfold mbind at 1, M_bind at 1 in H.
    destruct (delete_others_any dry k paths acc w1)
      as (new1 & w2 & Hrun & Hnew1 & Hsub1 & Hdry1).
    rewrite Hrun in H. rewrite Hw1 in Hsub1.
    destruct (IH _ _ (transitivity Hsub1 Hsub) H)
      as (Hs & new & -> & Hnew & Hkeep & Hdry).
    split; [by etrans|]. exists (new1 ++ new). rewrite app_assoc.
    split_and!; try done.
    + intros p [Hp|Hp]%elem_of_app.
      * destruct (Hnew1 p Hp). exists h, paths, k. split_and!; try done. by left.
      * destruct (Hnew p Hp) as (h' & l' & k' & ? & ?).
        exists h', l', k'. split; [by right|done].
    + intros h' l' [[= -> ->]|Hin]%elem_of_cons Hlen; eauto.
    + intros ->. destruct Hdry1 as [-> Hw2]; [done|].
      destruct Hdry as [-> Hw3]; [done|]. split; [done|congruence].
Qed.

(** A dry run leaves the tree alone, also when it raises. *)
Lemma resolve_dry_world s items acc w :
  fs (resolve s true items acc w).2 = fs w.
Proof.
  revert acc w. induction items as [|[h paths] items IH]; intros acc w; [done|].
  cbn [resolve]. destruct (length paths <=? 1)%nat; [apply IH|].
  unfold mbind at 1, M_bind at 1.
  pose proof (choose_keep_world s paths w) as Hw1.
  destruct (choose_keep s paths w) as [[k|e] w1]; simpl in Hw1; [|done].
  unfold mbind at 1, M_bind at 1.
  destruct (delete_others_any true k paths acc w1)
    as (new1 & w2 & -> & _ & _ & Hdry1).
  destruct Hdry1 as [-> Hw2]; [done|]. rewrite IH. congruence.
Qed.

Lemma resolve_dry_total s items acc w :
  (uses_mtime s -> forall e p, e ∈ items -> p ∈ e.2 -> is_Some (fs w !! p)) ->
  exists w', resolve s true items acc w = (Ok acc, w') /\ fs w' = fs w.
Proof.
  revert acc w. induction items as [|[h paths] items IH]; intros acc w Hex.
  { by exists w. }
  cbn [resolve]. destruct (length paths <=? 1)%nat eqn:E.
  { apply IH. intros Hs e p He. apply (Hex Hs). by right. }
  apply Nat.leb_gt in E. unfold mbind at 1, M_bind at 1.
  pose proof (choose_keep_world s paths w) as Hw1.
  destruct (choose_keep_agree s paths w w (length_gt_1_nonempty _ E))
    as (k & Hk & _).
  { intros Hs p Hp. split; [|done]. apply (Hex Hs (h, paths)); [by left|done]. }
  destruct (choose_keep s paths w) as [o w1]. simpl in *. subst o.
  unfold mbind at 1, M_bind at 1.
  destruct (delete_others_any true k paths acc w1)
    as (new1 & w2 & -> & _ & _ & Hdry1).
  destruct Hdry1 as [-> Hw2]; [done|]. rewrite app_nil_r.
  destruct (IH acc w2) as (w' & -> & Hw').
  { intros Hs e p He. rewrite Hw2, Hw1. apply (Hex Hs). by right. }
  exists w'. split; [done|]. congruence.
Qed.

Lemma removed_by_cons t s h paths (items : dict) :
  removed_by t s ((h, paths) :: items) =
    removed_of t s paths ++ removed_by t s items.
Proof. done. Qed.

Lemma removed_of_subset t s paths p : p ∈ removed_of t s paths -> p ∈ paths.
Proof.
  unfold removed_of. destruct (length paths <=? 1)%nat.
  { by intros ?%elem_of_nil. }
  destruct (keep_of t s paths); [|by intros ?%elem_of_nil].
  by intros [_ ?]%list_elem_of_filter.
Qed.

Lemma removed_by_subset t s (items : dict) p :
  p ∈ removed_by t s items -> p ∈ mjoin items.*2.
Proof.
  induction items as [|[h paths] items IH]; [done|].
  rewrite removed_by_cons. simpl.
  intros [Hp|Hp]%elem_of_app; apply elem_of_app.
  - left. by eapply removed_of_subset.
  - right. by apply IH.
Qed.

(** Sets as [find_duplicates] produces them: a live run returns, and
    removes from every set exactly the members other than the survivor
    whose [unlink] succeeds. *)
Lemma resolve_live s items acc w t0 :
  NoDup (mjoin items.*2) ->
  (forall e p, e ∈ items -> p ∈ e.2 -> fs w !! p = t0 !! p) ->
  (uses_mtime s -> forall e p, e ∈ items -> p ∈ e.2 -> is_Some (t0 !! p)) ->
  exists w',
    resolve s false items acc w = (Ok (acc ++ removed_by t0 s items), w') /\
    forall q, fs w' !! q =
      if decide (q ∈ removed_by t0 s items) then None else fs w !! q.
Proof.
  revert acc w.
  induction items as [|[h paths] items IH]; intros acc w Hnd Hag Hex.
  { exists w. rewrite app_nil_r. split; [done|]. intros q.
    by destruct (decide (q ∈ removed_by t0 s [])) as [?%elem_of_nil|]. }
  simpl in Hnd. apply NoDup_app in Hnd as (Hnd1 & Hdisj & Hnd2).
  rewrite removed_by_cons. cbn [resolve].
  destruct (length paths <=? 1)%nat eqn:E.
  { assert (removed_of t0 s paths = []) as ->
      by (unfold removed_of; by rewrite E).
    apply IH; [done| |].
    - intros e p He. apply Hag. by right.
    - intros Hs e p He. apply (Hex Hs). by right. }
  unfold mbind at 1, M_bind at 1.
  pose proof (choose_keep_world s paths w) as Hw1.
  destruct (choose_keep_agree s paths w (World t0 []))
    as (k & Hk & Hk0 & _).
  { apply length_gt_1_nonempty. by apply Nat.leb_gt. }
  { intros Hs p Hp. simpl.
    rewrite (Hag (h, paths) p) by (by left || done).
    split; [|done]. apply (Hex Hs (h, paths)); [by left|done]. }
  fold (keep_of t0 s paths) in Hk0.
  assert (removed_of t0 s paths =
          filter (fun p => p <> k /\ can_unlink t0 p = true) paths) as ->
    by (unfold removed_of; by rewrite E, Hk0).
  destruct (choose_keep s paths w) as [o w1]. simpl in *. subst o.
  unfold mbind at 1, M_bind at 1.
  destruct (delete_others_live t0 k paths acc w1 Hnd1) as (w2 & -> & Hw2).
  { intros p Hp. rewrite Hw1. apply (Hag (h, paths)); [by left|done]. }
  set (gone := filter (fun p => p <> k /\ can_unlink t0 p = true) paths) in *.
  assert (forall p, p ∈ gone -> p ∈ paths) as Hgone.
  { intros p. unfold gone. by intros [_ ?]%list_elem_of_filter. }
  destruct (IH (acc ++ gone) w2 Hnd2) as (w' & -> & Hw').
  { intros e p He Hp. rewrite Hw2.
    destruct (decide (p ∈ gone)) as [Hg|_].
    - exfalso. apply (Hdisj p (Hgone p Hg)).
      apply list_elem_of_join. exists e.2. split; [done|].
      by apply list_elem_of_fmap_2.
    - rewrite Hw1. apply (Hag e); [by right|done]. }
  { intros Hs e p He. apply (Hex Hs). by right. }
  exists w'. rewrite <- app_assoc. split; [done|].
  intros q. rewrite Hw', Hw2, Hw1.
  destruct (decide (q ∈ removed_by t0 s items)) as [Hr|Hr];
    destruct (decide (q ∈ gone)) as [Hg|Hg];
    destruct (decide (q ∈ gone ++ removed_by t0 s items)) as [Ha|Ha];
    try done;
    try (exfalso; apply Ha; apply elem_of_app; auto; fail).
  apply elem_of_app in Ha as [|]; done.
Qed.

(** ** [delete_duplicates] and [find_and_delete_duplicates] *)

Lemma well_formed_exists t (items : dict) e p :
  well_formed t items -> e ∈ items -> p ∈ e.2 -> is_Some (t !! p).
Proof.
  intros [_ Hall] He Hp. rewrite Forall_forall in Hall. apply Hall.
  apply list_elem_of_join. exists e.2. split; [done|].
  by apply list_elem_of_fmap_2.
Qed.

Lemma NoDup_join_same (items : dict) e1 e2 p :
  NoDup (mjoin items.*2) -> e1 ∈ items -> e2 ∈ items ->
  p ∈ e1.2 -> p ∈ e2.2 -> e1 = e2.
Proof.
  induction items as [|e items IH]; intros Hnd H1 H2 Hp1 Hp2.
  { by apply elem_of_nil in H1. }
  simpl in Hnd. apply NoDup_app in Hnd as (_ & Hdisj & Hnd).
  assert (forall e', e' ∈ items -> p ∈ e'.2 -> p ∈ mjoin items.*2) as Hjoin.
  { intros e' He' Hp'. apply list_elem_of_join. exists e'.2.
    split; [done|]. by apply list_elem_of_fmap_2. }
  apply elem_of_cons in H1 as [->|H1]; apply elem_of_cons in H2 as [->|H2].
  - done.
  - exfalso. eapply Hdisj; eauto.
  - exfalso. eapply Hdisj; eauto.
  - by apply IH.
Qed.

Lemma delete_duplicates_live s items w :
  NoDup (mjoin items.*2) ->
  (uses_mtime s -> forall e p, e ∈ items -> p ∈ e.2 -> is_Some (fs w !! p)) ->
  exists w',
    delete_duplicates items s false w =
      (Ok (removed_by (fs w) s items), w') /\
    forall q, fs w' !! q =
      if decide (q ∈ removed_by (fs w) s items) then None else fs w !! q.
Proof.
  intros Hnd Hex. unfold delete_duplicates.
  destruct (resolve_live s items [] w (fs w)) as (w' & Hrun & Hfs);
    [done..|].
  exists w'. by rewrite Hrun.
Qed.

Lemma delete_duplicates_dry s items w :
  (uses_mtime s -> forall e p, e ∈ items -> p ∈ e.2 -> is_Some (fs w !! p)) ->
  exists w', delete_duplicates items s true w = (Ok [], w') /\ fs w' = fs w.
Proof. apply resolve_dry_total. Qed.

Lemma find_and_delete_run cs dir rec s (dry : bool) w :
  let found := duplicates_of cs (fs w) dir rec in
  let gone : list path := if dry then [] else removed_by (fs w) s found in
  exists w',
    find_and_delete_duplicates cs dir rec s dry w =
      (Ok (Summary (length found)
             (sum_list ((fun files : list path => (length files - 1)%nat)
                          <$> found.*2))
             (length gone) gone), w') /\
    forall q, fs w' !! q = if decide (q ∈ gone) then None else fs w !! q.
Proof.
  intros found gone. unfold find_and_delete_duplicates.
  unfold mbind at 1, M_bind at 1.
  destruct (find_duplicates_run cs dir rec w) as [lg ->].
  fold found. unfold mbind at 1, M_bind at 1.
  pose proof (duplicates_well_formed cs (fs w) dir rec) as Hwf. fold found in Hwf.
  destruct dry.
  - destruct (delete_duplicates_dry s found (World (fs w) lg)) as (w' & -> & Hw').
    { intros _ e p He Hp. by eapply well_formed_exists. }
    exists w'. split; [done|]. intros q. rewrite Hw'. simpl.
    by destruct (decide (q ∈ [])) as [?%elem_of_nil|].
  - destruct (delete_duplicates_live s found (World (fs w) lg))
      as (w' & -> & Hw').
    { apply Hwf. }
    { intros _ e p He Hp. by eapply well_formed_exists. }
    exists w'. split; [done|]. apply Hw'.
Qed.


Lemma elem_of_removed_by t s (items : dict) p :
  p ∈ removed_by t s items <->
  exists h paths k,
    (h, paths) ∈ items /\ (1 < length paths)%nat /\
    keep_of t s paths = Ok k /\ p ∈ paths /\ p <> k /\ can_unlink t p = true.
Proof.
  unfold removed_by. rewrite list_elem_of_join. split.
  - intros (l & Hp & Hl). apply list_elem_of_fmap in Hl as (paths & -> & Hl).
    apply list_elem_of_fmap in Hl as ([h paths'] & -> & Hin). simpl in *.
    unfold removed_of in Hp. destruct (length paths' <=? 1)%nat eqn:E.
    { by apply elem_of_nil in Hp. }
    apply Nat.leb_gt in E.
    destruct (keep_of t s paths') as [k|] eqn:Ek; [|by apply elem_of_nil in Hp].
    apply list_elem_of_filter in Hp as [[? ?] ?].
    exists h, paths', k. done.
  - intros (h & paths & k & Hin & Hlen & Hk & Hp & Hne & Hc).
    exists (removed_of t s paths). split.
    + unfold removed_of. apply Nat.leb_gt in Hlen. rewrite Hlen, Hk.
      by apply list_elem_of_filter.
    + apply list_elem_of_fmap. exists paths. split; [done|].
      apply list_elem_of_fmap. by exists (h, paths).
Qed.

Lemma two_elements {A} (l : list A) x y :
  x ∈ l -> y ∈ l -> x <> y -> (1 < length l)%nat.
Proof.
  destruct l as [|a [|b l]]; simpl; [by intros ?%elem_of_nil | | lia].
  intros ->%list_elem_of_singleton ->%list_elem_of_singleton. done.
Qed.

Lemma other_element `{EqDecision A} (l : list A) x :
  NoDup l -> (1 < length l)%nat -> x ∈ l -> exists y, y ∈ l /\ y <> x.
Proof.
  intros Hnd Hlen Hx. destruct l as [|a [|b l]]; simpl in *; try lia.
  inversion Hnd as [|? ? Ha _]; subst.
  destruct (decide (x = a)) as [->|Hne].
  - exists b. split; [by right; left|]. intros ->. apply Ha. by left.
  - exists a. split; [by left|done].
Qed.

(** * The claims *)

(** C1.  Whenever [delete_duplicates] returns (any policy name, dry run
    or live), every path in the returned list is a member of one of the
    sets that is not that set's survivor; every set of two or more files
    has a survivor, and where no file is listed in two sets (as in every
    mapping [find_duplicates] returns) that survivor is not in the
    returned list. *)
Theorem survivor_never_deleted s dry items w deleted w' :
  delete_duplicates items s dry w = (Ok deleted, w') ->
  (forall p, p ∈ deleted -> exists h paths k,
      (h, paths) ∈ items /\ keep_of (fs w) s paths = Ok k /\
      p ∈ paths /\ p <> k) /\
  (forall h paths, (h, paths) ∈ items -> (1 < length paths)%nat ->
      exists k, keep_of (fs w) s paths = Ok k /\ k ∈ paths /\
        (NoDup (mjoin items.*2) -> k ∉ deleted)).
Proof.
  intros Hrun. unfold delete_duplicates in Hrun.
  destruct (resolve_any s dry items [] w (fs w) deleted w')
    as (_ & new & Hnew & Hdel & Hkeep & _); [done..|].
  simpl in Hnew. subst new.
  assert (forall p, p ∈ deleted -> exists h paths k,
      (h, paths) ∈ items /\ keep_of (fs w) s paths = Ok k /\
      p ∈ paths /\ p <> k) as Hpart.
  { intros p Hp. destruct (Hdel p Hp) as (h & paths & k & ? & _ & ? & ? & ?).
    by exists h, paths, k. }
  split; [done|]. intros h paths Hin Hlen.
  destruct (Hkeep h paths Hin Hlen) as (k & Hk & _ & Hkin).
  exists k. split_and!; [done..|]. intros Hnd Hk'.
  destruct (Hpart k Hk') as (h' & paths' & k' & Hin' & Hk'' & Hkin' & Hne).
  pose proof (NoDup_join_same items (h, paths) (h', paths') k Hnd Hin Hin'
                Hkin Hkin') as [= <- <-].
  congruence.
Qed.

Lemma survivor_never_deleted_witness :
  let deleted := [["d"; "c"]; ["d"; "f"]] in
  let w' := (delete_duplicates sets2 "keep_oldest" false world2).2 in
  delete_duplicates sets2 "keep_oldest" false world2 = (Ok deleted, w') /\
  (forall p, p ∈ deleted -> exists h paths k,
      (h, paths) ∈ sets2 /\ keep_of (fs world2) "keep_oldest" paths = Ok k /\
      p ∈ paths /\ p <> k) /\
  (forall h paths, (h, paths) ∈ sets2 -> (1 < length paths)%nat ->
      exists k, keep_of (fs world2) "keep_oldest" paths = Ok k /\ k ∈ paths /\
        (NoDup (mjoin sets2.*2) -> k ∉ deleted)).
Proof.
  intros deleted w'.
  assert (delete_duplicates sets2 "keep_oldest" false world2 = (Ok deleted, w'))
    as Hrun by (vm_compute; reflexivity).
  split; [exact Hrun|].
  exact (survivor_never_deleted "keep_oldest" false sets2 world2 deleted w' Hrun).
Defined.

(** The whole pipeline: [find_and_delete_duplicates] returns, and no
    survivor of a set it found is among the paths it reports deleted. *)
Lemma find_and_delete_keeps_survivors cs dir rec s dry w :
  exists r w',
    find_and_delete_duplicates cs dir rec s dry w = (Ok r, w') /\
    forall h paths, (h, paths) ∈ duplicates_of cs (fs w) dir rec ->
      exists k, keep_of (fs w) s paths = Ok k /\ k ∈ paths /\
                (k ∉ deleted_paths r) /\ fs w' !! k = fs w !! k.
Proof.
  destruct (find_and_delete_run cs dir rec s dry w) as (w' & Hrun & Hfs).
  eexists _, w'. split; [exact Hrun|]. intros h paths Hin. simpl.
  pose proof (duplicates_well_formed cs (fs w) dir rec) as Hwf.
  pose proof (proj1 (duplicates_of_spec _ _ _ _ _ _) Hin) as (_ & _ & Hlen).
  destruct (choose_keep_agree s paths (World (fs w) []) (World (fs w) []))
    as (k & Hk & _ & _ & Hkin).
  { by apply length_gt_1_nonempty. }
  { intros _ p Hp. split; [|done]. by eapply (well_formed_exists _ _ (h, paths)). }
  fold (keep_of (fs w) s paths) in Hk.
  assert (k ∉ (if dry then [] else
                 removed_by (fs w) s (duplicates_of cs (fs w) dir rec))) as Hnot.
  { destruct dry; [by intros ?%elem_of_nil|].
    intros (h' & paths' & k' & Hin' & _ & Hk' & Hkin' & Hne & _)%elem_of_removed_by.
    pose proof (NoDup_join_same _ (h, paths) (h', paths') k (proj1 Hwf)
                  Hin Hin' Hkin Hkin') as [= <- <-].
    congruence. }
  exists k. split_and!; try done. rewrite Hfs. by case_decide.
Qed.

(** C2, as the code has it.  When the body of the [try] raises,
    [_calculate_hash] does not raise: it logs an error and returns the
    empty string, leaving the tree alone.  The empty string is never the
    hash of a file that was read: a hash returned for a file is 32
    characters long and, unless the chunk size is 0, it is the digest of
    the whole content, never of a part of it. *)
Theorem calculate_hash_failure cs p w e :
  (hash_body cs p w).1 = Raise e ->
  _calculate_hash cs p w =
    (Ok EmptyString, World (fs w) (log w ++ [(ERROR, HashError p e)])) /\
  forall q s, (_calculate_hash cs q w).1 = Ok s -> s <> EmptyString ->
    (hash_body cs q w).1 = Ok s /\ String.length s = 32%nat /\
    (cs <> 0 -> exists data err m u,
        fs w !! q = Some (Node (Regular data None err) m u) /\
        s = MD5.hexdigest_of data).
Proof.
  intros He. rewrite hash_body_run in He. simpl in He. split.
  - rewrite calculate_hash_run. by rewrite He.
  - intros q s Hs Hne. rewrite calculate_hash_value in Hs.
    assert (hash_value cs (fs w) q = s) as Hv by congruence. clear Hs.
    apply hash_value_ok in Hv; [|done].
    rewrite hash_body_run. split_and!; [done| |].
    + rewrite fingerprint_cases in Hv.
      destruct (fs w !! q) as [[[d [e'|] r| |] m u]|]; try done.
      destruct (read_loop cs r 0 d md5_new); [|done].
      inversion Hv. apply hexdigest_of_length.
    + intros Hcs. by eapply fingerprint_whole_file.
Qed.

Lemma calculate_hash_failure_witness :
  (hash_body 8192 ["r"; "D"] world1).1 = Raise PermissionError /\
  _calculate_hash 8192 ["r"; "D"] world1 =
    (Ok EmptyString, World (fs world1)
              (log world1 ++ [(ERROR, HashError ["r"; "D"] PermissionError)])) /\
  forall q s, (_calculate_hash 8192 q world1).1 = Ok s -> s <> EmptyString ->
    (hash_body 8192 q world1).1 = Ok s /\ String.length s = 32%nat /\
    (8192 <> 0 -> exists data err m u,
        fs world1 !! q = Some (Node (Regular data None err) m u) /\
        s = MD5.hexdigest_of data).
Proof.
  assert ((hash_body 8192 ["r"; "D"] world1).1 = Raise PermissionError)
    as Hfail by (vm_compute; reflexivity).
  split; [exact Hfail|].
  exact (calculate_hash_failure 8192 ["r"; "D"] world1 PermissionError Hfail).
Defined.

(** C2 as stated fails: on a file that cannot be opened, and on a file
    whose second read fails, the call returns normally with the default
    value, the empty string. *)
Lemma calculate_hash_returns_default :
  (hash_body 8192 ["r"; "D"] world1).1 = Raise PermissionError /\
  (_calculate_hash 8192 ["r"; "D"] world1).1 = Ok EmptyString /\
  (hash_body 1 ["r"; "E"] world1).1 = Raise OSError /\
  (_calculate_hash 1 ["r"; "E"] world1).1 = Ok EmptyString /\
  ~ (forall cs p w e, (hash_body cs p w).1 = Raise e ->
       exists e', (_calculate_hash cs p w).1 = Raise e').
Proof.
  split_and!; [vm_compute; reflexivity..|].
  intros H.
  destruct (H 8192 ["r"; "D"] world1 PermissionError) as [e' He'].
  - vm_compute. reflexivity.
  - vm_compute in He'. discriminate He'.
Qed.

(** C3.  A dry run never changes the tree, whether it returns or
    raises, so [find_duplicates] run right after it returns the mapping
    it returned before. *)
Theorem dry_run_purity cs dir rec s items w :
  fs (delete_duplicates items s true w).2 = fs w /\
  fs (find_and_delete_duplicates cs dir rec s true w).2 = fs w /\
  (find_duplicates cs dir rec (delete_duplicates items s true w).2).1 =
    (find_duplicates cs dir rec w).1 /\
  (find_duplicates cs dir rec
     (find_and_delete_duplicates cs dir rec s true w).2).1 =
    (find_duplicates cs dir rec w).1.
Proof.
  assert (forall w1 w2, fs w1 = fs w2 ->
            (find_duplicates cs dir rec w1).1 =
            (find_duplicates cs dir rec w2).1) as Hsame.
  { intros w1 w2 E.
    destruct (find_duplicates_run cs dir rec w1) as [lg1 ->].
    destruct (find_duplicates_run cs dir rec w2) as [lg2 ->].
    simpl. by rewrite E. }
  assert (fs (delete_duplicates items s true w).2 = fs w) as H1
    by apply resolve_dry_world.
  assert (fs (find_and_delete_duplicates cs dir rec s true w).2 = fs w) as H2.
  { destruct (find_and_delete_run cs dir rec s true w) as (w' & -> & Hfs).
    simpl. apply map_eq. intros q. rewrite Hfs.
    by destruct (decide (q ∈ [])) as [?%elem_of_nil|]. }
  split_and!; auto.
Qed.

(** C4.  On a non-empty set whose files exist, the survivor is:
    for [keep_oldest] the first file with the least modification time,
    for [keep_newest] the first file with the greatest one, for
    [keep_shortest_path] the first file with the shortest path string,
    for [keep_first] the first file.  In [delete_duplicates] that file
    is the one kept: a live run on a set of two or more distinct files
    removes the others (those it can unlink) and leaves it in place. *)
Theorem survivor_follows_policy file_paths w :
  file_paths <> [] ->
  (forall p, p ∈ file_paths -> is_Some (fs w !! p)) ->
  (exists k l1 l2,
      (choose_keep "keep_oldest" file_paths w).1 = Ok k /\
      file_paths = l1 ++ k :: l2 /\
      (forall x, x ∈ l1 -> mtime_of (fs w) k < mtime_of (fs w) x) /\
      (forall x, x ∈ l2 -> mtime_of (fs w) k <= mtime_of (fs w) x)) /\
  (exists k l1 l2,
      (choose_keep "keep_newest" file_paths w).1 = Ok k /\
      file_paths = l1 ++ k :: l2 /\
      (forall x, x ∈ l1 -> mtime_of (fs w) x < mtime_of (fs w) k) /\
      (forall x, x ∈ l2 -> mtime_of (fs w) x <= mtime_of (fs w) k)) /\
  (exists k l1 l2,
      (choose_keep "keep_shortest_path" file_paths w).1 = Ok k /\
      file_paths = l1 ++ k :: l2 /\
      (forall x, x ∈ l1 -> path_length k < path_length x) /\
      (forall x, x ∈ l2 -> path_length k <= path_length x)) /\
  (exists k, (choose_keep "keep_first" file_paths w).1 = Ok k /\
             head file_paths = Some k) /\
  (forall s h, (1 < length file_paths)%nat -> NoDup file_paths ->
     exists k w',
       (choose_keep s file_paths w).1 = Ok k /\
       delete_duplicates [(h, file_paths)] s false w =
         (Ok (filter (fun p => p <> k /\ can_unlink (fs w) p = true)
                file_paths), w') /\
       fs w' !! k = fs w !! k).
Proof.
  intros Hne Hex.
  assert (forall s, exists k,
            (choose_keep s file_paths w).1 = Ok k /\
            policy_ok (fs w) s file_paths k) as Hpol.
  { intros s. destruct (choose_keep_agree s file_paths w w Hne)
      as (k & Hk & _ & Hp & _); [|by eauto].
    intros _ p Hp. split; [by apply Hex|done]. }
  split_and!.
  - destruct (Hpol "keep_oldest") as (k & Hk & (l1 & l2 & -> & H1 & H2)).
    exists k, l1, l2. split_and!; try done.
    + intros x Hx. specialize (H1 x Hx). lia.
    + intros x Hx. specialize (H2 x Hx). lia.
  - destruct (Hpol "keep_newest") as (k & Hk & (l1 & l2 & -> & H1 & H2)).
    exists k, l1, l2. split_and!; try done.
    + intros x Hx. specialize (H1 x Hx). lia.
    + intros x Hx. specialize (H2 x Hx). lia.
  - destruct (Hpol "keep_shortest_path") as (k & Hk & (l1 & l2 & -> & H1 & H2)).
    exists k, l1, l2. split_and!; try done.
    + intros x Hx. specialize (H1 x Hx). lia.
    + intros x Hx. specialize (H2 x Hx). lia.
  - destruct (Hpol "keep_first") as (k & Hk & Hh). by exists k.
  - intros s h Hlen Hnd.
    destruct (delete_duplicates_live s [(h, file_paths)] w) as (w' & Hrun & Hfs).
    { simpl. by rewrite app_nil_r. }
    { intros _ e p ->%list_elem_of_singleton Hp. by apply Hex. }
    destruct (choose_keep_agree s file_paths w (World (fs w) []) Hne)
      as (k & Hk & Hk0 & _ & Hkin).
    { intros _ p Hp. split; [by apply Hex|done]. }
    fold (keep_of (fs w) s file_paths) in Hk0.
    assert (removed_by (fs w) s [(h, file_paths)] =
            filter (fun p => p <> k /\ can_unlink (fs w) p = true) file_paths)
      as Hrem.
    { unfold removed_by. simpl. rewrite app_nil_r. unfold removed_of.
      apply Nat.leb_gt in Hlen. by rewrite Hlen, Hk0. }
    rewrite Hrem in *. exists k, w'. split_and!; try done.
    rewrite Hfs. case_decide as Hin; [|done].
    by apply list_elem_of_filter in Hin as [[? _] _].
Qed.

Lemma survivor_follows_policy_witness :
  let file_paths := [["d"; "a"]; ["d"; "b"]; ["d"; "c"]] in
  file_paths <> [] /\
  (forall p, p ∈ file_paths -> is_Some (fs world2 !! p)) /\
  (exists k l1 l2,
      (choose_keep "keep_oldest" file_paths world2).1 = Ok k /\
      file_paths = l1 ++ k :: l2 /\
      (forall x, x ∈ l1 -> mtime_of (fs world2) k < mtime_of (fs world2) x) /\
      (forall x, x ∈ l2 -> mtime_of (fs world2) k <= mtime_of (fs world2) x)) /\
  (exists k, (choose_keep "keep_first" file_paths world2).1 = Ok k /\
             head file_paths = Some k).
Proof.
  intros file_paths.
  assert (file_paths <> []) as H1 by done.
  assert (forall p, p ∈ file_paths -> is_Some (fs world2 !! p)) as H2.
  { intros p Hp. unfold file_paths in Hp.
    repeat (apply elem_of_cons in Hp as [->|Hp];
            [eexists; vm_compute; reflexivity|]).
    by apply elem_of_nil in Hp. }
  destruct (survivor_follows_policy file_paths world2 H1 H2)
    as (Hold & _ & _ & Hfirst & _).
  split_and!; assumption.
Defined.

(** The scenarios of the specification. *)
Example oldest_and_newest :
  keep_of tree1 "keep_oldest" [["r"; "A"]; ["r"; "B"]] = Ok ["r"; "A"] /\
  keep_of tree1 "keep_newest" [["r"; "A"]; ["r"; "B"]] = Ok ["r"; "B"].
Proof. split; vm_compute; reflexivity. Qed.

Example shortest_path :
  keep_of ∅ "keep_shortest_path"
    [[EmptyString; "a"; "bb.txt"]; [EmptyString; "a"; "b.txt"]; [EmptyString; "a"; "ccc.txt"]]
  = Ok [EmptyString; "a"; "b.txt"].
Proof. vm_compute. reflexivity. Qed.

Example ties_go_to_the_first :
  keep_of tree1 "keep_oldest" [["r"; "s"]; ["r"; "D"]; ["r"; "E"]]
    = Ok ["r"; "s"] /\
  keep_of tree1 "keep_newest" [["r"; "D"]; ["r"; "s"]; ["r"; "E"]]
    = Ok ["r"; "D"] /\
  keep_of ∅ "keep_shortest_path" [["b"; "x"]; ["a"; "y"]] = Ok ["b"; "x"].
Proof. split_and!; vm_compute; reflexivity. Qed.




(** C6.  [find_duplicates] always returns and leaves the tree alone.
    No key of the mapping is the empty string; a file whose reading
    raised is in no set; and two distinct scanned files that were read
    and have the same hash are both in the set of that hash, however
    many other files failed. *)
Theorem unreadable_files_are_skipped cs dir rec w :
  exists d lg,
    find_duplicates cs dir rec w = (Ok d, World (fs w) lg) /\
    (EmptyString ∉ d.*1) /\
    (forall p e, (hash_body cs p w).1 = Raise e ->
       forall h l, (h, l) ∈ d -> p ∉ l) /\
    (forall p q h,
       p ∈ candidates (fs w) dir rec -> q ∈ candidates (fs w) dir rec ->
       p <> q ->
       (hash_body cs p w).1 = Ok h -> (hash_body cs q w).1 = Ok h ->
       exists l, (h, l) ∈ d /\ p ∈ l /\ q ∈ l).
Proof.
  destruct (find_duplicates_run cs dir rec w) as [lg Hrun].
  exists (duplicates_of cs (fs w) dir rec), lg. split_and!; [done| | |].
  - intros ([h l] & Hh & Hin)%list_elem_of_fmap. simpl in Hh. subst h.
    by apply duplicates_of_spec in Hin as (? & _).
  - intros p e He h l Hin Hp. rewrite hash_body_run in He. simpl in He.
    apply duplicates_of_spec in Hin as (Hh & -> & _).
    apply list_elem_of_filter in Hp as [Hv _].
    unfold hash_value in Hv. rewrite He in Hv. congruence.
  - intros p q h Hp Hq Hne Hhp Hhq. rewrite hash_body_run in Hhp, Hhq.
    simpl in *.
    assert (h <> EmptyString) as Hh by by eapply fingerprint_nonempty.
    set (l := members (hash_value cs (fs w)) (candidates (fs w) dir rec) h).
    assert (p ∈ l) as Hpl.
    { apply list_elem_of_filter. split; [|done]. by apply hash_value_ok. }
    assert (q ∈ l) as Hql.
    { apply list_elem_of_filter. split; [|done]. by apply hash_value_ok. }
    exists l. split_and!; [|done..]. apply duplicates_of_spec.
    split; [exact Hh|]. split; [reflexivity|].
    exact (two_elements l p q Hpl Hql Hne).
Qed.

Lemma unreadable_files_are_skipped_witness :
  exists d lg,
    find_duplicates 8192 ["r"] true world1 = (Ok d, World (fs world1) lg) /\
    (EmptyString ∉ d.*1) /\
    (forall p e, (hash_body 8192 p world1).1 = Raise e ->
       forall h l, (h, l) ∈ d -> p ∉ l) /\
    (forall p q h,
       p ∈ candidates (fs world1) ["r"] true ->
       q ∈ candidates (fs world1) ["r"] true ->
       p <> q ->
       (hash_body 8192 p world1).1 = Ok h ->
       (hash_body 8192 q world1).1 = Ok h ->
       exists l, (h, l) ∈ d /\ p ∈ l /\ q ∈ l).
Proof. exact (unreadable_files_are_skipped 8192 ["r"] true world1). Defined.

Example scan_skips_unreadable :
  (find_duplicates 8192 ["r"] true world1).1 =
    Ok [("415290769594460e2e485922904f345d", [["r"; "s"; "F"]; ["r"; "C"]]);
        ("9dd4e461268c8034f5c8564e155c67a6", [["r"; "B"]; ["r"; "A"]])] /\
  log (find_duplicates 8192 ["r"] true world1).2 =
    [(INFO, Scanning 6); (ERROR, HashError ["r"; "E"] OSError);
     (ERROR, HashError ["r"; "D"] PermissionError); (INFO, Found 2)].
Proof. split; vm_compute; reflexivity. Qed.

(** C7.  In a live run the loop over the members of a set never
    raises: a failing [unlink] is caught.  Where no file is listed twice
    (and, for the policies that read modification times, the listed
    files exist), the run returns, and the list it returns holds, set
    after set and in the order of each set, exactly the members other
    than the survivor whose [unlink] succeeds.  A member whose [unlink]
    fails is left out and stays in the tree, and the members and sets
    after it are processed all the same. *)
Theorem failed_deletions_are_skipped s items w :
  (forall keep paths acc w0, exists deleted w',
     delete_others false keep paths acc w0 = (Ok deleted, w')) /\
  (NoDup (mjoin items.*2) ->
   (uses_mtime s ->
    forall e p, e ∈ items -> p ∈ e.2 -> is_Some (fs w !! p)) ->
   exists w',
     delete_duplicates items s false w =
       (Ok (removed_by (fs w) s items), w') /\
     (forall p, p ∈ removed_by (fs w) s items <->
        exists h paths k,
          (h, paths) ∈ items /\ (1 < length paths)%nat /\
          keep_of (fs w) s paths = Ok k /\ p ∈ paths /\ p <> k /\
          can_unlink (fs w) p = true) /\
     (forall q, fs w' !! q =
        if decide (q ∈ removed_by (fs w) s items) then None else fs w !! q)).
Proof.
  split.
  - intros keep paths acc w0.
    destruct (delete_others_any false keep paths acc w0)
      as (new & w' & Hrun & _). eauto.
  - intros Hnd Hex.
    destruct (delete_duplicates_live s items w Hnd Hex) as (w' & Hrun & Hfs).
    exists w'. split_and!; [done| |done]. intros p. apply elem_of_removed_by.
Qed.

Lemma failed_deletions_are_skipped_witness :
  NoDup (mjoin sets3.*2) /\
  exists w',
    delete_duplicates sets3 "keep_first" false world2 =
      (Ok (removed_by (fs world2) "keep_first" sets3), w') /\
    (forall p, p ∈ removed_by (fs world2) "keep_first" sets3 <->
       exists h paths k,
         (h, paths) ∈ sets3 /\ (1 < length paths)%nat /\
         keep_of (fs world2) "keep_first" paths = Ok k /\ p ∈ paths /\
         p <> k /\ can_unlink (fs world2) p = true) /\
    (forall q, fs w' !! q =
       if decide (q ∈ removed_by (fs world2) "keep_first" sets3)
       then None else fs world2 !! q).
Proof.
  assert (NoDup (mjoin sets3.*2)) as Hnd.
  { apply (bool_decide_unpack (NoDup (mjoin sets3.*2))). vm_compute. exact I. }
  split; [exact Hnd|].
  apply (proj2 (failed_deletions_are_skipped "keep_first" sets3 world2) Hnd).
  intros [Hs|Hs]; discriminate Hs.
Defined.

(** In [tree2] file b cannot be unlinked: it is left out, c after it is
    removed, and so is f of the next set.  In [sets3] file z is gone
    already: its [unlink] fails too, and the run goes on. *)
Example live_run_skips_failure :
  (delete_duplicates sets2 "keep_oldest" false world2).1 =
    Ok [["d"; "c"]; ["d"; "f"]] /\
  log (delete_duplicates sets2 "keep_oldest" false world2).2 =
    [(DEBUG, Keeping ["d"; "a"]);
     (ERROR, DeleteError ["d"; "b"] PermissionError);
     (INFO, Deleted ["d"; "c"]);
     (DEBUG, Keeping ["d"; "e"]);
     (INFO, Deleted ["d"; "f"])] /\
  is_file (fs (delete_duplicates sets2 "keep_oldest" false world2).2)
    ["d"; "b"] = true /\
  (delete_duplicates sets3 "keep_first" false world2).1 =
    Ok [["d"; "c"]; ["d"; "f"]] /\
  (delete_duplicates sets3 "keep_oldest" false world2).1 =
    Raise FileNotFoundError.
Proof. split_and!; vm_compute; reflexivity. Qed.

(** C8.  Every set [find_duplicates] returns has two files or more and
    is the list of the scanned files with the set's hash, in the order
    of the scan; a scanned file whose hash no other scanned file has is
    in no set. *)
Theorem only_duplicates_in_scan_order cs dir rec w :
  exists d lg,
    find_duplicates cs dir rec w = (Ok d, World (fs w) lg) /\
    (forall h l, (h, l) ∈ d ->
       (2 <= length l)%nat /\
       l = filter (fun p => hash_value cs (fs w) p = h)
             (candidates (fs w) dir rec) /\
       sublist l (candidates (fs w) dir rec)) /\
    (forall p,
       (forall q, q ∈ candidates (fs w) dir rec -> q <> p ->
                  hash_value cs (fs w) q <> hash_value cs (fs w) p) ->
       forall h l, (h, l) ∈ d -> p ∉ l).
Proof.
  destruct (find_duplicates_run cs dir rec w) as [lg Hrun].
  exists (duplicates_of cs (fs w) dir rec), lg. split_and!; [done| |].
  - intros h l (Hh & Hl & Hlen)%duplicates_of_spec.
    split_and!; [lia|done|]. rewrite Hl. apply sublist_filter.
  - intros p Huniq h l (Hh & Hl & Hlen)%duplicates_of_spec Hp.
    assert (NoDup l) as Hnd.
    { rewrite Hl. apply members_NoDup, candidates_NoDup. }
    destruct (other_element l p Hnd Hlen Hp) as (q & Hq & Hqp).
    rewrite Hl in Hp, Hq.
    apply list_elem_of_filter in Hp as [Hvp _].
    apply list_elem_of_filter in Hq as [Hvq Hqc].
    apply (Huniq q Hqc Hqp). congruence.
Qed.

Lemma only_duplicates_in_scan_order_witness :
  exists d lg,
    find_duplicates 8192 ["r"] true world1 = (Ok d, World (fs world1) lg) /\
    (forall h l, (h, l) ∈ d ->
       (2 <= length l)%nat /\
       l = filter (fun p => hash_value 8192 (fs world1) p = h)
             (candidates (fs world1) ["r"] true) /\
       sublist l (candidates (fs world1) ["r"] true)) /\
    (forall p,
       (forall q, q ∈ candidates (fs world1) ["r"] true -> q <> p ->
                  hash_value 8192 (fs world1) q <> hash_value 8192 (fs world1) p) ->
       forall h l, (h, l) ∈ d -> p ∉ l).
Proof. exact (only_duplicates_in_scan_order 8192 ["r"] true world1). Defined.

(** C9.  In the mapping [find_duplicates] returns no key occurs twice,
    and [_calculate_hash] gives every file of a set the key of the set,
    hence gives any two files of a set the same value. *)
Theorem partition_correct cs dir rec w :
  exists d lg,
    find_duplicates cs dir rec w = (Ok d, World (fs w) lg) /\
    NoDup d.*1 /\
    (forall h l p, (h, l) ∈ d -> p ∈ l ->
       (_calculate_hash cs p w).1 = Ok h) /\
    (forall h l p q, (h, l) ∈ d -> p ∈ l -> q ∈ l ->
       (_calculate_hash cs p w).1 = (_calculate_hash cs q w).1) /\
    (forall h l1 l2, (h, l1) ∈ d -> (h, l2) ∈ d -> l1 = l2).
Proof.
  destruct (find_duplicates_run cs dir rec w) as [lg Hrun].
  exists (duplicates_of cs (fs w) dir rec), lg.
  assert (forall h l p, (h, l) ∈ duplicates_of cs (fs w) dir rec -> p ∈ l ->
            (_calculate_hash cs p w).1 = Ok h) as Hkey.
  { intros h l p (Hh & Hl & _)%duplicates_of_spec Hp. rewrite Hl in Hp.
    apply list_elem_of_filter in Hp as [Hv _].
    rewrite calculate_hash_value. by rewrite Hv. }
  split_and!; [done| |done| |].
  - apply duplicates_of_keys.
  - intros h l p q Hin Hp Hq.
    by rewrite (Hkey h l p Hin Hp), (Hkey h l q Hin Hq).
  - intros h l1 l2 (_ & -> & _)%duplicates_of_spec
      (_ & -> & _)%duplicates_of_spec. done.
Qed.

Lemma partition_correct_witness :
  exists d lg,
    find_duplicates 8192 ["r"] true world1 = (Ok d, World (fs world1) lg) /\
    NoDup d.*1 /\
    (forall h l p, (h, l) ∈ d -> p ∈ l ->
       (_calculate_hash 8192 p world1).1 = Ok h) /\
    (forall h l p q, (h, l) ∈ d -> p ∈ l -> q ∈ l ->
       (_calculate_hash 8192 p world1).1 = (_calculate_hash 8192 q world1).1) /\
    (forall h l1 l2, (h, l1) ∈ d -> (h, l2) ∈ d -> l1 = l2).
Proof. exact (partition_correct 8192 ["r"] true world1). Defined.

(** C10.  A dry [delete_duplicates] that returns, returns the empty
    list, and it returns whenever the listed files exist (or the policy
    does not read modification times); so a dry
    [find_and_delete_duplicates] always reports [deleted_files = 0] and
    [deleted_paths = []], next to the counts of the sets found. *)
Theorem dry_run_reports_no_deletions cs dir rec s items w :
  (forall deleted w',
     delete_duplicates items s true w = (Ok deleted, w') -> deleted = []) /\
  ((uses_mtime s ->
    forall e p, e ∈ items -> p ∈ e.2 -> is_Some (fs w !! p)) ->
   exists w', delete_duplicates items s true w = (Ok [], w')) /\
  (exists w',
     find_and_delete_duplicates cs dir rec s true w =
       (Ok (Summary (length (duplicates_of cs (fs w) dir rec))
              (sum_list ((fun files : list path => (length files - 1)%nat)
                           <$> (duplicates_of cs (fs w) dir rec).*2))
              0 []), w')).
Proof.
  split_and!.
  - intros deleted w' Hrun. unfold delete_duplicates in Hrun.
    destruct (resolve_any s true items [] w (fs w) deleted w')
      as (_ & new & -> & _ & _ & Hdry); [done..|].
    by destruct Hdry as [-> _].
  - intros Hex. destruct (delete_duplicates_dry s items w) as (w' & Hrun & _);
      eauto.
  - destruct (find_and_delete_run cs dir rec s true w) as (w' & Hrun & _).
    by exists w'.
Qed.

Lemma dry_run_reports_no_deletions_witness :
  (forall e p, e ∈ sets2 -> p ∈ e.2 -> is_Some (fs world2 !! p)) /\
  (exists w', delete_duplicates sets2 "keep_newest" true world2 = (Ok [], w')) /\
  (exists w',
     find_and_delete_duplicates 8192 ["d"] false "keep_newest" true world2 =
       (Ok (Summary (length (duplicates_of 8192 (fs world2) ["d"] false))
              (sum_list ((fun files : list path => (length files - 1)%nat)
                           <$> (duplicates_of 8192 (fs world2) ["d"] false).*2))
              0 []), w')).
Proof.
  assert (forall e p, e ∈ sets2 -> p ∈ e.2 -> is_Some (fs world2 !! p)) as Hex.
  { intros e p He Hp.
    assert (well_formed (fs world2) sets2) as Hwf.
    { apply (bool_decide_unpack (well_formed (fs world2) sets2)).
      vm_compute. exact I. }
    exact (well_formed_exists _ _ e p Hwf He Hp). }
  destruct (dry_run_reports_no_deletions 8192 ["d"] false "keep_newest" sets2
              world2) as (_ & Hdry & Hsum).
  split_and!; [exact Hex | exact (Hdry (fun _ => Hex)) | exact Hsum].
Defined.

(** Two sets are found in [tree1], two files are redundant, and the dry
    run reports none of the paths a live run would remove. *)
Example dry_run_on_tree1 :
  (find_and_delete_duplicates 8192 ["r"] true "keep_oldest" true world1).1 =
    Ok (Summary 2 2 0 []) /\
  (find_and_delete_duplicates 8192 ["r"] true "keep_oldest" false world1).1 =
    Ok (Summary 2 2 2 [["r"; "C"]; ["r"; "B"]]).
Proof. split; vm_compute; reflexivity. Qed.

(** * Further properties of the duplicate finder *)

Lemma fingerprint_lookup cs t t' p p' :
  node_kind <$> t !! p = node_kind <$> t' !! p' ->
  fingerprint cs t p = fingerprint cs t' p'.
Proof.
  rewrite !fingerprint_cases.
  destruct (t !! p) as [[k m u]|], (t' !! p') as [[k' m' u']|]; simpl;
    intros [=]; subst; done.
Qed.

Lemma hash_value_lookup cs t t' p :
  t !! p = t' !! p -> hash_value cs t p = hash_value cs t' p.
Proof.
  intros E. unfold hash_value.
  by rewrite (fingerprint_lookup cs t t' p p) by by rewrite E.
Qed.

Lemma elem_of_entries t p : p ∈ entries t <-> is_Some (t !! p).
Proof.
  unfold entries. rewrite list_elem_of_fmap. split.
  - intros ([q n] & -> & Hin). apply elem_of_map_to_list in Hin. simpl. eauto.
  - intros [n Hn]. exists (p, n). split; [done|]. by apply elem_of_map_to_list.
Qed.

Lemma elem_of_candidates t dir (rec : bool) p :
  p ∈ candidates t dir rec <->
  is_dir t dir = true /\ is_file t p = true /\
  (if rec then below dir p else child_of dir p).
Proof.
  unfold candidates, rglob, glob. rewrite list_elem_of_filter.
  destruct rec; destruct (is_dir t dir);
    rewrite ?list_elem_of_filter, ?elem_of_entries, ?elem_of_nil.
  - split; [intros (? & ? & ?); done|].
    intros (_ & Hf & Hb). split_and!; try done. by apply is_file_Some.
  - split; [intros [_ []]|intros [[=] _]].
  - split; [intros (? & ? & ?); done|].
    intros (_ & Hf & Hb). split_and!; try done. by apply is_file_Some.
  - split; [intros [_ []]|intros [[=] _]].
Qed.

Lemma duplicates_of_members cs t dir rec h l p :
  (h, l) ∈ duplicates_of cs t dir rec -> p ∈ l ->
  p ∈ candidates t dir rec /\ fingerprint cs t p = Ok h.
Proof.
  intros (Hh & -> & _)%duplicates_of_spec [Hv Hp]%list_elem_of_filter.
  split; [done|]. by apply hash_value_ok.
Qed.

Lemma removed_by_duplicates cs t dir rec s p :
  p ∈ removed_by t s (duplicates_of cs t dir rec) ->
  exists h l k,
    (h, l) ∈ duplicates_of cs t dir rec /\ keep_of t s l = Ok k /\
    p ∈ l /\ k ∈ l /\ p <> k /\ can_unlink t p = true /\
    k ∉ removed_by t s (duplicates_of cs t dir rec).
Proof.
  intros (h & l & k & Hin & Hlen & Hk & Hp & Hne & Hc)%elem_of_removed_by.
  exists h, l, k. split_and!; try done.
  - destruct (choose_keep_mono s l (World t []) t k) as (_ & _ & ?); done.
  - intros (h' & l' & k' & Hin' & _ & Hk' & Hkin' & Hne' & _)%elem_of_removed_by.
    assert (k ∈ l) as Hkin
      by by destruct (choose_keep_mono s l (World t []) t k) as (_ & _ & ?).
    pose proof (NoDup_join_same _ (h, l) (h', l') k
      (proj1 (duplicates_well_formed cs t dir rec)) Hin Hin' Hkin Hkin')
      as [= <- <-].
    congruence.
Qed.

Lemma removed_by_sublist t s (items : dict) :
  removed_by t s items `sublist_of` mjoin items.*2.
Proof.
  unfold removed_by. induction items.*2 as [|l ls IH]; [done|].
  simpl. apply sublist_app; [|done].
  unfold removed_of. destruct (length l <=? 1)%nat; [apply sublist_nil_l|].
  destruct (keep_of t s l); [apply sublist_filter|apply sublist_nil_l].
Qed.

Lemma removed_by_NoDup t s (items : dict) :
  NoDup (mjoin items.*2) -> NoDup (removed_by t s items).
Proof.
  intros H. exact (sublist_NoDup _ _ H (removed_by_sublist t s items)).
Qed.

Lemma fingerprint_content cs t p h :
  cs <> 0 -> fingerprint cs t p = Ok h ->
  exists data, content t p = Some data /\ h = MD5.hexdigest_of data.
Proof.
  intros Hcs Hfp.
  destruct (fingerprint_whole_file cs t p h Hcs Hfp)
    as (data & err & m & u & Hp & ->).
  exists data. unfold content. by rewrite Hp.
Qed.

(** X1.  What a live [find_and_delete_duplicates] leaves behind, for a
    usual chunk size and in a tree without symbolic links: every path
    it reports deleted was a regular file and is gone, and a different
    regular file of the scan is still there, untouched, whose bytes
    have the same MD5 digest as the bytes of the deleted file.  (Equal
    digests, which is what the tool goes by, not equal bytes.) *)
Theorem deleted_file_leaves_same_digest cs dir rec s w :
  usual_chunk_size cs ->
  exists r w',
    find_and_delete_duplicates cs dir rec s false w = (Ok r, w') /\
    forall p, p ∈ deleted_paths r ->
      fs w' !! p = None /\
      exists k dp dk,
        k <> p /\ k ∈ candidates (fs w) dir rec /\
        content (fs w) p = Some dp /\ content (fs w) k = Some dk /\
        fs w' !! k = fs w !! k /\
        MD5.hexdigest_of dp = MD5.hexdigest_of dk.
Proof.
  intros [Hpos _]. assert (cs <> 0) as Hcs by lia.
  destruct (find_and_delete_run cs dir rec s false w) as (w' & Hrun & Hfs).
  eexists _, w'. split; [exact Hrun|]. simpl. intros p Hp.
  split; [rewrite Hfs; by case_decide|].
  destruct (removed_by_duplicates _ _ _ _ _ _ Hp)
    as (h & l & k & Hin & Hk & Hpl & Hkl & Hne & _ & Hknot).
  destruct (duplicates_of_members _ _ _ _ _ _ p Hin Hpl) as [_ Hfp].
  destruct (duplicates_of_members _ _ _ _ _ _ k Hin Hkl) as [Hkc Hfk].
  destruct (fingerprint_content _ _ _ _ Hcs Hfp) as (dp & Hdp & Hhp).
  destruct (fingerprint_content _ _ _ _ Hcs Hfk) as (dk & Hdk & Hhk).
  exists k, dp, dk. split_and!; try done.
  - rewrite Hfs. by case_decide.
  - congruence.
Qed.

Lemma deleted_file_leaves_same_digest_witness :
  usual_chunk_size 8192 /\
  exists r w',
    find_and_delete_duplicates 8192 ["d"] false "keep_first" false world2 =
      (Ok r, w') /\
    ["d"; "a"] ∈ deleted_paths r /\
    fs w' !! ["d"; "a"] = None /\
    exists k dp dk,
      k <> ["d"; "a"] /\ k ∈ candidates (fs world2) ["d"] false /\
      content (fs world2) ["d"; "a"] = Some dp /\
      content (fs world2) k = Some dk /\
      fs w' !! k = fs world2 !! k /\
      MD5.hexdigest_of dp = MD5.hexdigest_of dk.
Proof.
  assert (usual_chunk_size 8192) as Hcs by (unfold usual_chunk_size; lia).
  split; [exact Hcs|].
  destruct (deleted_file_leaves_same_digest 8192 ["d"] false "keep_first"
              world2 Hcs) as (r & w' & Hrun & Hkeep).
  assert ((find_and_delete_duplicates 8192 ["d"] false "keep_first" false
             world2).1 = Ok (Summary 2 3 2 [["d"; "e"]; ["d"; "a"]])) as Hc
    by (vm_compute; reflexivity).
  rewrite Hrun in Hc. injection Hc as ->.
  assert (["d"; "a"] ∈ [["d"; "e"]; ["d"; "a"]]) as Hin by (right; left).
  eexists; exists w'. split; [exact Hrun|]. split; [exact Hin|].
  exact (Hkeep _ Hin).
Defined.

(** X2.  A live [find_and_delete_duplicates] removes exactly the paths it
    reports and changes nothing else: each reported path is reported
    once and was a regular file below the root (a direct child when
    the scan is not recursive); every other entry of the tree, the
    directories among them, is as it was. *)
Theorem live_run_frame cs dir rec s w :
  exists r w',
    find_and_delete_duplicates cs dir rec s false w = (Ok r, w') /\
    NoDup (deleted_paths r) /\
    (forall p, p ∈ deleted_paths r ->
       is_file (fs w) p = true /\
       (if rec then below dir p else child_of dir p)) /\
    (forall q, fs w' !! q =
       if decide (q ∈ deleted_paths r) then None else fs w !! q) /\
    (forall q, is_dir (fs w) q = true -> fs w' !! q = fs w !! q).
Proof.
  destruct (find_and_delete_run cs dir rec s false w) as (w' & Hrun & Hfs).
  eexists _, w'. split; [exact Hrun|]. simpl.
  assert (forall p, p ∈ removed_by (fs w) s (duplicates_of cs (fs w) dir rec) ->
            is_file (fs w) p = true /\
            (if rec then below dir p else child_of dir p)) as Hfiles.
  { intros p (h & l & k & Hin & _ & Hpl & _)%removed_by_duplicates.
    destruct (duplicates_of_members _ _ _ _ _ _ p Hin Hpl) as [Hc _].
    apply elem_of_candidates in Hc as (_ & ? & ?). done. }
  split_and!; try done.
  - apply removed_by_NoDup, duplicates_well_formed.
  - intros q Hq. rewrite Hfs. case_decide as Hin; [|done].
    destruct (Hfiles q Hin) as [Hf _]. unfold is_file, is_dir in *.
    by destruct (fs w !! q) as [[[] ? ?]|].
Qed.

Lemma live_run_frame_witness :
  exists r w',
    find_and_delete_duplicates 8192 ["d"] false "keep_first" false world2 =
      (Ok r, w') /\
    deleted_paths r = [["d"; "e"]; ["d"; "a"]] /\
    is_file (fs world2) ["d"; "e"] = true /\ child_of ["d"] ["d"; "e"] /\
    fs w' !! ["d"; "e"] = None /\
    fs w' !! ["d"; "b"] = fs world2 !! ["d"; "b"] /\
    fs w' !! ["d"] = fs world2 !! ["d"].
Proof.
  destruct (live_run_frame 8192 ["d"] false "keep_first" world2)
    as (r & w' & Hrun & _ & Hfile & Hfs & Hdir).
  assert ((find_and_delete_duplicates 8192 ["d"] false "keep_first" false
             world2).1 = Ok (Summary 2 3 2 [["d"; "e"]; ["d"; "a"]])) as Hc
    by (vm_compute; reflexivity).
  rewrite Hrun in Hc. injection Hc as ->.
  assert (["d"; "e"] ∈ [["d"; "e"]; ["d"; "a"]]) as Hin by left.
  eexists; exists w'. split; [exact Hrun|]. split; [reflexivity|].
  split; [exact (proj1 (Hfile _ Hin))|].
  split; [exact (proj2 (Hfile _ Hin))|].
  split; [|split].
  - etransitivity; [exact (Hfs ["d"; "e"])|]. vm_compute. reflexivity.
  - etransitivity; [exact (Hfs ["d"; "b"])|]. vm_compute. reflexivity.
  - apply Hdir. vm_compute. reflexivity.
Defined.

Lemma filter_ne_absent `{EqDecision A} (l : list A) k :
  k ∉ l -> filter (fun p => p <> k) l = l.
Proof.
  induction l as [|x l IH]; intros Hk; [done|]. rewrite filter_cons.
  destruct (decide (x <> k)) as [_|Heq].
  - f_equal. apply IH. intros Hin. apply Hk. by right.
  - exfalso. apply Hk. destruct (decide (x = k)) as [->|Hne]; [by left|done].
Qed.

Lemma length_filter_ne `{EqDecision A} (l : list A) k :
  NoDup l -> k ∈ l -> S (length (filter (fun p => p <> k) l)) = length l.
Proof.
  induction l as [|x l IH]; intros Hnd Hk; [by apply elem_of_nil in Hk|].
  inversion Hnd as [|? ? Hx Hnd']; subst. rewrite filter_cons.
  destruct (decide (x <> k)) as [Hne|Heq].
  - apply elem_of_cons in Hk as [->|Hk]; [done|]. simpl. by rewrite IH.
  - assert (x = k) as -> by (by destruct (decide (x = k))).
    by rewrite filter_ne_absent.
Qed.

Lemma filter_ext_elem {A} (P1 P2 : A -> Prop)
    `{!forall x, Decision (P1 x), !forall x, Decision (P2 x)} (l : list A) :
  (forall x, x ∈ l -> P1 x <-> P2 x) -> filter P1 l = filter P2 l.
Proof.
  induction l as [|x l IH]; intros Hext; [done|]. rewrite !filter_cons.
  rewrite IH by (intros y Hy; apply Hext; by right).
  destruct (decide (P1 x)) as [H1|H1], (decide (P2 x)) as [H2|H2]; try done.
  - exfalso. apply H2, Hext; [by left|done].
  - exfalso. apply H1, Hext; [by left|done].
Qed.

Lemma filter_sublist_impl {A} (P1 P2 : A -> Prop)
    `{!forall x, Decision (P1 x), !forall x, Decision (P2 x)} (l : list A) :
  (forall x, P1 x -> P2 x) -> filter P1 l `sublist_of` filter P2 l.
Proof.
  intros Himp. induction l as [|x l IH]; [done|]. rewrite !filter_cons.
  destruct (decide (P1 x)) as [H1|H1], (decide (P2 x)) as [H2|H2].
  - by apply sublist_skip.
  - exfalso. by apply H2, Himp.
  - by apply sublist_cons.
  - done.
Qed.

Lemma removed_of_length t s l k :
  (1 < length l)%nat -> NoDup l -> keep_of t s l = Ok k -> k ∈ l ->
  (length (removed_of t s l) <= length l - 1)%nat /\
  ((forall p, p ∈ l -> can_unlink t p = true) ->
   length (removed_of t s l) = (length l - 1)%nat).
Proof.
  intros Hlen Hnd Hk Hkin. unfold removed_of.
  apply Nat.leb_gt in Hlen as Hlen'. rewrite Hlen', Hk.
  pose proof (length_filter_ne l k Hnd Hkin) as Hne. split.
  - assert (length (filter (fun p => p <> k /\ can_unlink t p = true) l)
            <= length (filter (fun p => p <> k) l))%nat; [|lia].
    apply sublist_length, filter_sublist_impl. by intros p [? _].
  - intros Hall.
    assert (filter (fun p => p <> k /\ can_unlink t p = true) l =
            filter (fun p => p <> k) l) as ->; [|lia].
    apply filter_ext_elem. intros p Hp. specialize (Hall p Hp). tauto.
Qed.

Lemma keep_of_found cs t dir rec s h l :
  (h, l) ∈ duplicates_of cs t dir rec ->
  (1 < length l)%nat /\ NoDup l /\
  exists k, keep_of t s l = Ok k /\ k ∈ l /\ policy_ok t s l k.
Proof.
  intros Hin. pose proof (duplicates_well_formed cs t dir rec) as Hwf.
  pose proof (proj1 (duplicates_of_spec _ _ _ _ _ _) Hin) as (_ & Hl & Hlen).
  split_and!; [done| |].
  - rewrite Hl. apply members_NoDup, candidates_NoDup.
  - destruct (choose_keep_agree s l (World t []) (World t []))
      as (k & Hk & _ & Hp & Hkin).
    { by apply length_gt_1_nonempty. }
    { intros _ p Hp. split; [|done]. by eapply (well_formed_exists _ _ (h, l)). }
    by exists k.
Qed.

(** X3.  The counts of the summary are consistent: every set has at
    least one redundant file, sets plus redundant files is the number of
    files in the sets, the number deleted is the length of
    [deleted_paths] and never exceeds the redundant count, is 0 in a dry
    run, and in a live run equals the redundant count when every file of
    the sets can be unlinked. *)
Theorem summary_counts cs dir rec s (dry : bool) w :
  exists r w',
    find_and_delete_duplicates cs dir rec s dry w = (Ok r, w') /\
    (duplicate_sets r <= total_duplicate_files r)%nat /\
    (duplicate_sets r + total_duplicate_files r =
       length (mjoin (duplicates_of cs (fs w) dir rec).*2))%nat /\
    deleted_files r = length (deleted_paths r) /\
    (deleted_files r <= total_duplicate_files r)%nat /\
    (dry = true -> deleted_files r = 0%nat) /\
    (dry = false ->
     (forall h l p, (h, l) ∈ duplicates_of cs (fs w) dir rec -> p ∈ l ->
                    can_unlink (fs w) p = true) ->
     deleted_files r = total_duplicate_files r).
Proof.
  destruct (find_and_delete_run cs dir rec s dry w) as (w' & Hrun & _).
  eexists _, w'. split; [exact Hrun|]. simpl.
  set (t := fs w). set (found := duplicates_of cs t dir rec).
  assert (forall h l, (h, l) ∈ found ->
            (1 < length l)%nat /\ NoDup l /\
            exists k, keep_of t s l = Ok k /\ k ∈ l) as Hsets.
  { intros h l Hin.
    destruct (keep_of_found cs t dir rec s h l Hin) as (? & ? & k & ? & ? & _).
    eauto. }
  assert (forall h l p, (h, l) ∈ found -> p ∈ l -> (h, l) ∈ found) as Htriv
    by done.
  clearbody found. clear Hrun Htriv.
  assert ((length found <=
             sum_list ((fun files : list path => (length files - 1)%nat)
                         <$> found.*2))%nat /\
          (length found +
             sum_list ((fun files : list path => (length files - 1)%nat)
                         <$> found.*2) = length (mjoin found.*2))%nat /\
          (length (removed_by t s found) <=
             sum_list ((fun files : list path => (length files - 1)%nat)
                         <$> found.*2))%nat /\
          ((forall h l p, (h, l) ∈ found -> p ∈ l -> can_unlink t p = true) ->
           length (removed_by t s found) =
             sum_list ((fun files : list path => (length files - 1)%nat)
                         <$> found.*2))) as (H1 & H2 & H3 & H4).
  { induction found as [|[h l] found IH].
    { split_and!; done. }
    destruct IH as (I1 & I2 & I3 & I4).
    { intros h' l' Hin. apply (Hsets h' l'). by right. }
    destruct (Hsets h l) as (Hlen & Hnd & k & Hk & Hkin); [by left|].
    destruct (removed_of_length t s l k Hlen Hnd Hk Hkin) as [R1 R2].
    rewrite removed_by_cons. csimpl. rewrite !length_app.
    split_and!; try lia.
    intros Hall. rewrite R2, I4; [done| |].
    - intros h' l' p Hin. apply (Hall h' l' p). by right.
    - intros p Hp. apply (Hall h l p); [by left|done]. }
  split_and!; try done.
  - destruct dry; [simpl; lia|done].
  - by intros ->.
  - by intros ->.
Qed.

Lemma summary_counts_witness :
  (forall h l p, (h, l) ∈ duplicates_of 8192 (fs world1) ["r"] true ->
                 p ∈ l -> can_unlink (fs world1) p = true) /\
  exists r w',
    find_and_delete_duplicates 8192 ["r"] true "keep_first" false world1 =
      (Ok r, w') /\
    (duplicate_sets r <= total_duplicate_files r)%nat /\
    deleted_files r = length (deleted_paths r) /\
    deleted_files r = total_duplicate_files r.
Proof.
  assert (forall h l p, (h, l) ∈ duplicates_of 8192 (fs world1) ["r"] true ->
                        p ∈ l -> can_unlink (fs world1) p = true) as Hall.
  { assert (Forall (fun e : string * list path =>
                      Forall (fun p => can_unlink (fs world1) p = true) e.2)
              (duplicates_of 8192 (fs world1) ["r"] true)) as HF.
    { apply (bool_decide_unpack _). vm_compute. exact I. }
    intros h l p Hin Hp.
    exact (proj1 (Forall_forall _ _)
             (proj1 (Forall_forall _ _) HF (h, l) Hin) p Hp). }
  split; [exact Hall|].
  destruct (summary_counts 8192 ["r"] true "keep_first" false world1)
    as (r & w' & Hrun & Hle & _ & Hlen & _ & _ & Hlive).
  exists r, w'.
  split; [exact Hrun|]. split; [exact Hle|]. split; [exact Hlen|].
  exact (Hlive eq_refl Hall).
Defined.

(** X4.  After a live [find_and_delete_duplicates], every set a second
    scan finds is part of a set of the first scan, under the same hash,
    and contains a file whose [unlink] failed; so when every file of
    the sets found could be unlinked, the second scan finds no
    duplicates at all. *)
Theorem second_scan_finds_only_failures cs dir rec s w :
  exists r w',
    find_and_delete_duplicates cs dir rec s false w = (Ok r, w') /\
    (forall h l, (h, l) ∈ duplicates_of cs (fs w') dir rec ->
       exists l0 p,
         (h, l0) ∈ duplicates_of cs (fs w) dir rec /\
         (forall x, x ∈ l -> x ∈ l0) /\
         p ∈ l /\ can_unlink (fs w) p = false) /\
    ((forall h l p, (h, l) ∈ duplicates_of cs (fs w) dir rec -> p ∈ l ->
                    can_unlink (fs w) p = true) ->
     (find_duplicates cs dir rec w').1 = Ok []).
Proof.
  destruct (find_and_delete_run cs dir rec s false w) as (w' & Hrun & Hfs).
  eexists _, w'. split; [exact Hrun|]. simpl in Hfs.
  set (gone := removed_by (fs w) s (duplicates_of cs (fs w) dir rec)) in *.
  assert (forall q n, fs w' !! q = Some n -> fs w !! q = Some n /\ q ∉ gone)
    as Hold.
  { intros q n. rewrite Hfs. by case_decide. }
  assert (forall p, p ∈ candidates (fs w') dir rec ->
            p ∈ candidates (fs w) dir rec /\ fs w' !! p = fs w !! p /\
            p ∉ gone) as Hcand.
  { intros p (Hd & Hf & Hb)%elem_of_candidates.
    unfold is_dir, is_file in *.
    destruct (fs w' !! dir) as [nd|] eqn:Ed; [|done].
    destruct (fs w' !! p) as [np|] eqn:Ep; [|done].
    destruct (Hold _ _ Ed) as [Ed' _]. destruct (Hold _ _ Ep) as [Ep' Hp].
    split_and!; [|congruence|done].
    apply elem_of_candidates. unfold is_dir, is_file. by rewrite Ed', Ep'. }
  assert (forall h l, (h, l) ∈ duplicates_of cs (fs w') dir rec ->
            exists l0 p,
              (h, l0) ∈ duplicates_of cs (fs w) dir rec /\
              (forall x, x ∈ l -> x ∈ l0) /\
              p ∈ l /\ can_unlink (fs w) p = false) as Hleft.
  { intros h l Hin.
    pose proof (proj1 (duplicates_of_spec _ _ _ _ _ _) Hin) as (Hh & Hl & Hlen).
    assert (NoDup l) as Hnd by (rewrite Hl; apply members_NoDup, candidates_NoDup).
    set (l0 := members (hash_value cs (fs w)) (candidates (fs w) dir rec) h).
    assert (forall x, x ∈ l -> x ∈ l0 /\ (x ∉ gone)) as Hx.
    { intros x Hx. rewrite Hl in Hx.
      apply list_elem_of_filter in Hx as [Hv Hc].
      destruct (Hcand x Hc) as (? & Hsame & ?). split; [|done].
      apply list_elem_of_filter. split; [|done].
      by rewrite <- (hash_value_lookup cs _ _ x Hsame). }
    destruct l as [|p [|q l']]; simpl in Hlen; try lia.
    assert (p <> q) as Hpq.
    { inversion Hnd as [|? ? Hp _]; subst. intros ->. apply Hp. by left. }
    destruct (Hx p) as (Hpl & Hpg); [by left|].
    destruct (Hx q) as (Hql & Hqg); [by right; left|].
    assert ((h, l0) ∈ duplicates_of cs (fs w) dir rec) as Hin0.
    { apply duplicates_of_spec. split_and!; [done..|].
      exact (two_elements l0 p q Hpl Hql Hpq). }
    destruct (keep_of_found cs (fs w) dir rec s h l0 Hin0)
      as (Hlen0 & _ & k & Hk & Hkin & _).
    assert (forall x, x ∈ l0 -> x ∉ gone -> x <> k ->
              can_unlink (fs w) x = false) as Hfail.
    { intros x Hxl Hxg Hxk.
      destruct (can_unlink (fs w) x) eqn:E; [|done].
      exfalso. apply Hxg. apply elem_of_removed_by.
      by exists h, l0, k. }
    exists l0. destruct (decide (p = k)) as [->|Hpk].
    - exists q. split_and!; [done|intros x ?; by apply Hx|by right; left|].
      apply Hfail; auto.
    - exists p. split_and!; [done|intros x ?; by apply Hx|by left|].
      by apply Hfail. }
  split; [done|]. intros Hall.
  destruct (find_duplicates_run cs dir rec w') as [lg ->]. simpl. f_equal.
  destruct (duplicates_of cs (fs w') dir rec) as [|[h l] rest] eqn:E; [done|].
  exfalso. destruct (Hleft h l) as (l0 & p & Hin0 & Hsub & Hp & Hc); [by left|].
  rewrite (Hall h l0 p Hin0 (Hsub p Hp)) in Hc. done.
Qed.

Lemma second_scan_finds_only_failures_witness :
  (forall h l p, (h, l) ∈ duplicates_of 8192 (fs world1) ["r"] true ->
                 p ∈ l -> can_unlink (fs world1) p = true) /\
  exists r w',
    find_and_delete_duplicates 8192 ["r"] true "keep_first" false world1 =
      (Ok r, w') /\
    (find_duplicates 8192 ["r"] true w').1 = Ok [].
Proof.
  assert (forall h l p, (h, l) ∈ duplicates_of 8192 (fs world1) ["r"] true ->
                        p ∈ l -> can_unlink (fs world1) p = true) as Hall.
  { assert (Forall (fun e : string * list path =>
                      Forall (fun p => can_unlink (fs world1) p = true) e.2)
              (duplicates_of 8192 (fs world1) ["r"] true)) as HF.
    { apply (bool_decide_unpack _). vm_compute. exact I. }
    intros h l p Hin Hp.
    exact (proj1 (Forall_forall _ _)
             (proj1 (Forall_forall _ _) HF (h, l) Hin) p Hp). }
  split; [exact Hall|].
  destruct (second_scan_finds_only_failures 8192 ["r"] true "keep_first"
              world1) as (r & w' & Hrun & _ & Hclean).
  exists r, w'. split; [exact Hrun|]. exact (Hclean Hall).
Defined.

Lemma read_loop_whole cs k rest h :
  cs <> 0 -> read_loop cs None k rest h = Ok (h ++ rest).
Proof.
  intros Hcs. destruct (read_loop_no_fault cs k rest h) as [h' Hh'].
  rewrite Hh'. f_equal. by eapply read_loop_full.
Qed.

Lemma read_loop_zero cs err k rest h :
  cs = 0 ->
  read_loop cs err k rest h =
    if decide (err = Some k) then Raise OSError else Ok h.
Proof.
  intros Hcs. funelim (read_loop cs err k rest h); try rewrite <- Heqcall.
  all: try (by rewrite Heq).
  all: exfalso; subst; unfold read in *; simpl in *;
    match goal with E : (take 0 _, _) = (_ :: _, _) |- _ =>
      inversion E as [[H1 H2]]; by rewrite take_0 in H1 end.
Qed.

Lemma same_fingerprint_grouped cs t dir rec p q h :
  p ∈ candidates t dir rec -> q ∈ candidates t dir rec -> p <> q ->
  fingerprint cs t p = Ok h -> fingerprint cs t q = Ok h ->
  exists l, (h, l) ∈ duplicates_of cs t dir rec /\ p ∈ l /\ q ∈ l.
Proof.
  intros Hp Hq Hne Hhp Hhq.
  assert (h <> EmptyString) as Hh by by eapply fingerprint_nonempty.
  set (l := members (hash_value cs t) (candidates t dir rec) h).
  assert (p ∈ l) as Hpl.
  { apply list_elem_of_filter. split; [|done]. by apply hash_value_ok. }
  assert (q ∈ l) as Hql.
  { apply list_elem_of_filter. split; [|done]. by apply hash_value_ok. }
  exists l. split_and!; [|done..]. apply duplicates_of_spec.
  split; [exact Hh|]. split; [reflexivity|].
  exact (two_elements l p q Hpl Hql Hne).
Qed.

Lemma group_ext hv1 hv2 files d :
  (forall p, p ∈ files -> hv1 p = hv2 p) ->
  group hv1 files d = group hv2 files d.
Proof.
  revert d. induction files as [|p files IH]; intros d H; [done|].
  unfold group in *. simpl. unfold add_file at 2 4.
  rewrite (H p) by by left. apply IH. intros q Hq. apply H. by right.
Qed.

(** X5.  The chunk size does not matter among the usual ones: where no
    read of a file raises part-way, two chunk sizes between one byte
    and one mebibyte give [_calculate_hash] the same value on every
    path and [find_duplicates] the same mapping. *)
Theorem chunk_size_is_irrelevant cs1 cs2 dir rec w :
  usual_chunk_size cs1 -> usual_chunk_size cs2 -> no_read_fault (fs w) ->
  (forall p, (_calculate_hash cs1 p w).1 = (_calculate_hash cs2 p w).1) /\
  (find_duplicates cs1 dir rec w).1 = (find_duplicates cs2 dir rec w).1.
Proof.
  intros [Hp1 _] [Hp2 _] Hnf.
  assert (cs1 <> 0) as H1 by lia. assert (cs2 <> 0) as H2 by lia.
  assert (forall p, fingerprint cs1 (fs w) p = fingerprint cs2 (fs w) p) as Hfp.
  { intros p. rewrite !fingerprint_cases.
    destruct (fs w !! p) as [[[d [e|] [k|]| |] m u]|] eqn:E; try done.
    - by apply Hnf in E.
    - by rewrite !read_loop_whole. }
  assert (forall p, hash_value cs1 (fs w) p = hash_value cs2 (fs w) p) as Hhv.
  { intros p. unfold hash_value. by rewrite Hfp. }
  split.
  - intros p. by rewrite !calculate_hash_value, Hhv.
  - destruct (find_duplicates_run cs1 dir rec w) as [lg1 ->].
    destruct (find_duplicates_run cs2 dir rec w) as [lg2 ->].
    simpl. f_equal. unfold duplicates_of.
    by rewrite (group_ext _ (hash_value cs2 (fs w))).
Qed.

Lemma chunk_size_is_irrelevant_witness :
  usual_chunk_size 1 /\ usual_chunk_size 8192 /\ no_read_fault (fs world2) /\
  (find_duplicates 1 ["d"] true world2).1 =
    (find_duplicates 8192 ["d"] true world2).1.
Proof.
  assert (usual_chunk_size 1) as H1 by (unfold usual_chunk_size; lia).
  assert (usual_chunk_size 8192) as H2 by (unfold usual_chunk_size; lia).
  assert (no_read_fault (fs world2)) as H3.
  { apply (bool_decide_unpack (no_read_fault (fs world2))).
    vm_compute. exact I. }
  split; [exact H1|]. split; [exact H2|]. split; [exact H3|].
  exact (proj2 (chunk_size_is_irrelevant 1 8192 ["d"] true world2 H1 H2 H3)).
Defined.

(** X6.  With chunk size 0 the first read returns nothing and the loop
    stops at once: every file that opens gets the hash of the empty
    file, whatever it holds, so any two distinct scanned files that open
    are reported as duplicates of each other. *)
Theorem zero_chunk_size_conflates_files dir rec w :
  (forall p s, (hash_body 0 p w).1 = Ok s -> s = MD5.hexdigest_of []) /\
  (forall p q,
     p ∈ candidates (fs w) dir rec -> q ∈ candidates (fs w) dir rec ->
     p <> q ->
     (exists s, (hash_body 0 p w).1 = Ok s) ->
     (exists s, (hash_body 0 q w).1 = Ok s) ->
     exists d l, (find_duplicates 0 dir rec w).1 = Ok d /\
                 (MD5.hexdigest_of [], l) ∈ d /\ p ∈ l /\ q ∈ l).
Proof.
  assert (forall p s, (hash_body 0 p w).1 = Ok s -> s = MD5.hexdigest_of [])
    as Hzero.
  { intros p s. rewrite hash_body_run. simpl. rewrite fingerprint_cases.
    destruct (fs w !! p) as [[[d [e|] r| |] m u]|]; try done.
    rewrite read_loop_zero by done. case_decide; [done|]. by intros [= <-]. }
  split; [done|]. intros p q Hp Hq Hne [sp Hsp] [sq Hsq].
  rewrite (Hzero p sp Hsp) in Hsp. rewrite (Hzero q sq Hsq) in Hsq.
  rewrite hash_body_run in Hsp, Hsq. simpl in Hsp, Hsq.
  destruct (find_duplicates_run 0 dir rec w) as [lg Hrun].
  destruct (same_fingerprint_grouped 0 (fs w) dir rec p q _ Hp Hq Hne Hsp Hsq)
    as (l & ? & ? & ?).
  exists (duplicates_of 0 (fs w) dir rec), l. by rewrite Hrun.
Qed.

Lemma zero_chunk_size_conflates_files_witness :
  fs world1 !! ["r"; "A"] = Some (plain "x" 1) /\
  fs world1 !! ["r"; "C"] = Some (plain "y" 3) /\
  exists d l,
    (find_duplicates 0 ["r"] false world1).1 = Ok d /\
    (MD5.hexdigest_of [], l) ∈ d /\ ["r"; "A"] ∈ l /\ ["r"; "C"] ∈ l.
Proof.
  split; [vm_compute; reflexivity|]. split; [vm_compute; reflexivity|].
  assert (candidates (fs world1) ["r"] false =
            [["r"; "E"]; ["r"; "D"]; ["r"; "C"]; ["r"; "B"]; ["r"; "A"]])
    as Hc by (vm_compute; reflexivity).
  apply (proj2 (zero_chunk_size_conflates_files ["r"] false world1)
           ["r"; "A"] ["r"; "C"]).
  - rewrite Hc. do 4 right. left.
  - rewrite Hc. do 2 right. left.
  - discriminate.
  - eexists. vm_compute. reflexivity.
  - eexists. vm_compute. reflexivity.
Defined.

(** X7.  Files with the same bytes end in the same set, keyed by the MD5
    digest of those bytes, whatever their names and modification times
    (for a usual chunk size and files that open and read). *)
Theorem identical_files_are_grouped cs dir rec w p q data mp up mq uq :
  usual_chunk_size cs -> p <> q ->
  p ∈ candidates (fs w) dir rec -> q ∈ candidates (fs w) dir rec ->
  fs w !! p = Some (Node (Regular data None None) mp up) ->
  fs w !! q = Some (Node (Regular data None None) mq uq) ->
  exists d l,
    (find_duplicates cs dir rec w).1 = Ok d /\
    (MD5.hexdigest_of data, l) ∈ d /\ p ∈ l /\ q ∈ l.
Proof.
  intros [Hpos _] Hne Hp Hq Ep Eq. assert (cs <> 0) as Hcs by lia.
  assert (forall x m u, fs w !! x = Some (Node (Regular data None None) m u) ->
            fingerprint cs (fs w) x = Ok (MD5.hexdigest_of data)) as Hfp.
  { intros x m u E. rewrite fingerprint_cases, E, read_loop_whole by done.
    done. }
  destruct (find_duplicates_run cs dir rec w) as [lg Hrun].
  destruct (same_fingerprint_grouped cs (fs w) dir rec p q _ Hp Hq Hne
              (Hfp _ _ _ Ep) (Hfp _ _ _ Eq)) as (l & ? & ? & ?).
  exists (duplicates_of cs (fs w) dir rec), l. by rewrite Hrun.
Qed.

Lemma identical_files_are_grouped_witness :
  usual_chunk_size 8192 /\
  exists d l,
    (find_duplicates 8192 ["d"] true world2).1 = Ok d /\
    (MD5.hexdigest_of (bytes_of "y"), l) ∈ d /\
    ["d"; "e"] ∈ l /\ ["d"; "f"] ∈ l.
Proof.
  assert (usual_chunk_size 8192) as Hcs by (unfold usual_chunk_size; lia).
  split; [exact Hcs|].
  apply (identical_files_are_grouped 8192 ["d"] true world2
           ["d"; "e"] ["d"; "f"] (bytes_of "y") 1 None 2 None).
  - exact Hcs.
  - discriminate.
  - apply elem_of_candidates. split_and!; [vm_compute; reflexivity..|].
    apply (bool_decide_unpack (below ["d"] ["d"; "e"])). vm_compute. exact I.
  - apply elem_of_candidates. split_and!; [vm_compute; reflexivity..|].
    apply (bool_decide_unpack (below ["d"] ["d"; "f"])). vm_compute. exact I.
  - vm_compute. reflexivity.
  - vm_compute. reflexivity.
Defined.

Lemma sublist_filter_mono {A} (P : A -> Prop) `{!forall x, Decision (P x)}
    (l1 l2 : list A) :
  l1 `sublist_of` l2 -> filter P l1 `sublist_of` filter P l2.
Proof.
  induction 1 as [|x l1 l2 _ IH|x l1 l2 _ IH]; [done| |];
    rewrite ?filter_cons; destruct (decide (P x)); try done.
  - by apply sublist_skip.
  - by apply sublist_cons.
Qed.

Lemma candidates_flat_sublist t dir :
  candidates t dir false `sublist_of` candidates t dir true.
Proof.
  unfold candidates, glob, rglob. apply sublist_filter_mono.
  destruct (is_dir t dir); [|done]. apply filter_sublist_impl.
  intros p [Hp Hl]. split; [done|]. lia.
Qed.

(** X8.  A recursive scan finds everything a flat scan finds: each set
    of the flat scan is, in the same order, part of the set the
    recursive scan returns for the same hash. *)
Theorem recursive_scan_covers_flat cs dir w :
  exists flat deep,
    (find_duplicates cs dir false w).1 = Ok flat /\
    (find_duplicates cs dir true w).1 = Ok deep /\
    forall h l, (h, l) ∈ flat ->
      exists l', (h, l') ∈ deep /\ l `sublist_of` l'.
Proof.
  destruct (find_duplicates_run cs dir false w) as [lg1 ->].
  destruct (find_duplicates_run cs dir true w) as [lg2 ->].
  eexists _, _. split_and!; [done..|].
  intros h l (Hh & -> & Hlen)%duplicates_of_spec.
  exists (members (hash_value cs (fs w)) (candidates (fs w) dir true) h).
  assert (members (hash_value cs (fs w)) (candidates (fs w) dir false) h
          `sublist_of`
          members (hash_value cs (fs w)) (candidates (fs w) dir true) h) as Hsub
    by apply sublist_filter_mono, candidates_flat_sublist.
  split; [|done]. apply duplicates_of_spec. split_and!; [done..|].
  apply sublist_length in Hsub. lia.
Qed.

Lemma recursive_scan_covers_flat_witness :
  exists flat deep,
    (find_duplicates 8192 ["r"] false world1).1 = Ok flat /\
    (find_duplicates 8192 ["r"] true world1).1 = Ok deep /\
    forall h l, (h, l) ∈ flat ->
      exists l', (h, l') ∈ deep /\ l `sublist_of` l'.
Proof. exact (recursive_scan_covers_flat 8192 ["r"] world1). Defined.

Lemma extremum_stat_raise better best bv l w e :
  (extremum better stat_mtime best bv l w).1 = Raise e ->
  e = FileNotFoundError /\ exists p, p ∈ l /\ fs w !! p = None.
Proof.
  revert best bv. induction l as [|y l IH]; intros best bv H; [done|].
  cbn [extremum] in H. unfold mbind, M_bind, stat_mtime in H.
  destruct (fs w !! y) as [n|] eqn:E.
  - destruct (better (st_mtime n) bv); apply IH in H as (-> & p & ? & ?);
      (split; [done|]; exists p; split; [by right|done]).
  - simpl in H. inversion H. split; [done|]. exists y. split; [by left|done].
Qed.

Lemma choose_keep_raise s paths w e :
  paths <> [] -> (choose_keep s paths w).1 = Raise e ->
  e = FileNotFoundError /\ uses_mtime s /\
  exists p, p ∈ paths /\ fs w !! p = None.
Proof.
  intros Hne H.
  destruct (decide (uses_mtime s)) as [Hs|Hs].
  - assert (forall better,
      (match paths with
       | [] => raise ValueError
       | x :: l' => v ← stat_mtime x; extremum better stat_mtime x v l'
       end w).1 = Raise e ->
      e = FileNotFoundError /\ exists p, p ∈ paths /\ fs w !! p = None)
      as Hgen.
    { intros better Hb. destruct paths as [|x l]; [done|].
      unfold mbind, M_bind, stat_mtime in Hb.
      destruct (fs w !! x) as [n|] eqn:E.
      - apply extremum_stat_raise in Hb as (-> & p & ? & ?).
        split; [done|]. exists p. split; [by right|done].
      - inversion Hb. split; [done|]. exists x. split; [by left|done]. }
    unfold choose_keep, uses_mtime in *.
    repeat case_decide; try (destruct Hs; congruence).
    + destruct (Hgen Z.ltb H) as [-> ?]. done.
    + destruct (Hgen Z.gtb H) as [-> ?]. done.
  - exfalso.
    destruct (choose_keep_agree s paths w w Hne) as (k & Hk & _); [done|].
    congruence.
Qed.

Lemma resolve_raise s dry items acc w e w' :
  resolve s dry items acc w = (Raise e, w') ->
  e = FileNotFoundError /\ uses_mtime s /\ fs w' ⊆ fs w /\
  exists h paths p,
    (h, paths) ∈ items /\ (1 < length paths)%nat /\ p ∈ paths /\
    fs w' !! p = None.
Proof.
  revert acc w. induction items as [|[h paths] items IH]; intros acc w H.
  { done. }
  cbn [resolve] in H. destruct (length paths <=? 1)%nat eqn:E.
  { destruct (IH _ _ H) as (-> & ? & ? & h' & l' & p & ? & ?).
    split_and!; try done. exists h', l', p. split; [by right|done]. }
  apply Nat.leb_gt in E. unfold mbind at 1, M_bind at 1 in H.
  pose proof (choose_keep_world s paths w) as Hw1.
  destruct (choose_keep s paths w) as [[k|e1] w1] eqn:Ek; simpl in Hw1.
  - unfold mbind at 1, M_bind at 1 in H.
    destruct (delete_others_any dry k paths acc w1)
      as (new & w2 & Hrun & _ & Hsub & _).
    rewrite Hrun in H.
    destruct (IH _ _ H) as (-> & ? & Hsub' & h' & l' & p & ? & ?).
    split_and!; try done.
    + rewrite <- Hw1. by etrans.
    + exists h', l', p. split; [by right|done].
  - inversion H; subst e1 w1.
    destruct (choose_keep_raise s paths w e) as (-> & Hs & p & Hp & Hnone).
    { by apply length_gt_1_nonempty. }
    { by rewrite Ek. }
    split_and!; try done.
    + by rewrite Hw1.
    + exists h, paths, p. rewrite Hw1. split_and!; try done. by left.
Qed.

(** X9.  An exception leaves [delete_duplicates] only through the
    [stat] of [keep_oldest] and [keep_newest], which is outside the
    [try]: when the call raises, the policy is one of the two, the
    exception is the one [stat] raises on a file listed in a set of two
    or more, and the tree has only lost entries, so what was deleted
    before stays deleted.  Under every other policy name the call
    returns, whatever the sets are. *)
Theorem delete_duplicates_raises_only_on_stat s dry items w :
  (forall e w', delete_duplicates items s dry w = (Raise e, w') ->
     uses_mtime s /\ fs w' ⊆ fs w /\
     exists h paths p,
       (h, paths) ∈ items /\ (1 < length paths)%nat /\ p ∈ paths /\
       (stat_mtime p w').1 = Raise e) /\
  (~ uses_mtime s ->
   exists deleted w', delete_duplicates items s dry w = (Ok deleted, w')).
Proof.
  split.
  - intros e w' H.
    apply resolve_raise in H as (-> & Hs & Hsub & h & paths & p & ? & ? & ? & Hp).
    split_and!; [done..|]. exists h, paths, p. split_and!; [done..|].
    unfold stat_mtime. by rewrite Hp.
  - intros Hs. destruct (delete_duplicates items s dry w) as [[dl|e] w'] eqn:E.
    + eauto.
    + apply resolve_raise in E as (_ & ? & _). done.
Qed.

Lemma delete_duplicates_raises_only_on_stat_witness :
  (exists e w',
     delete_duplicates sets3 "keep_newest" false world2 = (Raise e, w') /\
     uses_mtime "keep_newest" /\
     exists h paths p,
       (h, paths) ∈ sets3 /\ (1 < length paths)%nat /\ p ∈ paths /\
       (stat_mtime p w').1 = Raise e) /\
  ~ uses_mtime "keep_first" /\
  exists deleted w',
    delete_duplicates sets3 "keep_first" false world2 = (Ok deleted, w').
Proof.
  split.
  - exists FileNotFoundError,
      (delete_duplicates sets3 "keep_newest" false world2).2.
    assert (delete_duplicates sets3 "keep_newest" false world2 =
              (Raise FileNotFoundError,
               (delete_duplicates sets3 "keep_newest" false world2).2)) as Hrun
      by (vm_compute; reflexivity).
    split; [exact Hrun|].
    destruct (proj1 (delete_duplicates_raises_only_on_stat "keep_newest" false
                       sets3 world2) _ _ Hrun) as (Hs & _ & Hstat).
    split; [exact Hs|exact Hstat].
  - assert (~ uses_mtime "keep_first") as Hs by (intros [H|H]; discriminate H).
    split; [exact Hs|].
    exact (proj2 (delete_duplicates_raises_only_on_stat "keep_first" false
                    sets3 world2) Hs).
Defined.

Lemma omap_ext_all {A B} (f g : A -> option B) (l : list A) :
  (forall x, f x = g x) -> omap f l = omap g l.
Proof.
  intros H. induction l as [|x l IH]; [done|]. csimpl. by rewrite H, IH.
Qed.

Lemma scan_log cs files d w :
  log (scan cs files d w).2 =
    log w ++
    omap (fun p => match fingerprint cs (fs w) p with
                   | Raise e => Some (ERROR, HashError p e)
                   | Ok _ => None
                   end) files.
Proof.
  revert d w. induction files as [|p files IH]; intros d w.
  { simpl. by rewrite app_nil_r. }
  cbn [scan omap list_omap]. unfold mbind at 1, M_bind at 1.
  rewrite calculate_hash_run.
  destruct (fingerprint cs (fs w) p) as [s|e] eqn:E.
  - destruct (decide (s = EmptyString)); rewrite IH; done.
  - destruct (decide (EmptyString = EmptyString)); [|done].
    rewrite IH. simpl. by rewrite <- app_assoc.
Qed.

(** X10.  What [find_duplicates] logs: the number of files it is about
    to scan, unreadable ones included; then one error record for each
    file whose reading raised, in scan order, carrying the exception;
    then the number of sets found.  Nothing else is logged. *)
Theorem find_duplicates_log cs dir rec w :
  log (find_duplicates cs dir rec w).2 =
    log w ++
    [(INFO, Scanning (length (candidates (fs w) dir rec)))] ++
    omap (fun p => match (hash_body cs p w).1 with
                   | Raise e => Some (ERROR, HashError p e)
                   | Ok _ => None
                   end) (candidates (fs w) dir rec) ++
    [(INFO, Found (length (duplicates_of cs (fs w) dir rec)))].
Proof.
  unfold find_duplicates. run.
  set (files := candidates (fs w) dir rec).
  set (w1 := World (fs w) (log w ++ [(INFO, Scanning (length files))])).
  pose proof (scan_log cs files [] w1) as Hlog.
  destruct (scan_run cs files [] w1) as [lg Hrun].
  rewrite Hrun in Hlog |- *. simpl in *. subst lg.
  rewrite (omap_ext_all (fun p => match (hash_body cs p w).1 with
                                  | Raise e => Some (ERROR, HashError p e)
                                  | Ok _ => None
                                  end)
                        (fun p => match fingerprint cs (fs w) p with
                                  | Raise e => Some (ERROR, HashError p e)
                                  | Ok _ => None
                                  end));
    [|intros p; by rewrite hash_body_run].
  by rewrite <- !app_assoc.
Qed.

(** ** What the deletion loops log *)

Lemma would_delete_app l1 l2 :
  would_delete (l1 ++ l2) = would_delete l1 ++ would_delete l2.
Proof. apply omap_app. Qed.

Lemma warnings_app l1 l2 : warnings (l1 ++ l2) = (warnings l1 + warnings l2)%nat.
Proof. unfold warnings. by rewrite filter_app, length_app. Qed.

Lemma delete_others_log dry keep paths acc w :
  let w' := (delete_others dry keep paths acc w).2 in
  would_delete (log w') =
    would_delete (log w) ++
    (if dry then filter (fun p => p <> keep) paths else []) /\
  warnings (log w') = warnings (log w).
Proof.
  revert acc w. induction paths as [|p paths IH]; intros acc w; simpl.
  { split; [|done]. destruct dry; by rewrite app_nil_r. }
  rewrite filter_cons. destruct (decide (p = keep)) as [->|Hne].
  - destruct (decide (keep <> keep)) as [?|_]; [done|]. run.
    destruct (IH acc (World (fs w) (log w ++ [(DEBUG, Keeping keep)])))
      as [-> ->]. simpl.
    rewrite would_delete_app, warnings_app. simpl.
    by rewrite app_nil_r, Nat.add_0_r.
  - destruct (decide (p <> keep)) as [_|?]; [|done]. destruct dry.
    + run. destruct (IH acc (World (fs w) (log w ++ [(INFO, WouldDelete p)])))
        as [-> ->]. simpl.
      rewrite would_delete_app, warnings_app. simpl.
      by rewrite <- app_assoc, Nat.add_0_r.
    + run. destruct (can_unlink (fs w) p) eqn:Hc.
      * rewrite unlink_ok by done. simpl.
        destruct (IH (acc ++ [p])
                    (World (delete p (fs w)) (log w ++ [(INFO, Deleted p)])))
          as [-> ->]. simpl.
        rewrite would_delete_app, warnings_app. simpl.
        by rewrite !app_nil_r, Nat.add_0_r.
      * destruct (unlink_fails p w Hc) as [e ->]. simpl.
        destruct (IH acc (World (fs w) (log w ++ [(ERROR, DeleteError p e)])))
          as [-> ->]. simpl.
        rewrite would_delete_app, warnings_app. simpl.
        by rewrite !app_nil_r, Nat.add_0_r.
Qed.

Lemma py_min_world {A} (l : list A) key w :
  (forall x w, (key x w).2 = w) -> (py_min l key w).2 = w.
Proof.
  intros Hkey. destruct l as [|x l]; [done|]. unfold py_min, mbind, M_bind.
  pose proof (Hkey x w) as Hx.
  destruct (key x w) as [[v|e] w1]; simpl in Hx; subst w1; [|done].
  by apply extremum_world.
Qed.

Lemma py_max_world {A} (l : list A) key w :
  (forall x w, (key x w).2 = w) -> (py_max l key w).2 = w.
Proof.
  intros Hkey. destruct l as [|x l]; [done|]. unfold py_max, mbind, M_bind.
  pose proof (Hkey x w) as Hx.
  destruct (key x w) as [[v|e] w1]; simpl in Hx; subst w1; [|done].
  by apply extremum_world.
Qed.

Lemma choose_keep_known s paths w :
  known_strategy s -> (choose_keep s paths w).2 = w.
Proof.
  intros Hs. unfold choose_keep. repeat case_decide.
  - apply py_min_world, stat_mtime_world.
  - apply py_max_world, stat_mtime_world.
  - by apply py_min_world.
  - by destruct paths.
  - exfalso. unfold known_strategy in Hs.
    repeat (apply elem_of_cons in Hs as [Hs|Hs]; [done|]).
    by apply elem_of_nil in Hs.
Qed.

Lemma choose_keep_unknown s p paths w :
  ~ known_strategy s ->
  choose_keep s (p :: paths) w =
    (Ok p, World (fs w) (log w ++ [(WARNING, UnknownStrategy s)])) /\
  choose_keep "keep_first" (p :: paths) w = (Ok p, w).
Proof.
  intros Hs. split; [|done]. unfold choose_keep.
  repeat case_decide; try done; exfalso; apply Hs; unfold known_strategy;
    subst; set_solver.
Qed.

Lemma choose_keep_would_delete s paths w :
  would_delete (log (choose_keep s paths w).2) = would_delete (log w).
Proof.
  destruct (decide (known_strategy s)) as [Hs|Hs].
  - by rewrite choose_keep_known.
  - destruct paths as [|p paths].
    + unfold choose_keep. by repeat case_decide.
    + destruct (choose_keep_unknown s p paths w Hs) as [-> _]. simpl.
      rewrite would_delete_app. simpl. by rewrite app_nil_r.
Qed.

Lemma announced_by_cons t s h paths (items : dict) :
  announced_by t s ((h, paths) :: items) =
    announced_of t s paths ++ announced_by t s items.
Proof. done. Qed.

Lemma resolve_dry_log s items acc w t0 :
  fs w = t0 ->
  (uses_mtime s -> forall e p, e ∈ items -> p ∈ e.2 -> is_Some (t0 !! p)) ->
  would_delete (log (resolve s true items acc w).2) =
    would_delete (log w) ++ announced_by t0 s items.
Proof.
  revert acc w. induction items as [|[h paths] items IH]; intros acc w Ht Hex.
  { simpl. by rewrite app_nil_r. }
  rewrite announced_by_cons. cbn [resolve].
  destruct (length paths <=? 1)%nat eqn:E.
  { assert (announced_of t0 s paths = []) as ->
      by (unfold announced_of; by rewrite E).
    apply IH; [done|]. intros Hs e p He. apply (Hex Hs). by right. }
  unfold mbind at 1, M_bind at 1.
  pose proof (choose_keep_world s paths w) as Hw1.
  pose proof (choose_keep_would_delete s paths w) as Hl1.
  destruct (choose_keep_agree s paths w (World t0 []))
    as (k & Hk & Hk0 & _).
  { apply length_gt_1_nonempty. by apply Nat.leb_gt. }
  { intros Hs p Hp. simpl. rewrite Ht. split; [|done].
    apply (Hex Hs (h, paths)); [by left|done]. }
  fold (keep_of t0 s paths) in Hk0.
  assert (announced_of t0 s paths = filter (fun p => p <> k) paths) as ->
    by (unfold announced_of; by rewrite E, Hk0).
  destruct (choose_keep s paths w) as [o w1]. simpl in *. subst o.
  unfold mbind at 1, M_bind at 1.
  pose proof (delete_others_log true k paths acc w1) as [Hl2 _].
  destruct (delete_others_any true k paths acc w1)
    as (new & w2 & Hrun & _ & _ & Hdry).
  destruct Hdry as [-> Hw2]; [done|]. rewrite Hrun in Hl2 |- *. simpl in Hl2.
  rewrite IH; [|congruence|].
  - by rewrite Hl2, Hl1, <- app_assoc.
  - intros Hs e p He. apply (Hex Hs). by right.
Qed.

Lemma filter_join {A} (P : A -> Prop) `{!forall x, Decision (P x)}
    (ls : list (list A)) :
  filter P (mjoin ls) = mjoin (filter P <$> ls).
Proof.
  induction ls as [|l ls IH]; [done|]. csimpl. by rewrite filter_app, IH.
Qed.

Lemma removed_of_announced t s l :
  removed_of t s l =
    filter (fun p => can_unlink t p = true) (announced_of t s l).
Proof.
  unfold removed_of, announced_of. destruct (length l <=? 1)%nat; [done|].
  destruct (keep_of t s l) as [k|]; [|done].
  rewrite list_filter_filter. apply list_filter_iff. intros p. tauto.
Qed.

Lemma removed_by_announced t s (items : dict) :
  removed_by t s items =
    filter (fun p => can_unlink t p = true) (announced_by t s items).
Proof.
  induction items as [|[h l] items IH]; [done|].
  rewrite removed_by_cons, announced_by_cons, filter_app.
  by rewrite removed_of_announced, IH.
Qed.

(** X11.  A dry run is a faithful preview: the paths it logs as "would
    delete" are, set after set, the members other than the survivor,
    and the live run on the same tree deletes exactly those of them
    whose [unlink] succeeds, in the same order. *)
Theorem dry_run_announces_live_deletions s items w :
  (uses_mtime s -> forall e p, e ∈ items -> p ∈ e.2 -> is_Some (fs w !! p)) ->
  NoDup (mjoin items.*2) ->
  exists wd wl,
    delete_duplicates items s true w = (Ok [], wd) /\
    would_delete (log wd) =
      would_delete (log w) ++ announced_by (fs w) s items /\
    delete_duplicates items s false w =
      (Ok (filter (fun p => can_unlink (fs w) p = true)
             (announced_by (fs w) s items)), wl).
Proof.
  intros Hex Hnd.
  destruct (delete_duplicates_dry s items w Hex) as (wd & Hdry & _).
  destruct (delete_duplicates_live s items w Hnd Hex) as (wl & Hlive & _).
  exists wd, wl. split_and!; [done| |by rewrite <- removed_by_announced].
  pose proof (resolve_dry_log s items [] w (fs w) eq_refl Hex) as Hlog.
  unfold delete_duplicates in Hdry. by rewrite Hdry in Hlog.
Qed.

Lemma dry_run_announces_live_deletions_witness :
  NoDup (mjoin sets3.*2) /\
  exists wd wl,
    delete_duplicates sets3 "keep_first" true world2 = (Ok [], wd) /\
    would_delete (log wd) =
      would_delete (log world2) ++ announced_by (fs world2) "keep_first" sets3 /\
    delete_duplicates sets3 "keep_first" false world2 =
      (Ok (filter (fun p => can_unlink (fs world2) p = true)
             (announced_by (fs world2) "keep_first" sets3)), wl).
Proof.
  assert (NoDup (mjoin sets3.*2)) as Hnd.
  { apply (bool_decide_unpack (NoDup (mjoin sets3.*2))). vm_compute. exact I. }
  split; [exact Hnd|].
  apply (dry_run_announces_live_deletions "keep_first" sets3 world2);
    [|exact Hnd].
  intros [Hs|Hs]; discriminate Hs.
Defined.

Example preview_of_sets3 :
  announced_by (fs world2) "keep_first" sets3 =
    [["d"; "z"]; ["d"; "b"]; ["d"; "c"]; ["d"; "f"]] /\
  filter (fun p => can_unlink (fs world2) p = true)
    (announced_by (fs world2) "keep_first" sets3) = [["d"; "c"]; ["d"; "f"]].
Proof. split; vm_compute; reflexivity. Qed.

(** The loops look at the tree only, never at the log. *)
Lemma delete_others_sim dry keep paths acc w1 w2 :
  fs w1 = fs w2 ->
  (delete_others dry keep paths acc w1).1 =
    (delete_others dry keep paths acc w2).1 /\
  fs (delete_others dry keep paths acc w1).2 =
    fs (delete_others dry keep paths acc w2).2.
Proof.
  revert acc w1 w2. induction paths as [|p paths IH]; intros acc w1 w2 Hfs.
  { done. }
  cbn [delete_others]. destruct (decide (p = keep)) as [->|Hne].
  - run. by apply IH.
  - destruct dry.
    + run. by apply IH.
    + run. destruct (can_unlink (fs w1) p) eqn:Hc.
      * rewrite !unlink_ok by congruence. simpl. apply IH. simpl. congruence.
      * destruct (unlink_fails p w1 Hc) as [e1 ->].
        destruct (unlink_fails p w2) as [e2 ->]; [congruence|].
        simpl. by apply IH.
Qed.

Lemma resolve_unknown s dry items acc w1 w2 :
  ~ known_strategy s -> fs w1 = fs w2 ->
  (resolve s dry items acc w1).1 =
    (resolve "keep_first" dry items acc w2).1 /\
  fs (resolve s dry items acc w1).2 =
    fs (resolve "keep_first" dry items acc w2).2 /\
  warnings (log (resolve s dry items acc w1).2) =
    (warnings (log w1) +
     length (filter (fun e : string * list path => (1 < length e.2)%nat)
               items))%nat /\
  warnings (log (resolve "keep_first" dry items acc w2).2) =
    warnings (log w2).
Proof.
  intros Hs. revert acc w1 w2.
  induction items as [|[h paths] items IH]; intros acc w1 w2 Hfs.
  { simpl. split_and!; try done; lia. }
  cbn [resolve]. rewrite filter_cons. simpl.
  destruct (length paths <=? 1)%nat eqn:E.
  { apply Nat.leb_le in E.
    destruct (decide (1 < length paths)%nat); [lia|]. by apply IH. }
  apply Nat.leb_gt in E.
  destruct (decide (1 < length paths)%nat); [|lia].
  destruct paths as [|p paths]; [simpl in E; lia|].
  unfold mbind, M_bind.
  destruct (choose_keep_unknown s p paths w1 Hs) as [-> _].
  destruct (choose_keep_unknown s p paths w2 Hs) as [_ ->].
  set (w1' := World (fs w1) (log w1 ++ [(WARNING, UnknownStrategy s)])).
  destruct (delete_others_sim dry p (p :: paths) acc w1' w2 Hfs) as [Ho Hf].
  pose proof (delete_others_log dry p (p :: paths) acc w1') as [_ Hc1].
  pose proof (delete_others_log dry p (p :: paths) acc w2) as [_ Hc2].
  destruct (delete_others_any dry p (p :: paths) acc w1')
    as (n1 & v1 & R1 & _).
  destruct (delete_others_any dry p (p :: paths) acc w2)
    as (n2 & v2 & R2 & _).
  rewrite R1 in Ho, Hf, Hc1 |- *. rewrite R2 in Ho, Hf, Hc2 |- *.
  cbn [fst snd] in Ho, Hf, Hc1, Hc2 |- *.
  assert (n1 = n2) as ->.
  { apply (app_inv_head acc). by injection Ho. }
  destruct (IH (acc ++ n2) v1 v2 Hf) as (I1 & I2 & I3 & I4).
  split_and!; try done.
  - rewrite I3, Hc1. unfold w1'. cbn [log].
    rewrite warnings_app.
    change (warnings [(WARNING, UnknownStrategy s)]) with 1%nat.
    cbn [length]. lia.
  - by rewrite I4, Hc2.
Qed.

(** X12.  A policy name that is none of the four behaves as
    [keep_first]: the same list is returned and the same tree is left,
    dry or live; the only difference is one warning logged for every
    set of two or more files, where [keep_first] logs none. *)
Theorem unknown_strategy_keeps_first s dry items w :
  ~ known_strategy s ->
  (delete_duplicates items s dry w).1 =
    (delete_duplicates items "keep_first" dry w).1 /\
  fs (delete_duplicates items s dry w).2 =
    fs (delete_duplicates items "keep_first" dry w).2 /\
  warnings (log (delete_duplicates items s dry w).2) =
    (warnings (log w) +
     length (filter (fun e : string * list path => (1 < length e.2)%nat)
               items))%nat /\
  warnings (log (delete_duplicates items "keep_first" dry w).2) =
    warnings (log w).
Proof. intros Hs. by apply resolve_unknown. Qed.

Lemma unknown_strategy_keeps_first_witness :
  ~ known_strategy "keep_largest" /\
  (delete_duplicates sets2 "keep_largest" false world2).1 =
    (delete_duplicates sets2 "keep_first" false world2).1 /\
  warnings (log (delete_duplicates sets2 "keep_largest" false world2).2) =
    (warnings (log world2) +
     length (filter (fun e : string * list path => (1 < length e.2)%nat)
               sets2))%nat.
Proof.
  assert (~ known_strategy "keep_largest") as Hs.
  { apply (bool_decide_unpack (~ known_strategy "keep_largest")).
    vm_compute. exact I. }
  split; [exact Hs|].
  destruct (unknown_strategy_keeps_first "keep_largest" false sets2 world2 Hs)
    as (H1 & _ & H3 & _).
  split; [exact H1|exact H3].
Defined.

(** * The file organizer *)

(** ** The table of categories *)

Lemma first_category_None table extension :
  Organizer.first_category table extension = None <->
  forall c l, (c, l) ∈ table -> extension ∉ l.
Proof.
  induction table as [|[c l] table IH]; simpl.
  { split; [|done]. by intros _ c l ?%elem_of_nil. }
  case_bool_decide as Hin.
  - split; [done|]. intros H. destruct (H c l); [left|done].
  - rewrite IH. split.
    + intros H c' l' [[= -> ->]|?]%elem_of_cons; eauto.
    + intros H c' l' ?. apply (H c' l'). by right.
Qed.

(** The category found is the first of the table that lists the
    extension. *)
Lemma first_category_Some table extension c :
  Organizer.first_category table extension = Some c <->
  exists before l after,
    table = before ++ (c, l) :: after /\ extension ∈ l /\
    forall c' l', (c', l') ∈ before -> extension ∉ l'.
Proof.
  induction table as [|[c0 l0] table IH]; simpl.
  { split; [done|]. by intros ([|] & ? & ? & ? & _). }
  case_bool_decide as Hin.
  - split.
    + intros [= ->]. exists [], l0, table. split_and!; try done.
      by intros ? ? ?%elem_of_nil.
    + intros ([|[c1 l1] before] & l & after & Heq & Hl & Hbefore).
      * by injection Heq as -> -> _.
      * injection Heq as -> -> _. destruct (Hbefore c1 l1); [left|done].
  - rewrite IH. split.
    + intros (before & l & after & -> & Hl & Hbefore).
      exists ((c0, l0) :: before), l, after. split_and!; try done.
      intros c' l' [[= -> ->]|?]%elem_of_cons; eauto.
    + intros ([|[c1 l1] before] & l & after & Heq & Hl & Hbefore).
      * injection Heq as -> -> _. done.
      * injection Heq as -> -> ->. exists before, l, after.
        split_and!; try done. intros c' l' ?. apply (Hbefore c' l'). by right.
Qed.

Ltac in_list :=
  repeat first [apply list_elem_of_here | apply list_elem_of_further].

Lemma category_of_cases extension :
  (Organizer.first_category Organizer.FILE_TYPES extension = None /\
   Organizer.category_of extension = "Other") \/
  (exists c, Organizer.first_category Organizer.FILE_TYPES extension = Some c /\
             Organizer.category_of extension = c /\ c <> "Other").
Proof.
  unfold Organizer.category_of.
  destruct (Organizer.first_category Organizer.FILE_TYPES extension) as [c|]
    eqn:E; [right|by left].
  exists c. split_and!; try done. intros ->.
  apply first_category_Some in E as (before & l & after & Heq & Hl & _).
  assert (("Other", l) ∈ Organizer.FILE_TYPES) as Hin
    by (rewrite Heq; apply elem_of_app; right; left).
  unfold Organizer.FILE_TYPES in Hin.
  repeat (apply elem_of_cons in Hin as [Hin|Hin]; [discriminate Hin|]).
  apply elem_of_cons in Hin as [[= ->]|Hin]; [by apply elem_of_nil in Hl|].
  by apply elem_of_nil in Hin.
Qed.

Lemma category_of_reached extension c :
  Organizer.category_of extension = c -> c <> "Other" ->
  Organizer.first_category Organizer.FILE_TYPES extension = Some c.
Proof.
  intros Hc Hne. destruct (category_of_cases extension)
    as [[_ ?]|(c' & ? & ? & _)]; congruence.
Qed.

(** X13.  [_get_file_category] answers with the first category of
    [FILE_TYPES] that lists the extension and with [Other] when none
    does, always one of the twelve folders.  The later mentions of an
    extension are dead: [.csv] files go to [CSVs] and never to
    [Reports], the Excel extensions go to [Reports] and never to
    [Spreadsheets], which is left with [.ods] alone. *)
Theorem category_is_first_match extension :
  Organizer.category_of extension ∈ Organizer.FILE_TYPES.*1 /\
  (Organizer.category_of extension = "Other" <->
   forall c l, (c, l) ∈ Organizer.FILE_TYPES -> extension ∉ l) /\
  (Organizer.category_of extension <> "Other" ->
   exists before l after,
     Organizer.FILE_TYPES =
       before ++ (Organizer.category_of extension, l) :: after /\
     extension ∈ l /\
     forall c' l', (c', l') ∈ before -> extension ∉ l') /\
  (Organizer.category_of extension = "CSVs" <-> extension = ".csv") /\
  (Organizer.category_of extension = "Reports" <->
   extension ∈ [".xlsx"; ".xls"; ".xlsm"]) /\
  (Organizer.category_of extension = "Spreadsheets" <-> extension = ".ods").
Proof.
  split_and!.
  - destruct (category_of_cases extension) as [[_ ->]|(c & E & -> & _)].
    { vm_compute. in_list. }
    apply first_category_Some in E as (before & l & after & Heq & _).
    rewrite Heq, fmap_app, fmap_cons. apply elem_of_app. right. left.
  - destruct (category_of_cases extension) as [[E ->]|(c & E & -> & Hne)].
    + split; [|done]. intros _. by apply first_category_None.
    + split; [done|]. intros H%first_category_None. congruence.
  - intros Hne. by apply first_category_Some, category_of_reached.
  - split.
    + intros H. apply category_of_reached in H; [|done].
      apply first_category_Some in H as (before & l & after & Heq & Hl & _).
      assert (("CSVs", l) ∈ Organizer.FILE_TYPES) as Hin
        by (rewrite Heq; apply elem_of_app; right; left).
      unfold Organizer.FILE_TYPES in Hin.
      repeat (apply elem_of_cons in Hin as [Hin|Hin];
              [first [discriminate Hin | injection Hin as ->]|]);
        [|by apply elem_of_nil in Hin].
      by apply list_elem_of_singleton in Hl.
    + intros ->. vm_compute. reflexivity.
  - split.
    + intros H. apply category_of_reached in H; [|done].
      cbn in H. repeat case_bool_decide; try discriminate H.
      match goal with
      | Hin : extension ∈ [".csv"; _; _; _], Hn : extension ∉ [".csv"] |- _ =>
          apply elem_of_cons in Hin as [->|Hin]; [destruct Hn; left|exact Hin]
      end.
    + intros H. repeat (apply elem_of_cons in H as [->|H]);
        [vm_compute; reflexivity..|by apply elem_of_nil in H].
  - split.
    + intros H. apply category_of_reached in H; [|done].
      cbn in H. repeat case_bool_decide; try discriminate H.
      match goal with
      | Hin : extension ∈ [".xlsx"; ".xls"; ".xlsm"; ".ods"],
        Hn : extension ∉ [".csv"; ".xlsx"; ".xls"; ".xlsm"] |- _ =>
          repeat (apply elem_of_cons in Hin as [->|Hin]);
            [destruct Hn; in_list..|done|by apply elem_of_nil in Hin]
      end.
    + intros ->. vm_compute. reflexivity.
Qed.

Example categories_of_some_names :
  Organizer._get_file_category ["dl"; "Report.CSV"] = "CSVs" /\
  Organizer._get_file_category ["dl"; "sales.xlsx"] = "Reports" /\
  Organizer._get_file_category ["dl"; "backup.tar.gz"] = "Archives" /\
  Organizer._get_file_category ["dl"; ".bashrc"] = "Other" /\
  Organizer._get_file_category ["dl"; "README"] = "Other".
Proof. vm_compute. done. Qed.

(** ** The loop that looks for a free name *)

Lemma string_app_length (s1 s2 : string) :
  String.length (s1 +:+ s2) = (String.length s1 + String.length s2)%nat.
Proof.
  induction s1 as [|a s1 IH]; [done|].
  change (S (String.length (s1 +:+ s2)) =
          S (String.length s1 + String.length s2)). by rewrite IH.
Qed.

Lemma string_app_inv_tail (s1 s2 t : string) :
  s1 +:+ t = s2 +:+ t -> s1 = s2.
Proof.
  revert s2. induction s1 as [|a s1 IH]; intros [|b s2] H.
  - done.
  - apply (f_equal String.length) in H.
    rewrite !string_app_length in H. simpl in H. lia.
  - apply (f_equal String.length) in H.
    rewrite !string_app_length in H. simpl in H. lia.
  - change (String a (s1 +:+ t) = String b (s2 +:+ t)) in H.
    injection H as -> H. f_equal. by apply IH.
Qed.

Lemma numbered_inj target_folder stem suffix :
  Inj (=) (=) (Organizer.numbered target_folder stem suffix).
Proof.
  intros j k H. unfold Organizer.numbered in H.
  apply app_inv_head in H. injection H as H.
  apply String.app_inj, String.app_inj in H.
  apply string_app_inv_tail in H. by apply (inj pretty) in H.
Qed.

Lemma exists_true t p : Organizer.exists_ t p = true <-> is_Some (t !! p).
Proof. unfold Organizer.exists_. by rewrite bool_decide_eq_true. Qed.

Lemma exists_false t p : Organizer.exists_ t p = false <-> t !! p = None.
Proof.
  unfold Organizer.exists_.
  by rewrite bool_decide_eq_false, eq_None_not_Some.
Qed.

(** What the loop returns, when it does: the first free path among the
    one it starts from and the numbered ones that follow. *)
Lemma while_exists_Some t folder stem suffix target counter fuel p :
  Organizer.while_exists t folder stem suffix target counter fuel = Some p ->
  t !! p = None /\
  ((p = target) \/
   (is_Some (t !! target) /\
    exists k, (counter <= k < counter + fuel)%nat /\
      p = Organizer.numbered folder stem suffix k /\
      forall j, (counter <= j < k)%nat ->
        is_Some (t !! Organizer.numbered folder stem suffix j))).
Proof.
  revert target counter. induction fuel as [|fuel IH]; intros target counter;
    simpl; destruct (Organizer.exists_ t target) eqn:E; try done.
  - intros [= ->]. apply exists_false in E. by split; [|left].
  - intros H. apply exists_true in E.
    destruct (IH _ _ H) as [Hfree [->|(Hex & k & Hk & -> & Hlow)]].
    + split; [done|]. right. split; [done|]. exists counter.
      split_and!; [lia|lia|done|]. intros j ?. lia.
    + split; [done|]. right. split; [done|]. exists k.
      split_and!; [lia|lia|done|]. intros j Hj.
      destruct (decide (j = counter)) as [->|]; [done|]. apply Hlow. lia.
  - intros [= ->]. apply exists_false in E. by split; [|left].
Qed.

(** Fuel runs out only when all the paths tried exist. *)
Lemma while_exists_None t folder stem suffix target counter fuel :
  Organizer.while_exists t folder stem suffix target counter fuel = None ->
  is_Some (t !! target) /\
  forall j, (counter <= j < counter + fuel)%nat ->
    is_Some (t !! Organizer.numbered folder stem suffix j).
Proof.
  revert target counter. induction fuel as [|fuel IH]; intros target counter;
    simpl; destruct (Organizer.exists_ t target) eqn:E; try done.
  - intros _. apply exists_true in E. split; [done|]. intros j ?. lia.
  - intros H. apply exists_true in E. split; [done|].
    destruct (IH _ _ H) as [Hc Hrest]. intros j Hj.
    destruct (decide (j = counter)) as [->|]; [done|]. apply Hrest. lia.
Qed.

(** More paths than the tree has entries cannot all exist. *)
Lemma numbered_free (t : gmap (list string) node) folder stem suffix counter :
  exists j, (counter <= j < counter + S (size t))%nat /\
            t !! Organizer.numbered folder stem suffix j = None.
Proof.
  destruct (decide (Forall (fun j => is_Some
                        (t !! Organizer.numbered folder stem suffix j))
              (seq counter (S (size t))))) as [Hall|Hnot].
  - exfalso.
    assert (Organizer.numbered folder stem suffix <$> seq counter (S (size t))
              ⊆+ (map_to_list t).*1) as Hsub.
    { apply NoDup_submseteq.
      - pose proof (numbered_inj folder stem suffix).
        apply (NoDup_fmap_2 _), NoDup_seq.
      - intros p (j & -> & Hj)%list_elem_of_fmap.
        rewrite Forall_forall in Hall. destruct (Hall j Hj) as [n Hn].
        apply list_elem_of_fmap. exists (Organizer.numbered folder stem suffix j, n).
        split; [done|]. by apply elem_of_map_to_list. }
    apply submseteq_length in Hsub.
    rewrite !length_fmap, length_seq, length_map_to_list in Hsub. lia.
  - apply not_Forall_Exists in Hnot; [|apply _].
    apply Exists_exists in Hnot as (j & Hj & Hfree).
    apply elem_of_seq in Hj. exists j. split; [lia|].
    by apply eq_None_not_Some.
Qed.

Lemma while_exists_total t folder stem suffix target counter :
  is_Some (Organizer.while_exists t folder stem suffix target counter
             (S (size t))).
Proof.
  destruct (Organizer.while_exists t folder stem suffix target counter
              (S (size t))) as [p|] eqn:E; [done|].
  apply while_exists_None in E as [_ Hall].
  destruct (numbered_free t folder stem suffix counter) as (j & Hj & Hfree).
  destruct (Hall j Hj) as [n Hn]. congruence.
Qed.

(** ** The name chosen on a conflict *)

Lemma conflict_free_cases t target_folder file_path target_path :
  let p := Organizer.resolve_conflict t target_folder file_path target_path in
  ((t !! target_path = None \/ target_path = file_path) /\ p = target_path) \/
  (exists k, p = Organizer.numbered target_folder (Organizer.stem file_path)
                   (Organizer.suffix file_path) k /\
             t !! p = None).
Proof.
  unfold Organizer.resolve_conflict.
  destruct (Organizer.exists_ t target_path) eqn:Hex.
  - case_bool_decide as Hne; simpl andb; cbv iota.
    + right.
      destruct (while_exists_total t target_folder (Organizer.stem file_path)
                  (Organizer.suffix file_path) target_path 1) as [p Hp].
      rewrite Hp. simpl.
      apply while_exists_Some in Hp as [Hfree [->|(_ & k & _ & -> & _)]].
      { apply exists_true in Hex as [n Hn]. congruence. }
      by exists k.
    + left. split; [right|done]. by destruct (decide (target_path = file_path)).
  - left. apply exists_false in Hex. by split; [left|].
Qed.

(** X14.  The name chosen on a conflict: the target is kept when it is
    free or is the file itself; otherwise the loop ends, after at most
    as many turns as the tree has entries plus one, on
    [stem_k suffix] for the least [k >= 1] whose path is free. *)
Theorem conflict_takes_first_free_number t target_folder file_path target_path :
  let p := Organizer.resolve_conflict t target_folder file_path target_path in
  (t !! target_path = None \/ target_path = file_path -> p = target_path) /\
  (is_Some (t !! target_path) -> target_path <> file_path ->
   exists k,
     (1 <= k <= S (size t))%nat /\
     p = Organizer.numbered target_folder (Organizer.stem file_path)
           (Organizer.suffix file_path) k /\
     t !! p = None /\
     forall j, (1 <= j < k)%nat ->
       is_Some (t !! Organizer.numbered target_folder
                       (Organizer.stem file_path)
                       (Organizer.suffix file_path) j)).
Proof.
  unfold Organizer.resolve_conflict. split.
  - intros [Hfree| ->].
    + apply exists_false in Hfree. by rewrite Hfree.
    + rewrite bool_decide_eq_false_2 by (by intros []).
      by rewrite andb_false_r.
  - intros Hex Hne. apply exists_true in Hex. rewrite Hex.
    rewrite bool_decide_eq_true_2 by done. simpl andb. cbv iota.
    destruct (while_exists_total t target_folder (Organizer.stem file_path)
                (Organizer.suffix file_path) target_path 1) as [p Hp].
    rewrite Hp. simpl.
    apply while_exists_Some in Hp as [Hfree [->|(_ & k & Hk & -> & Hlow)]].
    { apply exists_true in Hex as [n Hn]. congruence. }
    exists k. split_and!; [lia|lia|done|done|done].
Qed.

Lemma conflict_takes_first_free_number_witness :
  is_Some (Organizer.downloads !! ["dl"; "PDFs"; "a.pdf"]) /\
  exists k,
    (1 <= k <= S (size Organizer.downloads))%nat /\
    Organizer.resolve_conflict Organizer.downloads ["dl"; "PDFs"]
      ["dl"; "a.pdf"] ["dl"; "PDFs"; "a.pdf"] =
      Organizer.numbered ["dl"; "PDFs"] (Organizer.stem ["dl"; "a.pdf"])
        (Organizer.suffix ["dl"; "a.pdf"]) k /\
    Organizer.downloads !!
      Organizer.resolve_conflict Organizer.downloads ["dl"; "PDFs"]
        ["dl"; "a.pdf"] ["dl"; "PDFs"; "a.pdf"] = None.
Proof.
  assert (is_Some (Organizer.downloads !! ["dl"; "PDFs"; "a.pdf"])) as Hex
    by (eexists; vm_compute; reflexivity).
  split; [exact Hex|].
  destruct (proj2 (conflict_takes_first_free_number Organizer.downloads
                     ["dl"; "PDFs"] ["dl"; "a.pdf"] ["dl"; "PDFs"; "a.pdf"])
              Hex ltac:(discriminate)) as (k & Hk & Hp & Hfree & _).
  exists k. split; [exact Hk|]. split; [exact Hp|exact Hfree].
Defined.

Example free_name_after_two_conflicts :
  Organizer.resolve_conflict
    (list_to_map [(["d"], Node Directory 0 None);
                  (["d"; "Documents"], Node Directory 0 None);
                  (["d"; "Documents"; "a.txt"], plain "x" 1);
                  (["d"; "Documents"; "a_1.txt"], plain "y" 2);
                  (["d"; "a.txt"], plain "z" 3)])
    ["d"; "Documents"] ["d"; "a.txt"] ["d"; "Documents"; "a.txt"] =
  ["d"; "Documents"; "a_2.txt"].
Proof. vm_compute. reflexivity. Qed.

(** ** One turn of [organize_files] *)

Lemma parent_snoc (l : path) x : Organizer.parent (l ++ [x]) = l.
Proof. apply removelast_last. Qed.

Lemma name_snoc (l : path) x : Organizer.name (l ++ [x]) = x.
Proof. unfold Organizer.name. by rewrite last_snoc. Qed.

Lemma child_of_snoc d p : child_of d p -> exists x, p = d ++ [x].
Proof.
  intros [Htake Hlen]. rewrite <- (take_drop (length d) p), Htake.
  destruct (drop (length d) p) as [|x [|y l]] eqn:E;
    apply (f_equal length) in E; rewrite length_drop in E; simpl in E;
    [lia| |lia].
  by exists x.
Qed.

Lemma category_is_a_key file_path :
  Organizer._get_file_category file_path ∈ Organizer.FILE_TYPES.*1.
Proof.
  unfold Organizer._get_file_category.
  destruct (category_of_cases (Organizer.lower (Organizer.suffix file_path)))
    as [[_ ->]|(c & E & -> & _)].
  { vm_compute. in_list. }
  apply first_category_Some in E as (before & l & after & Heq & _).
  rewrite Heq, fmap_app, fmap_cons. apply elem_of_app. right. left.
Qed.

(** The path a file is moved to: below the folder of its category, and
    free, because a file that is not skipped is not its own target. *)
Lemma target_is_free t base file_path :
  ~ Organizer.skipped file_path ->
  let category := Organizer._get_file_category file_path in
  let target := Organizer.resolve_conflict t (base ++ [category]) file_path
                  ((base ++ [category]) ++ [Organizer.name file_path]) in
  t !! target = None /\ Organizer.parent target = base ++ [category] /\
  Organizer.skipped target.
Proof.
  intros Hskip category target.
  assert ((base ++ [category]) ++ [Organizer.name file_path] <> file_path)
    as Hne.
  { intros Heq. apply Hskip. unfold Organizer.skipped.
    rewrite <- Heq, parent_snoc, name_snoc. apply category_is_a_key. }
  assert (t !! target = None /\ Organizer.parent target = base ++ [category])
    as [Hfree Hparent].
  { destruct (conflict_free_cases t (base ++ [category]) file_path
                ((base ++ [category]) ++ [Organizer.name file_path]))
      as [[[Hfree|Heq] Hp]|(k & Hp & Hfree)]; fold category target in Hp.
    - rewrite Hp. split; [done|apply parent_snoc].
    - done.
    - fold category target in Hfree. split; [done|].
      rewrite Hp. unfold Organizer.numbered. apply parent_snoc. }
  split_and!; [done..|].
  unfold Organizer.skipped. rewrite Hparent, name_snoc.
  apply category_is_a_key.
Qed.

Ltac orun := unfold mbind, Organizer.M_bind, mret, Organizer.M_ret,
  Organizer.raise, Organizer.try_except, Organizer.get_fs,
  Organizer.logger; simpl.

Lemma organize_file_skipped move base dry results file_path w :
  Organizer.skipped file_path ->
  Organizer.organize_file move base dry results file_path w =
    (Organizer.Ok results, w).
Proof.
  intros Hs. unfold Organizer.organize_file.
  by rewrite bool_decide_eq_true_2.
Qed.

Lemma organize_file_dry move base results file_path w :
  exists lg,
    Organizer.organize_file move base true results file_path w =
      (Organizer.Ok results,
       Organizer.World (Organizer.fs w) (Organizer.log w ++ lg)
         (Organizer.clock w)).
Proof.
  unfold Organizer.organize_file. case_bool_decide.
  - exists []. rewrite app_nil_r. by destruct w.
  - orun. eauto.
Qed.

Lemma moved_to_cons s d moves c :
  Organizer.moved_to ((s, d) :: moves) c =
    (if decide (Organizer._get_file_category s = c) then [d] else []) ++
    Organizer.moved_to moves c.
Proof.
  unfold Organizer.moved_to. rewrite filter_cons. simpl.
  by destruct (decide (Organizer._get_file_category s = c)).
Qed.

Lemma add_moves_keys moves results :
  (Organizer.add_moves moves results).*1 = results.*1.
Proof.
  unfold Organizer.add_moves. rewrite <- list_fmap_compose.
  by apply list_fmap_ext.
Qed.

Lemma add_moves_nil results : Organizer.add_moves [] results = results.
Proof.
  unfold Organizer.add_moves. rewrite <- (list_fmap_id results) at 2.
  apply list_fmap_ext. intros _ [c l] _. simpl. by rewrite app_nil_r.
Qed.

Lemma add_moves_cons s d moves results :
  Organizer.add_moves ((s, d) :: moves) results =
    Organizer.add_moves moves (Organizer.add_moves [(s, d)] results).
Proof.
  unfold Organizer.add_moves. rewrite <- list_fmap_compose.
  apply list_fmap_ext. intros _ [c l] _. simpl.
  rewrite !moved_to_cons. unfold Organizer.moved_to at 2. simpl.
  by rewrite app_nil_r, app_assoc.
Qed.

Lemma append_item_run results category s d w :
  category ∈ results.*1 -> Organizer._get_file_category s = category ->
  Organizer.append_item results category d w =
    (Organizer.Ok (Organizer.add_moves [(s, d)] results), w).
Proof.
  intros Hin Hc. unfold Organizer.append_item.
  rewrite bool_decide_eq_true_2 by done. orun. do 2 f_equal.
  unfold Organizer.add_moves. apply list_fmap_ext. intros _ [c l] _. simpl.
  rewrite moved_to_cons, Hc. unfold Organizer.moved_to. simpl.
  destruct (decide (c = category)) as [->|Hne].
  - by rewrite decide_True.
  - rewrite decide_False by done. by rewrite app_nil_r.
Qed.

(** A live turn on a file that is not skipped: the file goes to its
    free target and is entered in the results, or the move fails and
    the file stays; no other existing path is touched. *)
Lemma organize_file_live move base results file_path w n :
  Organizer.move_ok move ->
  Organizer.fs w !! file_path = Some n ->
  ~ Organizer.skipped file_path ->
  results.*1 = Organizer.FILE_TYPES.*1 ->
  let category := Organizer._get_file_category file_path in
  let target :=
    Organizer.resolve_conflict (Organizer.fs w) (base ++ [category]) file_path
      ((base ++ [category]) ++ [Organizer.name file_path]) in
  exists w',
    (forall q, q <> file_path -> q <> target ->
               Organizer.fs w' !! q = Organizer.fs w !! q) /\
    ((Organizer.organize_file move base false results file_path w =
        (Organizer.Ok (Organizer.add_moves [(file_path, target)] results), w') /\
      Organizer.fs w' !! file_path = None /\
      exists n', Organizer.fs w' !! target = Some n' /\
                 node_kind n' = node_kind n /\ st_mtime n' = st_mtime n) \/
     (Organizer.organize_file move base false results file_path w =
        (Organizer.Ok results, w') /\
      Organizer.fs w' !! file_path = Some n)).
Proof.
  intros Hmove Hn Hskip Hkeys category target.
  destruct (target_is_free (Organizer.fs w) base file_path Hskip)
    as (Hfree & _ & _). fold category target in Hfree.
  destruct (Hmove file_path target w n Hn Hfree) as (Hlog & Hclock & Hframe & Hres).
  unfold Organizer.organize_file.
  rewrite bool_decide_eq_false_2 by done.
  fold category. orun. fold target.
  destruct (move file_path target w) as [[[]|e] w1] eqn:E; simpl in *.
  - destruct Hres as [Hgone Hthere].
    rewrite (append_item_run results category file_path target) by
      (rewrite ?Hkeys; first [apply category_is_a_key | done]).
    eexists. split; [|left; split_and!; [reflexivity|exact Hgone|exact Hthere]].
    exact Hframe.
  - eexists. split; [|right; split; [reflexivity|exact Hres]]. exact Hframe.
Qed.

(** ** The loop over the files *)

Lemma parent_in_category_skipped base s d :
  Organizer.parent d = base ++ [Organizer._get_file_category s] ->
  Organizer.skipped d.
Proof.
  intros H. unfold Organizer.skipped. rewrite H, name_snoc.
  apply category_is_a_key.
Qed.

Lemma organize_loop_skipped move base dry results files w :
  Forall Organizer.skipped files ->
  Organizer.organize_loop move base dry results files w =
    (Organizer.Ok results, w).
Proof.
  induction 1 as [|f files Hf _ IH]; [done|].
  cbn [Organizer.organize_loop]. unfold mbind, Organizer.M_bind.
  by rewrite organize_file_skipped.
Qed.

Lemma organize_loop_dry move base results files w :
  exists lg,
    Organizer.organize_loop move base true results files w =
      (Organizer.Ok results,
       Organizer.World (Organizer.fs w) (Organizer.log w ++ lg)
         (Organizer.clock w)).
Proof.
  revert w. induction files as [|f files IH]; intros w.
  { exists []. rewrite app_nil_r. by destruct w. }
  cbn [Organizer.organize_loop]. unfold mbind, Organizer.M_bind.
  destruct (organize_file_dry move base results f w) as [lg1 ->].
  destruct (IH (Organizer.World (Organizer.fs w) (Organizer.log w ++ lg1)
                  (Organizer.clock w))) as [lg2 ->].
  exists (lg1 ++ lg2). simpl. by rewrite app_assoc.
Qed.

Lemma organize_loop_live move base files :
  Organizer.move_ok move ->
  forall results w,
    NoDup files ->
    (forall f, f ∈ files -> is_Some (Organizer.fs w !! f)) ->
    results.*1 = Organizer.FILE_TYPES.*1 ->
    exists moves w',
      Organizer.organize_loop move base false results files w =
        (Organizer.Ok (Organizer.add_moves moves results), w') /\
      NoDup moves.*1 /\ NoDup moves.*2 /\
      (forall s d, (s, d) ∈ moves ->
         s ∈ files /\ ~ Organizer.skipped s /\
         Organizer.fs w !! d = None /\
         Organizer.parent d = base ++ [Organizer._get_file_category s] /\
         Organizer.fs w' !! s = None /\
         exists n n',
           Organizer.fs w !! s = Some n /\ Organizer.fs w' !! d = Some n' /\
           node_kind n' = node_kind n /\ st_mtime n' = st_mtime n) /\
      (forall q, q ∉ moves.*1 ->
         ~ Organizer.skipped q \/ is_Some (Organizer.fs w !! q) ->
         Organizer.fs w' !! q = Organizer.fs w !! q).
Proof.
  intros Hmove. induction files as [|f files IH]; intros results w Hnd Hex Hkeys.
  { exists [], w. simpl. rewrite add_moves_nil.
    split_and!; try done; try apply NoDup_nil_2.
    by intros s d ?%elem_of_nil. }
  apply NoDup_cons in Hnd as [Hf Hnd].
  cbn [Organizer.organize_loop]. unfold mbind, Organizer.M_bind.
  destruct (decide (Organizer.skipped f)) as [Hskip|Hskip].
  { rewrite organize_file_skipped by done.
    destruct (IH results w Hnd) as (moves & w' & Hrun & H1 & H2 & H3 & H4);
      [by intros g ?; apply Hex; right|done|].
    exists moves, w'. split_and!; try done.
    intros s d Hin. destruct (H3 s d Hin) as (? & ?). split; [by right|done]. }
  destruct (Hex f) as [n Hn]; [by left|].
  destruct (target_is_free (Organizer.fs w) base f Hskip)
    as (Hfree & Hparent & Htskip).
  destruct (organize_file_live move base results f w n Hmove Hn Hskip Hkeys)
    as (w1 & Hframe & Hcase).
  set (target := Organizer.resolve_conflict (Organizer.fs w)
                   (base ++ [Organizer._get_file_category f]) f
                   ((base ++ [Organizer._get_file_category f]) ++
                    [Organizer.name f])) in *.
  assert (forall q, q <> f -> ~ Organizer.skipped q \/
                    is_Some (Organizer.fs w !! q) ->
                    Organizer.fs w1 !! q = Organizer.fs w !! q) as Hframe'.
  { intros q Hqf Hq. apply Hframe; [done|]. intros ->.
    destruct Hq as [Hq|[m Hm]]; [done|congruence]. }
  assert (forall g, g ∈ files -> is_Some (Organizer.fs w1 !! g)) as Hex1.
  { intros g Hg. rewrite Hframe'.
    - apply Hex. by right.
    - by intros ->.
    - right. apply Hex. by right. }
  destruct Hcase as [(Hrun & Hgone & n' & Hthere & Hkind & Htime)|[Hrun Hstay]];
    rewrite Hrun.
  - destruct (IH (Organizer.add_moves [(f, target)] results) w1 Hnd Hex1)
      as (moves & w' & Hloop & H1 & H2 & H3 & H4);
      [by rewrite add_moves_keys|].
    exists ((f, target) :: moves), w'.
    rewrite (add_moves_cons f target moves).
    split_and!; [exact Hloop| | | |].
    + rewrite fmap_cons. apply NoDup_cons. split; [|done].
      intros ((s & d) & Heq & Hin)%list_elem_of_fmap. simpl in Heq. subst s.
      by destruct (H3 f d Hin) as (? & _).
    + rewrite fmap_cons. apply NoDup_cons. split; [|done].
      intros ((s & d) & Heq & Hin)%list_elem_of_fmap. simpl in Heq. subst d.
      destruct (H3 s target Hin) as (_ & _ & Hnone & _). congruence.
    + intros s d [[= -> ->]|Hin]%elem_of_cons.
      * split_and!; [by left|done..| |].
        -- rewrite H4; [done| |by left].
           intros ((s & d) & Heq & Hin)%list_elem_of_fmap. simpl in Heq.
           subst s. by destruct (H3 f d Hin) as (? & _).
        -- exists n, n'. split_and!; try done. rewrite H4; [done| |right; eauto].
           intros ((s & d) & Heq & Hin)%list_elem_of_fmap. simpl in Heq.
           subst s. by destruct (H3 target d Hin) as (_ & ? & _).
      * destruct (H3 s d Hin)
          as (Hs & Hns & Hd & Hpd & Hsg & m & m' & Hm & Hm' & ? & ?).
        assert (s <> f) as Hsf by (by intros ->).
        assert (Organizer.skipped d) as Hdskip
          by (by eapply parent_in_category_skipped).
        split_and!; [by right|done| |done|done|].
        -- destruct (decide (d = target)) as [->|Hdt]; [done|].
           rewrite <- Hd. symmetry. apply Hframe; [|done]. by intros ->.
        -- exists m, m'. split_and!; try done.
           rewrite <- Hm. symmetry. apply Hframe'; [done|by left].
    + intros q Hq Hcond. rewrite fmap_cons in Hq.
      apply not_elem_of_cons in Hq as [Hqf Hq]. simpl in Hqf.
      rewrite <- (Hframe' q Hqf Hcond). apply H4; [done|].
      destruct Hcond as [?|?]; [by left|right].
      by rewrite (Hframe' q Hqf) by (by right).
  - destruct (IH results w1 Hnd Hex1 Hkeys)
      as (moves & w' & Hloop & H1 & H2 & H3 & H4).
    assert (forall q, ~ Organizer.skipped q \/ is_Some (Organizer.fs w !! q) ->
                      Organizer.fs w1 !! q = Organizer.fs w !! q) as Hsame.
    { intros q Hq. destruct (decide (q = f)) as [->|Hqf]; [congruence|].
      by apply Hframe'. }
    exists moves, w'. split_and!; [exact Hloop|done|done| |].
    + intros s d Hin. destruct (H3 s d Hin)
        as (Hs & Hns & Hd & Hpd & Hsg & m & m' & Hm & Hm' & ? & ?).
      assert (Organizer.skipped d) as Hdskip
        by (by eapply parent_in_category_skipped).
      split_and!; [by right|done| |done|done|].
      * destruct (decide (d = target)) as [->|Hdt]; [done|].
        rewrite <- Hd. symmetry. apply Hframe; [|done]. by intros ->.
      * exists m, m'. split_and!; try done.
        rewrite <- Hm. symmetry. apply Hsame. by left.
    + intros q Hq Hcond. rewrite <- (Hsame q Hcond). apply H4; [done|].
      destruct Hcond as [?|?]; [by left|right]. by rewrite Hsame by (by right).
Qed.

(** ** [mkdir] and [_setup_directories] *)

Lemma is_dir_Some t p : is_dir t p = true -> is_Some (t !! p).
Proof. unfold is_dir. destruct (t !! p); [eauto|done]. Qed.

(** [mkdir] of a name in a directory that exists: the folder is made
    when the name is free, left alone when it is a directory already,
    and [FileExistsError] is raised when it is anything else. *)
Lemma mkdir_child base c w :
  is_dir (Organizer.fs w) base = true ->
  Organizer.mkdir (base ++ [c]) w =
    match Organizer.fs w !! (base ++ [c]) with
    | None =>
        (Organizer.Ok tt,
         Organizer.World
           (<[base ++ [c] := Node Directory (Organizer.clock w) None]>
              (Organizer.fs w))
           (Organizer.log w) (Organizer.clock w))
    | Some _ =>
        if is_dir (Organizer.fs w) (base ++ [c]) then (Organizer.Ok tt, w)
        else (Organizer.Raise Organizer.FileExistsError, w)
    end.
Proof.
  intros Hbase. unfold Organizer.mkdir. rewrite length_app, Nat.add_comm.
  cbn [length Nat.add Organizer.mkdir_go].
  unfold Organizer.try_except, Organizer.os_mkdir.
  destruct (Organizer.fs w !! (base ++ [c])) as [m|] eqn:E.
  - orun. by destruct (is_dir (Organizer.fs w) (base ++ [c])).
  - rewrite parent_snoc. unfold is_dir in Hbase.
    by destruct (Organizer.fs w !! base) as [[[] ? ?]|].
Qed.

Lemma snoc_ne (base : path) c : base ++ [c] <> base.
Proof.
  intros H. apply (f_equal length) in H. rewrite length_app in H.
  simpl in H. lia.
Qed.

Lemma ensure_directories_ok base order w :
  is_dir (Organizer.fs w) base = true ->
  (forall c, c ∈ order ->
     Organizer.fs w !! (base ++ [c]) = None \/
     is_dir (Organizer.fs w) (base ++ [c]) = true) ->
  exists w',
    Organizer.ensure_directories base order w = (Organizer.Ok tt, w') /\
    Organizer.clock w' = Organizer.clock w /\
    is_dir (Organizer.fs w') base = true /\
    (forall c, c ∈ order -> is_dir (Organizer.fs w') (base ++ [c]) = true) /\
    (forall q n, Organizer.fs w !! q = Some n ->
                 Organizer.fs w' !! q = Some n) /\
    (forall q, Organizer.fs w !! q = None ->
       is_Some (Organizer.fs w' !! q) ->
       (exists c, c ∈ order /\ q = base ++ [c]) /\
       Organizer.fs w' !! q = Some (Node Directory (Organizer.clock w) None)).
Proof.
  revert w. induction order as [|c order IH]; intros w Hbase Hok.
  { exists w. split_and!; try done.
    - by intros c ?%elem_of_nil.
    - intros q -> [? ?]. done. }
  cbn [Organizer.ensure_directories]. unfold mbind, Organizer.M_bind.
  rewrite mkdir_child by done.
  destruct (Organizer.fs w !! (base ++ [c])) as [m|] eqn:E.
  - assert (is_dir (Organizer.fs w) (base ++ [c]) = true) as Hdir.
    { destruct (Hok c) as [?|?]; [by left|congruence|done]. }
    rewrite Hdir. orun.
    destruct (IH (Organizer.World (Organizer.fs w)
                    (Organizer.log w ++
                       [(INFO, Organizer.EnsuredDirectory (base ++ [c]))])
                    (Organizer.clock w)))
      as (w' & -> & Hclock & Hb & Hall & Hold & Hnew); simpl in *.
    { done. }
    { intros c' ?. apply Hok. by right. }
    exists w'. split_and!; try done.
    + intros c' [->|?]%elem_of_cons; [|by apply Hall].
      unfold is_dir. rewrite (Hold _ _ E). unfold is_dir in Hdir.
      by rewrite E in Hdir.
    + intros q Hq Hs. destruct (Hnew q Hq Hs) as [(c' & ? & ?) ?].
      split; [|done]. exists c'. split; [by right|done].
  - orun.
    set (w1 := Organizer.World
                 (<[base ++ [c] := Node Directory (Organizer.clock w) None]>
                    (Organizer.fs w))
                 (Organizer.log w ++
                    [(INFO, Organizer.EnsuredDirectory (base ++ [c]))])
                 (Organizer.clock w)).
    destruct (IH w1) as (w' & -> & Hclock & Hb & Hall & Hold & Hnew).
    { unfold is_dir, w1. simpl. rewrite lookup_insert_ne by apply snoc_ne.
      exact Hbase. }
    { intros c' Hc'. unfold is_dir, w1. simpl.
      destruct (decide (c' = c)) as [->|Hne].
      - right. by rewrite lookup_insert_eq.
      - rewrite lookup_insert_ne
          by (intros H; apply app_inv_head in H; congruence).
        apply Hok. by right. }
    exists w'. split_and!; try done.
    + intros c' [->|?]%elem_of_cons; [|by apply Hall].
      unfold is_dir.
      rewrite (Hold _ (Node Directory (Organizer.clock w) None)); [done|].
      unfold w1. simpl. apply lookup_insert_eq.
    + intros q n Hq. apply Hold. unfold w1. simpl.
      rewrite lookup_insert_ne by congruence. done.
    + intros q Hq Hs. destruct (decide (q = base ++ [c])) as [->|Hne].
      * split; [exists c; split; [by left|done]|].
        apply Hold. unfold w1. simpl. apply lookup_insert_eq.
      * destruct (Hnew q) as [(c' & ? & ?) ?]; [|done|].
        { unfold w1. simpl. by rewrite lookup_insert_ne. }
        split; [|done]. exists c'. split; [by right|done].
Qed.

Lemma ensure_directories_file_in_the_way base order w c :
  is_dir (Organizer.fs w) base = true ->
  c ∈ order ->
  is_Some (Organizer.fs w !! (base ++ [c])) ->
  is_dir (Organizer.fs w) (base ++ [c]) = false ->
  exists w',
    Organizer.ensure_directories base order w =
      (Organizer.Raise Organizer.FileExistsError, w') /\
    (forall q n, Organizer.fs w !! q = Some n ->
                 Organizer.fs w' !! q = Some n).
Proof.
  revert w. induction order as [|c0 order IH]; intros w Hbase Hc [m Hm] Hnd.
  { by apply elem_of_nil in Hc. }
  cbn [Organizer.ensure_directories]. unfold mbind, Organizer.M_bind.
  rewrite mkdir_child by done.
  destruct (decide (c0 = c)) as [->|Hne].
  { rewrite Hm, Hnd. by exists w. }
  apply elem_of_cons in Hc as [?|Hc]; [congruence|].
  destruct (Organizer.fs w !! (base ++ [c0])) as [m0|] eqn:E.
  - destruct (is_dir (Organizer.fs w) (base ++ [c0])) eqn:Hd0.
    + orun.
      destruct (IH (Organizer.World (Organizer.fs w)
                      (Organizer.log w ++
                         [(INFO, Organizer.EnsuredDirectory (base ++ [c0]))])
                      (Organizer.clock w)))
        as (w' & -> & Hold); simpl; eauto.
    + (* another file in the way, met first *)
      by exists w.
  - orun.
    set (w1 := Organizer.World
                 (<[base ++ [c0] := Node Directory (Organizer.clock w) None]>
                    (Organizer.fs w))
                 (Organizer.log w ++
                    [(INFO, Organizer.EnsuredDirectory (base ++ [c0]))])
                 (Organizer.clock w)).
    assert (base ++ [c0] <> base ++ [c]) as Hpne
      by (intros H; apply app_inv_head in H; congruence).
    destruct (IH w1) as (w' & -> & Hold).
    { unfold is_dir, w1. simpl. rewrite lookup_insert_ne by apply snoc_ne.
      exact Hbase. }
    { done. }
    { unfold w1. simpl. rewrite lookup_insert_ne by done. eauto. }
    { unfold is_dir, w1. simpl. rewrite lookup_insert_ne by done. exact Hnd. }
    exists w'. split; [done|]. intros q n Hq. apply Hold. unfold w1. simpl.
    rewrite lookup_insert_ne by congruence. done.
Qed.

(** ** [organize_files] *)

Lemma rename_ok : Organizer.move_ok Organizer.rename.
Proof.
  intros src dst w n Hsrc Hdst. unfold Organizer.rename. rewrite Hsrc.
  destruct (unlink_error n) as [e|]; [by simpl|].
  destruct (is_dir (Organizer.fs w) (Organizer.parent dst)); [|by simpl].
  assert (src <> dst) as Hne by congruence.
  simpl. split_and!; try done.
  - intros q ? ?. by rewrite lookup_insert_ne, lookup_delete_ne.
  - by rewrite lookup_insert_ne, lookup_delete_eq.
  - exists n. by rewrite lookup_insert_eq.
Qed.

Lemma add_moves_no_results moves :
  Organizer.add_moves moves Organizer.no_results =
    (fun c => (c, Organizer.moved_to moves c)) <$> Organizer.FILE_TYPES.*1.
Proof.
  unfold Organizer.add_moves, Organizer.no_results.
  rewrite <- list_fmap_compose. by apply list_fmap_ext.
Qed.

Lemma organize_files_unfold move base rec dry w :
  Organizer.organize_files move base rec dry w =
    Organizer.organize_loop move base dry Organizer.no_results
      (candidates (Organizer.fs w) base rec) w.
Proof. reflexivity. Qed.

(** X15.  A live [organize_files] loses nothing and overwrites nothing,
    whatever [shutil.move] does within [move_ok].  It returns, and what
    it did is a list of moves, from pairwise different files of the
    scan that are not in a directory named like a category, to pairwise
    different paths that were free, each in the folder of the file's
    category; the destination holds what the source held.  Every other
    path that existed is as it was, and the result lists the
    destinations by category, in the order of the moves. *)
Theorem organize_moves_without_loss move base rec w :
  Organizer.move_ok move ->
  exists moves w',
    Organizer.organize_files move base rec false w =
      (Organizer.Ok ((fun c => (c, Organizer.moved_to moves c)) <$>
                       Organizer.FILE_TYPES.*1), w') /\
    NoDup moves.*1 /\ NoDup moves.*2 /\
    (forall s d, (s, d) ∈ moves ->
       s ∈ candidates (Organizer.fs w) base rec /\
       ~ Organizer.skipped s /\
       Organizer.fs w !! d = None /\
       Organizer.parent d = base ++ [Organizer._get_file_category s] /\
       Organizer.fs w' !! s = None /\
       exists n n',
         Organizer.fs w !! s = Some n /\ Organizer.fs w' !! d = Some n' /\
         node_kind n' = node_kind n /\ st_mtime n' = st_mtime n) /\
    (forall q, is_Some (Organizer.fs w !! q) -> q ∉ moves.*1 ->
       Organizer.fs w' !! q = Organizer.fs w !! q).
Proof.
  intros Hmove. rewrite organize_files_unfold.
  destruct (organize_loop_live move base
              (candidates (Organizer.fs w) base rec) Hmove
              Organizer.no_results w)
    as (moves & w' & Hrun & H1 & H2 & H3 & H4).
  { apply candidates_NoDup. }
  { intros f Hf. by eapply is_file_Some, candidates_is_file. }
  { unfold Organizer.no_results. rewrite <- list_fmap_compose.
    apply list_fmap_id. }
  exists moves, w'. rewrite <- add_moves_no_results.
  split_and!; try done. intros q Hq Hn. apply H4; [done|by right].
Qed.

Lemma organize_moves_without_loss_witness :
  Organizer.move_ok Organizer.rename /\
  exists moves w',
    Organizer.organize_files Organizer.rename ["dl"] true false
      Organizer.downloads_ready =
      (Organizer.Ok ((fun c => (c, Organizer.moved_to moves c)) <$>
                       Organizer.FILE_TYPES.*1), w') /\
    NoDup moves.*2 /\
    (forall q, is_Some (Organizer.fs Organizer.downloads_ready !! q) ->
       q ∉ moves.*1 ->
       Organizer.fs w' !! q = Organizer.fs Organizer.downloads_ready !! q).
Proof.
  split; [exact rename_ok|].
  destruct (organize_moves_without_loss Organizer.rename ["dl"] true
              Organizer.downloads_ready rename_ok)
    as (moves & w' & Hrun & _ & Hnd & _ & Hframe).
  exists moves, w'. split; [exact Hrun|]. split; [exact Hnd|exact Hframe].
Defined.

Example organize_downloads_folder :
  (Organizer.organize_files Organizer.rename ["dl"] true false
     Organizer.downloads_ready).1 =
  Organizer.Ok
    [("PDFs", [["dl"; "PDFs"; "a_1.pdf"]; ["dl"; "PDFs"; "b.PDF"]]);
     ("Images", [["dl"; "Images"; "c.png"]]); ("CSVs", []); ("Reports", []);
     ("Documents", [["dl"; "Documents"; "notes.txt"]]); ("Spreadsheets", []);
     ("Presentations", []); ("Archives", []); ("Videos", []); ("Audio", []);
     ("Code", []); ("Other", [])].
Proof. vm_compute. reflexivity. Qed.

(** X16.  A directory that is itself called like a category is not
    organized at all: without [recursive] every file listed has that
    directory as its parent and is passed over, so nothing is moved,
    nothing is logged and every list of the result is empty, also in a
    live run. *)
Theorem category_named_directory_is_left_alone move base dry w :
  Organizer.name base ∈ Organizer.FILE_TYPES.*1 ->
  Organizer.organize_files move base false dry w =
    (Organizer.Ok Organizer.no_results, w).
Proof.
  intros Hname. rewrite organize_files_unfold.
  apply organize_loop_skipped. apply Forall_forall. intros f Hf.
  apply elem_of_candidates in Hf as (_ & _ & Hchild).
  apply child_of_snoc in Hchild as [x ->].
  unfold Organizer.skipped. by rewrite parent_snoc.
Qed.

Lemma category_named_directory_is_left_alone_witness :
  Organizer.name ["home"; "Documents"] ∈ Organizer.FILE_TYPES.*1 /\
  candidates (Organizer.fs Organizer.documents_world) ["home"; "Documents"]
    false <> [] /\
  Organizer.organize_files Organizer.rename ["home"; "Documents"] false false
    Organizer.documents_world =
    (Organizer.Ok Organizer.no_results, Organizer.documents_world).
Proof.
  assert (Organizer.name ["home"; "Documents"] ∈ Organizer.FILE_TYPES.*1)
    as Hname by (vm_compute; in_list).
  split; [exact Hname|]. split; [vm_compute; discriminate|].
  exact (category_named_directory_is_left_alone Organizer.rename
           ["home"; "Documents"] false Organizer.documents_world Hname).
Defined.

(** ** The [organize] command *)

Lemma organize_files_dry move base rec w :
  exists lg,
    Organizer.organize_files move base rec true w =
      (Organizer.Ok Organizer.no_results,
       Organizer.World (Organizer.fs w) (Organizer.log w ++ lg)
         (Organizer.clock w)).
Proof. rewrite organize_files_unfold. apply organize_loop_dry. Qed.

(** X17.  The dry run of the [organize] command is not free of effects.
    [organize_files] itself moves nothing in a dry run, but the command
    builds the organizer first, and that makes the category folders:
    where the directory exists and no name of a category is taken by
    something that is not a directory, the command returns with every
    list empty, all the folders are there afterwards, each entry that
    was there is as it was, and the only new entries are the folders
    that were missing. *)
Theorem dry_run_still_makes_the_folders move order base rec w :
  is_dir (Organizer.fs w) base = true ->
  (forall c, c ∈ order ->
     Organizer.fs w !! (base ++ [c]) = None \/
     is_dir (Organizer.fs w) (base ++ [c]) = true) ->
  (exists lg,
     Organizer.organize_files move base rec true w =
       (Organizer.Ok Organizer.no_results,
        Organizer.World (Organizer.fs w) (Organizer.log w ++ lg)
          (Organizer.clock w))) /\
  exists w',
    Organizer.organize_command move order base rec true w =
      (Organizer.Ok Organizer.no_results, w') /\
    (forall c, c ∈ order -> is_dir (Organizer.fs w') (base ++ [c]) = true) /\
    (forall q n, Organizer.fs w !! q = Some n ->
                 Organizer.fs w' !! q = Some n) /\
    (forall q, Organizer.fs w !! q = None ->
       is_Some (Organizer.fs w' !! q) ->
       (exists c, c ∈ order /\ q = base ++ [c]) /\
       Organizer.fs w' !! q = Some (Node Directory (Organizer.clock w) None)).
Proof.
  intros Hbase Hok. split; [apply organize_files_dry|].
  destruct (ensure_directories_ok base order w Hbase Hok)
    as (w1 & Hrun & Hclock & _ & Hall & Hold & Hnew).
  unfold Organizer.organize_command, Organizer._setup_directories.
  unfold mbind, Organizer.M_bind. rewrite Hrun.
  destruct (organize_files_dry move base rec w1) as [lg ->].
  eexists. split; [reflexivity|]. simpl. done.
Qed.

Lemma dry_run_still_makes_the_folders_witness :
  is_dir (Organizer.fs Organizer.downloads_world) ["dl"] = true /\
  Organizer.fs Organizer.downloads_world !! ["dl"; "Images"] = None /\
  exists w',
    Organizer.organize_command Organizer.rename Organizer.FILE_TYPES.*1
      ["dl"] false true Organizer.downloads_world =
      (Organizer.Ok Organizer.no_results, w') /\
    is_dir (Organizer.fs w') ["dl"; "Images"] = true.
Proof.
  assert (is_dir (Organizer.fs Organizer.downloads_world) ["dl"] = true)
    as Hbase by (vm_compute; reflexivity).
  assert (forall c, c ∈ Organizer.FILE_TYPES.*1 ->
            Organizer.fs Organizer.downloads_world !! (["dl"] ++ [c]) = None \/
            is_dir (Organizer.fs Organizer.downloads_world) (["dl"] ++ [c]) =
              true) as Hok.
  { assert (Forall (fun c =>
              Organizer.fs Organizer.downloads_world !! (["dl"] ++ [c]) = None \/
              is_dir (Organizer.fs Organizer.downloads_world) (["dl"] ++ [c]) =
                true) Organizer.FILE_TYPES.*1) as HF.
    { apply (bool_decide_unpack _). vm_compute. exact I. }
    intros c Hc. exact (proj1 (Forall_forall _ _) HF c Hc). }
  split; [exact Hbase|]. split; [vm_compute; reflexivity|].
  destruct (dry_run_still_makes_the_folders Organizer.rename
              Organizer.FILE_TYPES.*1 ["dl"] false Organizer.downloads_world
              Hbase Hok) as (_ & w' & Hrun & Hall & _).
  exists w'. split; [exact Hrun|]. apply (Hall "Images").
  vm_compute. in_list.
Defined.

(** X18.  A file named like a category stops the command before it
    starts: where the directory holds something that is not a
    directory under the name of a category, building the organizer
    raises [FileExistsError], in whatever order the folders are made
    and in a dry run too; no file is moved, every entry that was there
    is as it was. *)
Theorem file_in_the_way_stops_the_command move order base rec dry w c :
  is_dir (Organizer.fs w) base = true ->
  c ∈ order ->
  is_Some (Organizer.fs w !! (base ++ [c])) ->
  is_dir (Organizer.fs w) (base ++ [c]) = false ->
  exists w',
    Organizer.organize_command move order base rec dry w =
      (Organizer.Raise Organizer.FileExistsError, w') /\
    (forall q n, Organizer.fs w !! q = Some n ->
                 Organizer.fs w' !! q = Some n).
Proof.
  intros Hbase Hc Hsome Hnd.
  destruct (ensure_directories_file_in_the_way base order w c Hbase Hc Hsome Hnd)
    as (w' & Hrun & Hold).
  exists w'. split; [|done].
  unfold Organizer.organize_command, Organizer._setup_directories.
  unfold mbind, Organizer.M_bind. by rewrite Hrun.
Qed.

Lemma file_in_the_way_stops_the_command_witness :
  is_dir (Organizer.fs Organizer.blocked_world) ["w"] = true /\
  is_file (Organizer.fs Organizer.blocked_world) ["w"; "Code"] = true /\
  exists w',
    Organizer.organize_command Organizer.rename Organizer.FILE_TYPES.*1
      ["w"] false true Organizer.blocked_world =
      (Organizer.Raise Organizer.FileExistsError, w').
Proof.
  assert (is_dir (Organizer.fs Organizer.blocked_world) ["w"] = true)
    as Hbase by (vm_compute; reflexivity).
  split; [exact Hbase|]. split; [vm_compute; reflexivity|].
  destruct (file_in_the_way_stops_the_command Organizer.rename
              Organizer.FILE_TYPES.*1 ["w"] false true Organizer.blocked_world
              "Code" Hbase) as (w' & Hrun & _).
  - vm_compute. in_list.
  - eexists. vm_compute. reflexivity.
  - vm_compute. reflexivity.
  - exists w'. exact Hrun.
Defined.

(** ** A run in which nothing fails *)

(** With [rename] for [shutil.move], a turn succeeds when the file can
    be taken out of its directory and the folder of its category is
    there. *)
Lemma organize_file_rename base results file_path w n :
  Organizer.fs w !! file_path = Some n ->
  unlink_error n = None ->
  ~ Organizer.skipped file_path ->
  is_dir (Organizer.fs w)
    (base ++ [Organizer._get_file_category file_path]) = true ->
  Organizer.fs
    (Organizer.organize_file Organizer.rename base false results file_path w).2
    !! file_path = None.
Proof.
  intros Hn Hu Hskip Hdir.
  destruct (target_is_free (Organizer.fs w) base file_path Hskip)
    as (Hfree & Hparent & _).
  unfold Organizer.organize_file.
  rewrite bool_decide_eq_false_2 by done. orun.
  set (target := Organizer.resolve_conflict _ _ _ _) in *.
  unfold Organizer.rename. rewrite Hn, Hu, Hparent, Hdir.
  assert (file_path <> target) as Hne by congruence.
  unfold Organizer.append_item. case_bool_decide; simpl;
    by rewrite lookup_insert_ne, lookup_delete_eq.
Qed.

Lemma organize_loop_rename_gone base files :
  forall results w,
    NoDup files ->
    (forall f, f ∈ files -> is_file (Organizer.fs w) f = true) ->
    (forall f n, f ∈ files -> Organizer.fs w !! f = Some n ->
                 unlink_error n = None) ->
    (forall c, c ∈ Organizer.FILE_TYPES.*1 ->
               is_dir (Organizer.fs w) (base ++ [c]) = true) ->
    results.*1 = Organizer.FILE_TYPES.*1 ->
    forall f, f ∈ files -> ~ Organizer.skipped f ->
      Organizer.fs
        (Organizer.organize_loop Organizer.rename base false results files w).2
        !! f = None.
Proof.
  induction files as [|g files IH];
    intros results w Hnd Hfiles Hunlink Hdirs Hkeys f Hf Hskip.
  { by apply elem_of_nil in Hf. }
  apply NoDup_cons in Hnd as [Hg Hnd].
  cbn [Organizer.organize_loop]. unfold mbind, Organizer.M_bind.
  destruct (decide (Organizer.skipped g)) as [Hgs|Hgs].
  { rewrite organize_file_skipped by done.
    apply elem_of_cons in Hf as [->|Hf]; [done|].
    apply IH; try done.
    - intros f' ?. apply Hfiles. by right.
    - intros f' m ?. apply Hunlink. by right. }
  destruct (is_file_Some _ _ (Hfiles g ltac:(left))) as [n Hn].
  destruct (target_is_free (Organizer.fs w) base g Hgs)
    as (Hfree & Hparent & Htskip).
  pose proof (organize_file_rename base results g w n Hn (Hunlink g n ltac:(left) Hn) Hgs
                (Hdirs _ (category_is_a_key g))) as Hgone.
  destruct (organize_file_live Organizer.rename base results g w n rename_ok
              Hn Hgs Hkeys) as (w1 & Hframe & Hcase).
  set (target := Organizer.resolve_conflict (Organizer.fs w)
                   (base ++ [Organizer._get_file_category g]) g
                   ((base ++ [Organizer._get_file_category g]) ++
                    [Organizer.name g])) in *.
  destruct Hcase as [(Hrun & _ & n' & Hthere & Hkind & _)|[Hrun Hstay]];
    rewrite Hrun in Hgone |- *; simpl in Hgone; [|congruence].
  assert (forall q m, Organizer.fs w !! q = Some m -> q <> g ->
                      Organizer.fs w1 !! q = Some m) as Hkeep.
  { intros q m Hq Hqg. rewrite Hframe; [done..|]. congruence. }
  assert (NoDup files /\
          (forall f, f ∈ files -> is_Some (Organizer.fs w1 !! f)))
    as [_ Hex1].
  { split; [done|]. intros f' Hf'.
    destruct (is_file_Some _ _ (Hfiles f' ltac:(by right))) as [m Hm].
    exists m. apply Hkeep; [done|]. by intros ->. }
  apply elem_of_cons in Hf as [->|Hf].
  - destruct (organize_loop_live Organizer.rename base files rename_ok
                (Organizer.add_moves [(g, target)] results) w1 Hnd Hex1)
      as (moves & w' & Hloop & _ & _ & H3 & H4);
      [by rewrite add_moves_keys|].
    rewrite Hloop. simpl. rewrite H4; [done| |by left].
    intros ((s & d) & Heq & Hin)%list_elem_of_fmap. simpl in Heq. subst s.
    by destruct (H3 g d Hin) as (? & _).
  - apply IH; try done.
    + intros f' Hf'. unfold is_file.
      destruct (is_file_Some _ _ (Hfiles f' ltac:(by right))) as [m Hm].
      rewrite (Hkeep f' m Hm) by (by intros ->).
      pose proof (Hfiles f' ltac:(by right)) as Hfile.
      unfold is_file in Hfile. by rewrite Hm in Hfile.
    + intros f' m Hf' Hm.
      destruct (is_file_Some _ _ (Hfiles f' ltac:(by right))) as [m0 Hm0].
      rewrite (Hkeep f' m0 Hm0) in Hm by (by intros ->).
      injection Hm as <-. apply (Hunlink f'); [by right|done].
    + intros c Hc. unfold is_dir.
      destruct (is_dir_Some _ _ (Hdirs c Hc)) as [m Hm].
      rewrite (Hkeep _ m Hm).
      * pose proof (Hdirs c Hc) as Hd. unfold is_dir in Hd.
        by rewrite Hm in Hd.
      * intros Heq. pose proof (Hfiles g ltac:(left)) as Hfile.
        pose proof (Hdirs c Hc) as Hd. unfold is_file, is_dir in Hfile, Hd.
        rewrite <- Heq, Hm in *. by destruct m as [[] ? ?].
    + by rewrite add_moves_keys.
Qed.

(** X19.  When nothing is in the way the [organize] command sorts
    every file: in a directory that exists, where no name of a
    category is taken by something that is not a directory and no file
    is protected against removal, a live run with [rename] moves each
    file of the scan that is not in a directory named like a category
    into the folder of its category, to a path that was free, with its
    content.  What is left to scan lies in such directories, so that a
    second [organize_files], dry or live, does nothing at all. *)
Theorem organize_command_sorts_every_file order base rec w :
  is_dir (Organizer.fs w) base = true ->
  (forall c, c ∈ Organizer.FILE_TYPES.*1 -> c ∈ order) ->
  (forall c, c ∈ order ->
     Organizer.fs w !! (base ++ [c]) = None \/
     is_dir (Organizer.fs w) (base ++ [c]) = true) ->
  (forall q n, Organizer.fs w !! q = Some n -> unlink_error n = None) ->
  exists moves w',
    Organizer.organize_command Organizer.rename order base rec false w =
      (Organizer.Ok ((fun c => (c, Organizer.moved_to moves c)) <$>
                       Organizer.FILE_TYPES.*1), w') /\
    (forall q n,
       Organizer.fs w !! q = Some n -> is_file (Organizer.fs w) q = true ->
       (if rec then below base q else child_of base q) ->
       ~ Organizer.skipped q ->
       Organizer.fs w' !! q = None /\
       exists d n',
         (q, d) ∈ moves /\
         Organizer.parent d = base ++ [Organizer._get_file_category q] /\
         Organizer.fs w !! d = None /\ Organizer.fs w' !! d = Some n' /\
         node_kind n' = node_kind n /\ st_mtime n' = st_mtime n) /\
    (forall q, q ∈ candidates (Organizer.fs w') base rec ->
               Organizer.skipped q) /\
    (forall move dry,
       Organizer.organize_files move base rec dry w' =
         (Organizer.Ok Organizer.no_results, w')).
Proof.
  intros Hbase Horder Hok Hunlink.
  destruct (ensure_directories_ok base order w Hbase Hok)
    as (w1 & Hsetup & _ & Hbase1 & Hall & Hold & Hnew).
  unfold Organizer.organize_command, Organizer._setup_directories.
  unfold mbind, Organizer.M_bind. rewrite Hsetup.
  rewrite organize_files_unfold.
  set (files := candidates (Organizer.fs w1) base rec).
  assert (forall f, f ∈ files -> is_file (Organizer.fs w1) f = true) as Hfiles
    by (intros f; apply candidates_is_file).
  assert (forall f n, f ∈ files -> Organizer.fs w1 !! f = Some n ->
                      unlink_error n = None) as Hunlink1.
  { intros f n Hf Hn. destruct (Organizer.fs w !! f) as [m|] eqn:E.
    - rewrite (Hold _ _ E) in Hn. injection Hn as <-. by eapply Hunlink.
    - destruct (Hnew f E) as [_ Hdir]; [eauto|].
      rewrite Hdir in Hn. by injection Hn as <-. }
  assert (forall c, c ∈ Organizer.FILE_TYPES.*1 ->
                    is_dir (Organizer.fs w1) (base ++ [c]) = true) as Hdirs
    by (intros c Hc; apply Hall, Horder, Hc).
  assert (Organizer.no_results.*1 = Organizer.FILE_TYPES.*1) as Hkeys.
  { unfold Organizer.no_results. rewrite <- list_fmap_compose.
    apply list_fmap_id. }
  destruct (organize_loop_live Organizer.rename base files rename_ok
              Organizer.no_results w1)
    as (moves & w' & Hrun & H1 & H2 & H3 & H4).
  { apply candidates_NoDup. }
  { intros f Hf. by apply is_file_Some, Hfiles. }
  { done. }
  pose proof (organize_loop_rename_gone base files Organizer.no_results w1
                (candidates_NoDup _ _ _) Hfiles Hunlink1 Hdirs Hkeys) as Hgone.
  rewrite Hrun in Hgone |- *. simpl in Hgone.
  assert (forall q, q ∈ files -> ~ Organizer.skipped q -> q ∈ moves.*1)
    as Hcomplete.
  { intros q Hq Hs. destruct (decide (q ∈ moves.*1)) as [|Hnot]; [done|].
    destruct (is_file_Some _ _ (Hfiles q Hq)) as [m Hm].
    pose proof (Hgone q Hq Hs) as Hg. rewrite H4 in Hg; [|done|by left].
    congruence. }
  assert (forall q, q ∈ candidates (Organizer.fs w') base rec ->
                    Organizer.skipped q) as Hleft.
  { intros q Hq. destruct (decide (Organizer.skipped q)) as [|Hs]; [done|].
    exfalso. apply elem_of_candidates in Hq as (_ & Hfile & Hpos).
    destruct (decide (q ∈ moves.*1)) as [Hin|Hnot].
    - apply list_elem_of_fmap in Hin as ((s & d) & Heq & Hin).
      simpl in Heq. subst s.
      destruct (H3 q d Hin) as (_ & _ & _ & _ & Hnone & _).
      unfold is_file in Hfile. by rewrite Hnone in Hfile.
    - assert (q ∈ files) as Hqf.
      { apply elem_of_candidates. split_and!; [done| |done].
        unfold is_file in *. by rewrite <- (H4 q Hnot) by (by left). }
      by apply Hnot, Hcomplete. }
  exists moves, w'. rewrite <- add_moves_no_results.
  split_and!; [done| |done|].
  - intros q n Hq Hfile Hpos Hs.
    assert (Organizer.fs w1 !! q = Some n) as Hq1 by by apply Hold.
    assert (q ∈ files) as Hqf.
    { apply elem_of_candidates. split_and!; [done| |done].
      unfold is_file in Hfile |- *. rewrite Hq in Hfile. by rewrite Hq1. }
    split; [by apply Hgone|].
    apply Hcomplete in Hs as Hin; [|done].
    apply list_elem_of_fmap in Hin as ((s & d) & Heq & Hin).
    simpl in Heq. subst s.
    destruct (H3 q d Hin)
      as (_ & _ & Hd & Hpd & _ & m & m' & Hm & Hm' & Hk & Ht).
    assert (m = n) as -> by congruence.
    exists d, m'. split_and!; try done.
    destruct (Organizer.fs w !! d) as [x|] eqn:E; [|done].
    apply Hold in E. congruence.
  - intros move dry. rewrite organize_files_unfold.
    apply organize_loop_skipped, Forall_forall, Hleft.
Qed.

Lemma organize_command_sorts_every_file_witness :
  is_dir (Organizer.fs Organizer.downloads_world) ["dl"] = true /\
  exists moves w',
    Organizer.organize_command Organizer.rename Organizer.FILE_TYPES.*1
      ["dl"] true false Organizer.downloads_world =
      (Organizer.Ok ((fun c => (c, Organizer.moved_to moves c)) <$>
                       Organizer.FILE_TYPES.*1), w') /\
    Organizer.fs w' !! ["dl"; "sub"; "c.png"] = None /\
    (exists d n',
       (["dl"; "sub"; "c.png"], d) ∈ moves /\
       Organizer.parent d = ["dl"; "Images"] /\
       Organizer.fs w' !! d = Some n' /\
       node_kind n' = node_kind (plain "p" 5)) /\
    (forall move dry,
       Organizer.organize_files move ["dl"] true dry w' =
         (Organizer.Ok Organizer.no_results, w')).
Proof.
  assert (is_dir (Organizer.fs Organizer.downloads_world) ["dl"] = true)
    as Hbase by (vm_compute; reflexivity).
  assert (forall c, c ∈ Organizer.FILE_TYPES.*1 ->
            Organizer.fs Organizer.downloads_world !! (["dl"] ++ [c]) = None \/
            is_dir (Organizer.fs Organizer.downloads_world) (["dl"] ++ [c]) =
              true) as Hok.
  { assert (Forall (fun c =>
              Organizer.fs Organizer.downloads_world !! (["dl"] ++ [c]) = None \/
              is_dir (Organizer.fs Organizer.downloads_world) (["dl"] ++ [c]) =
                true) Organizer.FILE_TYPES.*1) as HF.
    { apply (bool_decide_unpack _). vm_compute. exact I. }
    intros c Hc. exact (proj1 (Forall_forall _ _) HF c Hc). }
  assert (forall q n, Organizer.fs Organizer.downloads_world !! q = Some n ->
                      unlink_error n = None) as Hunlink.
  { assert (map_Forall (fun _ n => unlink_error n = None)
              (Organizer.fs Organizer.downloads_world)) as HF.
    { apply (bool_decide_unpack _). vm_compute. exact I. }
    exact HF. }
  split; [exact Hbase|].
  destruct (organize_command_sorts_every_file Organizer.FILE_TYPES.*1 ["dl"]
              true Organizer.downloads_world Hbase (fun c Hc => Hc) Hok Hunlink)
    as (moves & w' & Hrun & Hmoved & _ & Hagain).
  destruct (Hmoved ["dl"; "sub"; "c.png"] (plain "p" 5))
    as (Hgone & d & n' & Hin & Hparent & _ & Hd & Hkind & _).
  - vm_compute. reflexivity.
  - vm_compute. reflexivity.
  - vm_compute. split; [reflexivity|lia].
  - apply (bool_decide_unpack _). vm_compute. exact I.
  - exists moves, w'. split; [exact Hrun|]. split; [exact Hgone|].
    split; [|exact Hagain]. exists d, n'. split_and!; [exact Hin| |exact Hd|].
    + rewrite Hparent. vm_compute. reflexivity.
    + exact Hkind.
Defined.
